(** * Launchtube plugin: intent compiler and relay client

    A shallow embedding of the Stellar/Launchtube plugin of the repository
    ([packages/plugin-launchtube]): the address validator, the transaction
    builder [buildTransactionXDR], the relay client [LaunchtubeService]
    and the two action handlers, followed by the properties the
    specification states about them.

    Conventions of the embedding
    - JavaScript strings are [string]; one character stands for one code
      unit (the model covers code units below 256).
    - JavaScript numbers that occur in the modelled paths are integers and
      are [Z]; a double holds an integer exactly up to 2^53 and rounds a
      larger one to 53 significant bits ([toNumber]). Numbers beyond the
      range of a double are outside the model. [NaN] is the [None] of an
      [option Z].
    - An optional string member of the intent, which the code prints or
      hands to the SDK, is an [optional string]: [Undefined], [Null] or a
      value. Where the code only asks whether a member is there (the
      request of the relay client, the settings, an asset object), an
      absent member is the [None] of an [option]; an [option] is read as
      an [optional] with [None] for [undefined].
    - A thrown [Error] is [Throw message]; an [async] function is a
      computation in the monad [M], which records the calls to the network
      and to the ledger SDK in the order they are made.
    - Logging ([elizaLogger]) has no effect on any result and is left out. *)

From Stdlib Require Import String Ascii List ZArith NArith Bool PeanoNat.
From Stdlib Require Import DecimalString.
From Stdlib Require Import Lia DecimalPos DecimalN.
Import ListNotations.

Local Open Scope string_scope.
Local Open Scope bool_scope.

Set Warnings "-register-all".

(* ================================================================== *)
(** * Strings *)
(* ================================================================== *)

Module Str.

Definition code (c : ascii) : N := N_of_ascii c.

Definition between (lo hi : N) (c : ascii) : bool :=
  (lo <=? code c)%N && (code c <=? hi)%N.

(** The character classes [[A-Z]], [[0-9]] and [[a-z]]. *)
Definition is_upper : ascii -> bool := between 65 90.
Definition is_digit : ascii -> bool := between 48 57.
Definition is_lower : ascii -> bool := between 97 122.

Definition chars : string -> list ascii := list_ascii_of_string.

(** [s.startsWith(p)] *)
Fixpoint startsWith (s p : string) : bool :=
  match p with
  | EmptyString => true
  | String a p' =>
      match s with
      | EmptyString => false
      | String b s' => Ascii.eqb a b && startsWith s' p'
      end
  end.

(** A regular expression of the shape [/^[class]+$/] (no flags): one or
    more characters, all of them in the class, and nothing else. *)
Fixpoint all_in (cls : ascii -> bool) (s : string) : bool :=
  match s with
  | EmptyString => true
  | String c r => cls c && all_in cls r
  end.

Definition test_plus (cls : ascii -> bool) (s : string) : bool :=
  match s with
  | EmptyString => false
  | String _ _ => all_in cls s
  end.

(** Decimal rendering of a number, as a template literal prints it. *)
Definition of_N (n : N) : string := NilZero.string_of_uint (N.to_uint n).

Definition of_Z (z : Z) : string :=
  match z with
  | Z0 => "0"
  | Zpos p => of_N (Npos p)
  | Zneg p => "-" ++ of_N (Npos p)
  end.

Definition of_nat (n : nat) : string := of_N (N.of_nat n).

(** [parts.join(sep)] *)
Fixpoint join (sep : string) (l : list string) : string :=
  match l with
  | [] => ""
  | [x] => x
  | x :: r => x ++ sep ++ join sep r
  end.

(** White space of [String.prototype.trim] and of [parseInt], among the
    code units below 256: TAB, LF, VT, FF, CR, SP and NBSP. *)
Definition is_space (c : ascii) : bool :=
  between 9 13 c || (code c =? 32)%N || (code c =? 160)%N.

Fixpoint trimStart (s : string) : string :=
  match s with
  | EmptyString => EmptyString
  | String c r => if is_space c then trimStart r else s
  end.

Fixpoint trimEnd (s : string) : string :=
  match s with
  | EmptyString => EmptyString
  | String c r =>
      match trimEnd r with
      | EmptyString => if is_space c then EmptyString else String c EmptyString
      | r' => String c r'
      end
  end.

Definition trim (s : string) : string := trimEnd (trimStart s).

Definition lower_char (c : ascii) : ascii :=
  if is_upper c then ascii_of_N (code c + 32) else c.

Fixpoint lower (s : string) : string :=
  match s with
  | EmptyString => EmptyString
  | String c r => String (lower_char c) (lower r)
  end.

(** The digits at the front of a string, most significant first, and the
    number they denote in base ten. *)
Fixpoint leading_digits (s : string) : list N :=
  match s with
  | EmptyString => []
  | String c r => if is_digit c then (code c - 48)%N :: leading_digits r else []
  end.

Definition decimal_value (ds : list N) : Z :=
  fold_left (fun acc d => (10 * acc + Z.of_N d)%Z) ds 0%Z.

(** Upper-case hexadecimal digit of a nibble. *)
Definition hex_digit (n : N) : ascii :=
  if (n <? 10)%N then ascii_of_N (48 + n) else ascii_of_N (55 + n).

End Str.

(* ================================================================== *)
(** * JavaScript values *)
(* ================================================================== *)

Module Js.

(** The values that reach the modelled code: what [JSON.parse] returns,
    plus [undefined]. An object is the list of its own properties, in
    insertion order. *)
Inductive value : Type :=
| VUndefined
| VNull
| VBool (b : bool)
| VNum (n : Z)
| VStr (s : string)
| VArr (items : list value)
| VObj (props : list (string * value)).

Definition typeof (v : value) : string :=
  match v with
  | VUndefined => "undefined"
  | VNull => "object"
  | VBool _ => "boolean"
  | VNum _ => "number"
  | VStr _ => "string"
  | VArr _ => "object"
  | VObj _ => "object"
  end.

(** [ToBoolean] *)
Definition truthy (v : value) : bool :=
  match v with
  | VUndefined | VNull => false
  | VBool b => b
  | VNum n => negb (n =? 0)%Z
  | VStr s => negb (s =? "")
  | VArr _ | VObj _ => true
  end.

(** [a || b] *)
Definition or (a b : value) : value := if truthy a then a else b.

Definition nullish (v : value) : bool :=
  match v with
  | VUndefined | VNull => true
  | _ => false
  end.

(** [v.toString()] for a value that is neither [undefined] nor [null]
    (the two cases are given their [String(v)] text). *)
Fixpoint toString (v : value) : string :=
  match v with
  | VUndefined => "undefined"
  | VNull => "null"
  | VBool true => "true"
  | VBool false => "false"
  | VNum n => Str.of_Z n
  | VStr s => s
  | VArr items =>
      Str.join "," (map (fun x => if nullish x then "" else toString x) items)
  | VObj _ => "[object Object]"
  end.

(** Own-property lookup; a missing property reads as [undefined]. *)
Fixpoint lookup (k : string) (props : list (string * value)) : value :=
  match props with
  | [] => VUndefined
  | (k', v) :: r => if k' =? k then v else lookup k r
  end.

(** [v.k] on a value that is neither [undefined] nor [null]; none of the
    names read by the plugin is a property of a string, a number, a
    boolean or an array. *)
Definition prop (v : value) (k : string) : value :=
  match v with
  | VObj props => lookup k props
  | _ => VUndefined
  end.

(** [obj[k] = v]: an existing key keeps its place, a new key goes last. *)
Fixpoint assign {A : Type} (k : string) (v : A) (props : list (string * A))
  : list (string * A) :=
  match props with
  | [] => [(k, v)]
  | (k', v') :: r => if k' =? k then (k, v) :: r else (k', v') :: assign k v r
  end.

Fixpoint indexed {A : Type} (i : nat) (l : list A) : list (string * A) :=
  match l with
  | [] => []
  | x :: r => (Str.of_nat i, x) :: indexed (S i) r
  end.

(** The own enumerable properties copied by an object spread [{...v}]. *)
Definition spread (v : value) : list (string * value) :=
  match v with
  | VObj props => props
  | VArr items => indexed 0 items
  | VStr s => indexed 0 (map (fun c => VStr (String c EmptyString)) (Str.chars s))
  | _ => []
  end.

(** An optional member as it is found at run time: absent, [null] (what
    the extraction is told to write for a value it cannot determine) or a
    value. *)
Inductive optional (A : Type) : Type :=
| Undefined
| Null
| Val (a : A).

Arguments Undefined {A}.
Arguments Null {A}.
Arguments Val {A} a.

(** A member that is either absent or a value. *)
Definition ofOption {A : Type} (o : option A) : optional A :=
  match o with
  | Some a => Val a
  | None => Undefined
  end.

Coercion ofOption : option >-> optional.

(** Truthiness of an optional string ([undefined], [null] and the empty
    string are falsy). *)
Definition present (f : optional string) : bool :=
  match f with
  | Val s => negb (s =? "")
  | _ => false
  end.

(** [a || b] on optional strings. *)
Definition orElse (a b : optional string) : optional string :=
  if present a then a else b.

(** An optional string inside a template literal. *)
Definition show (f : optional string) : string :=
  match f with
  | Val s => s
  | Null => "null"
  | Undefined => "undefined"
  end.

(** The number that stands for an integer: the integer itself up to 2^53
    in absolute value, and beyond that the nearest integer with 53
    significant bits, a tie going to the even one. *)
Definition toNumber (z : Z) : Z :=
  if (Z.abs z <=? 9007199254740992)%Z then z
  else
    let unit := (2 ^ (Z.log2 (Z.abs z) - 52))%Z in
    let q := (Z.abs z / unit)%Z in
    let rest := (Z.abs z mod unit)%Z in
    let up := if (2 * rest <? unit)%Z then false
              else if (unit <? 2 * rest)%Z then true
              else Z.odd q in
    (Z.sgn z * ((if up then q + 1 else q) * unit))%Z.

(** The integer that the leading numeral of [s] denotes, after leading
    white space and a sign; [None] when there is no digit. *)
Definition parseInt10 (s : string) : option Z :=
  let s1 := Str.trimStart s in
  let '(neg, s2) :=
    match s1 with
    | String "-" r => (true, r)
    | String "+" r => (false, r)
    | _ => (false, s1)
    end in
  match Str.leading_digits s2 with
  | [] => None
  | ds => Some (if neg then (- Str.decimal_value ds)%Z else Str.decimal_value ds)
  end.

(** [parseInt(s, 10)]: the number for the leading numeral, [None] for
    [NaN]. *)
Definition parseInt (s : string) : option Z :=
  match parseInt10 s with
  | Some z => Some (toNumber z)
  | None => None
  end.

End Js.

Import Js.

(* ================================================================== *)
(** * Address validation *)
(* ================================================================== *)

(** The account-identifier alphabet: the character class [[A-Z0-9]] of the
    validator's regular expression. *)
Definition in_alphabet (c : ascii) : bool := Str.is_upper c || Str.is_digit c.

(** [isValidStellarAddress] of [actions/submitTransaction.ts] (the same
    function is repeated in the Stellar plugin's [sendXLM.ts]). *)
Definition isValidStellarAddress (address : value) : bool :=
  (typeof address =? "string") &&
  match address with
  | VStr s =>
      (String.length s =? 56)%nat &&
      Str.startsWith s "G" &&
      Str.test_plus in_alphabet s
  | _ => false
  end.

(* ================================================================== *)
(** * Effects: thrown errors and the trace of outside calls *)
(* ================================================================== *)

(** The outcome of a call that may throw: a value, or the [message] of the
    [Error] that was thrown. *)
Inductive Res (A : Type) : Type :=
| Ok (a : A)
| Throw (message : string).

Arguments Ok {A} a.
Arguments Throw {A} message.

(** ** Ledger SDK values ([@stellar/stellar-sdk]) *)

Inductive Networks : Type := PUBLIC | TESTNET.

(** [Asset.native()] and [new Asset(code, issuer)]. *)
Inductive Asset : Type :=
| Native
| Issued (code issuer : optional string).

Inductive Operation : Type :=
| Payment (destination : string) (asset : Asset) (amount : string)
| CreateAccount (destination startingBalance : string)
| ChangeTrust (asset : Asset) (limit : optional string)
| PathPaymentStrictReceive (sendAsset : Asset) (sendMax destination : string)
    (destAsset : Asset) (destAmount : string) (path : list Asset).

Inductive Memo : Type :=
| MemoText (v : string)
| MemoId (v : string)
| MemoHash (v : string)
| MemoReturn (v : string).

(** What [server.loadAccount] answers. *)
Record Account : Type := mkAccount {
  accountId : string;
  sequence : string
}.

(** The state of a [TransactionBuilder]; the fee is always [BASE_FEE]. *)
Record TransactionBuilder : Type := mkBuilder {
  source : Account;
  networkPassphrase : Networks;
  operations : list Operation;
  memos : list Memo;
  timeout : option Z
}.

Definition addOperation (op : Operation) (b : TransactionBuilder) : TransactionBuilder :=
  mkBuilder (source b) (networkPassphrase b) ((operations b ++ [op])%list) (memos b) (timeout b).

Definition addMemo (m : Memo) (b : TransactionBuilder) : TransactionBuilder :=
  mkBuilder (source b) (networkPassphrase b) (operations b) ((memos b ++ [m])%list) (timeout b).

Definition setTimeout (t : Z) (b : TransactionBuilder) : TransactionBuilder :=
  mkBuilder (source b) (networkPassphrase b) (operations b) (memos b) (Some t).

(** ** HTTP *)

Definition Headers : Type := list (string * string).

(** A [Response] of the fetch API: [httpStatus] is [response.status],
    [text] is what [await response.text()] gives. *)
Record Response : Type := mkResponse {
  httpStatus : Z;
  headers : Headers;
  text : Res string
}.

(** [response.ok] *)
Definition ok (r : Response) : bool := (200 <=? httpStatus r)%Z && (httpStatus r <=? 299)%Z.

(** [headers.get(name)]: names compare without regard to case, the values
    of a repeated header are joined by a comma and a space, and an absent
    header reads as [null]. *)
Definition headers_get (h : Headers) (name : string) : value :=
  match filter (fun kv => Str.lower (fst kv) =? Str.lower name) h with
  | [] => VNull
  | l => VStr (Str.join ", " (map snd l))
  end.

(** ** The trace *)

(** Every call that leaves the process (the two network calls) or enters
    the ledger SDK, in the order it is made. *)
Inductive event : Type :=
| LoadAccount (serverUrl address : string)
| Fetch (url method : string) (hdrs : Headers) (body : option string)
| SdkAsset (code issuer : optional string)
| SdkOperation (op : Operation)
| SdkMemo (m : Memo)
| SdkBuild (b : TransactionBuilder).

Definition is_network (e : event) : bool :=
  match e with
  | LoadAccount _ _ | Fetch _ _ _ _ => true
  | _ => false
  end.

Definition is_load (e : event) : bool :=
  match e with
  | LoadAccount _ _ => true
  | _ => false
  end.

Definition is_fetch (e : event) : bool :=
  match e with
  | Fetch _ _ _ _ => true
  | _ => false
  end.

(** ** The monad of [async] functions *)

Definition M (A : Type) : Type := (list event * Res A)%type.

Definition ret {A : Type} (a : A) : M A := ([], Ok a).

Definition throw {A : Type} (message : string) : M A := ([], Throw message).

Definition bind {A B : Type} (c : M A) (k : A -> M B) : M B :=
  match c with
  | (t, Ok a) => let '(t', r) := k a in ((t ++ t')%list, r)
  | (t, Throw m) => (t, Throw m)
  end.

(** [try { c } catch (error) { h(error.message) }] *)
Definition try_catch {A : Type} (c : M A) (h : string -> M A) : M A :=
  match c with
  | (t, Ok a) => (t, Ok a)
  | (t, Throw m) => let '(t', r) := h m in ((t ++ t')%list, r)
  end.

Definition emit (e : event) : M unit := ([e], Ok tt).

Definition lift {A : Type} (r : Res A) : M A := ([], r).

Definition trace {A : Type} (c : M A) : list event := fst c.

Definition outcome {A : Type} (c : M A) : Res A := snd c.

Declare Scope async_scope.
Delimit Scope async_scope with async.
Notation "x <- c ;; k" := (bind c (fun x => k))
  (at level 61, c at next level, right associativity) : async_scope.
Notation "c ;;; k" := (bind c (fun _ => k))
  (at level 61, right associativity) : async_scope.
Local Open Scope async_scope.

Fixpoint mapM {A B : Type} (f : A -> M B) (l : list A) : M (list B) :=
  match l with
  | [] => ret []
  | x :: r => y <- f x ;; ys <- mapM f r ;; ret (y :: ys)
  end.

(** ** The outside world *)

Inductive zod_issue : Type :=
| ZRequired
| ZNull
| ZInvalidUrl
| ZInvalidEnum (received : string).

(** Everything the plugin calls and does not define: the process
    environment, the schema library's built-in checks and texts, the JSON
    parser, the HTTP client, the ledger's account service and the ledger
    SDK. For the SDK's constructors the record says whether a call throws
    ([Some message]) or returns. *)
Record World : Type := mkWorld {
  env : string -> option string;
  isUrl : string -> bool;
  zodMessage : zod_issue -> string;
  jsonParse : string -> Res value;
  typeErrorMessage : value -> string -> string;
  fetch : string -> string -> Headers -> option string -> Res Response;
  horizonLoadAccount : string -> string -> Res Account;
  sdkAsset : optional string -> optional string -> option string;
  sdkOperation : Operation -> option string;
  sdkMemo : Memo -> option string;
  sdkBuild : TransactionBuilder -> Res string
}.

(** The agent runtime, as far as the plugin uses it. *)
Record Runtime : Type := mkRuntime {
  getSetting : string -> option string
}.

Definition checked {A : Type} (verdict : option string) (a : A) : Res A :=
  match verdict with
  | Some m => Throw m
  | None => Ok a
  end.

Section Calls.

Variable w : World.

(** [server.loadAccount(address)] *)
Definition loadAccount (serverUrl address : string) : M Account :=
  emit (LoadAccount serverUrl address) ;;;
  lift (horizonLoadAccount w serverUrl address).

(** [fetch(url, {method, headers, body})] *)
Definition fetchM (url method : string) (hdrs : Headers) (body : option string)
  : M Response :=
  emit (Fetch url method hdrs body) ;;;
  lift (fetch w url method hdrs body).

(** [new Asset(code, issuer)] *)
Definition newAsset (code issuer : optional string) : M Asset :=
  emit (SdkAsset code issuer) ;;;
  lift (checked (sdkAsset w code issuer) (Issued code issuer)).

(** [Operation.payment({...})] and its siblings. *)
Definition mkOperation (op : Operation) : M Operation :=
  emit (SdkOperation op) ;;;
  lift (checked (sdkOperation w op) op).

(** [Memo.text(v)] and its siblings. *)
Definition mkMemo (m : Memo) : M Memo :=
  emit (SdkMemo m) ;;;
  lift (checked (sdkMemo w m) m).

(** [builder.build().toXDR()] *)
Definition buildXDR (b : TransactionBuilder) : M string :=
  emit (SdkBuild b) ;;;
  lift (sdkBuild w b).

(** [v.k]: reading a property of [undefined] or [null] throws a
    [TypeError]. *)
Definition getProp (v : value) (k : string) : M value :=
  if nullish v then throw (typeErrorMessage w v k) else ret (prop v k).

End Calls.

(* ================================================================== *)
(** * Configuration ([environment.ts]) *)
(* ================================================================== *)

Record LaunchtubeConfig : Type := mkConfig {
  LAUNCHTUBE_API_KEY : string;
  LAUNCHTUBE_BASE_URL : string;
  STELLAR_NETWORK : string
}.

Definition newline : string := String (ascii_of_nat 10) EmptyString.

Section Configuration.

Variable w : World.

(** The issues [launchtubeConfigSchema.parse] reports, each rendered as
    [path: message], in the order of the schema's keys. *)
Definition schemaIssues (key url net : optional string) : list string :=
  let keyIssues :=
    match key with
    | Undefined => ["LAUNCHTUBE_API_KEY: " ++ zodMessage w ZRequired]
    | Null => ["LAUNCHTUBE_API_KEY: " ++ zodMessage w ZNull]
    | Val k =>
        if (1 <=? String.length k)%nat then []
        else ["LAUNCHTUBE_API_KEY: Launchtube API key is required"]
    end in
  let urlIssues :=
    if isUrl w (show url) then []
    else ["LAUNCHTUBE_BASE_URL: " ++ zodMessage w ZInvalidUrl] in
  let netIssues :=
    if (show net =? "testnet") || (show net =? "mainnet") then []
    else ["STELLAR_NETWORK: " ++ zodMessage w (ZInvalidEnum (show net))] in
  (keyIssues ++ urlIssues ++ netIssues)%list.

Definition validateLaunchtubeConfig (runtime : Runtime) : M LaunchtubeConfig :=
  let key := orElse (getSetting runtime "LAUNCHTUBE_API_KEY")
                    (env w "LAUNCHTUBE_API_KEY") in
  let url := orElse (orElse (getSetting runtime "LAUNCHTUBE_BASE_URL")
                            (env w "LAUNCHTUBE_BASE_URL"))
                    (Some "https://testnet.launchtube.xyz") in
  let net := orElse (orElse (getSetting runtime "STELLAR_NETWORK")
                            (env w "STELLAR_NETWORK"))
                    (Some "testnet") in
  match schemaIssues key url net with
  | [] => ret (mkConfig (show key) (show url) (show net))
  | errorMessages =>
      throw ("Launchtube plugin configuration validation failed:" ++ newline
             ++ Str.join newline errorMessages)
  end.

End Configuration.

(* ================================================================== *)
(** * The relay client ([services/launchtubeService.ts]) *)
(* ================================================================== *)

(** ** [URLSearchParams] *)

Definition URLSearchParams : Type := list (string * string).

Definition append (k v : string) (p : URLSearchParams) : URLSearchParams :=
  (p ++ [(k, v)])%list.

(** The [application/x-www-form-urlencoded] serializer works on the
    UTF-8 bytes of a string: letters, digits and [* - . _] stay, a space
    becomes [+], every other byte is percent-encoded. A code unit below
    128 is one byte; a code unit from 128 to 255 is the two bytes
    [110000xx 10xxxxxx]. *)
Definition form_safe (c : ascii) : bool :=
  Str.is_upper c || Str.is_lower c || Str.is_digit c ||
  (Str.code c =? 42)%N || (Str.code c =? 45)%N ||
  (Str.code c =? 46)%N || (Str.code c =? 95)%N.

Definition utf8 (c : ascii) : list N :=
  if (Str.code c <? 128)%N then [Str.code c]
  else [(192 + Str.code c / 64)%N; (128 + Str.code c mod 64)%N].

Definition percent (byte : N) : string :=
  String "%" (String (Str.hex_digit (byte / 16))
                (String (Str.hex_digit (byte mod 16)) EmptyString)).

Definition encode_char (c : ascii) : string :=
  if form_safe c then String c EmptyString
  else if (Str.code c =? 32)%N then "+"
  else String.concat "" (map percent (utf8 c)).

Fixpoint encode (s : string) : string :=
  match s with
  | EmptyString => EmptyString
  | String c r => encode_char c ++ encode r
  end.

(** [params.toString()] *)
Definition serialize (p : URLSearchParams) : string :=
  Str.join "&" (map (fun kv => encode (fst kv) ++ "=" ++ encode (snd kv)) p).

(** ** Requests and answers ([types.ts]) *)

Module Req.

Record LaunchtubeSubmissionRequest : Type := mk {
  xdr : option string;
  func : option string;
  auth : option (list string);
  sim : option bool
}.

End Req.

Record LaunchtubeSubmissionResponse : Type := mkSubmission {
  status : string;
  tx : value;
  error : option string;
  details : option value
}.

Record LaunchtubeCreditsResponse : Type := mkCredits {
  credits : string
}.

Record LaunchtubeService : Type := mkService {
  config : option LaunchtubeConfig
}.

(** [new LaunchtubeService()] *)
Definition newService : LaunchtubeService := mkService None.

Section Service.

Variable w : World.

Definition initialize (runtime : option Runtime) (this : LaunchtubeService)
  : M LaunchtubeService :=
  match runtime with
  | Some rt =>
      cfg <- validateLaunchtubeConfig w rt ;;
      ret (mkService (Some cfg))
  | None => ret this
  end.

(** [await response.json()] *)
Definition json (response : Response) : M value :=
  t <- lift (text response) ;;
  lift (jsonParse w t).

Definition makeRequest (this : LaunchtubeService) (endpoint : string)
  (method body : option string) (hdrs : Headers) : M Response :=
  match config this with
  | None => throw "LaunchtubeService not initialized"
  | Some c =>
      let url := LAUNCHTUBE_BASE_URL c ++ endpoint in
      let headers :=
        fold_left (fun acc kv => assign (fst kv) (snd kv) acc) hdrs
                  [("Authorization", "Bearer " ++ LAUNCHTUBE_API_KEY c)] in
      response <- fetchM w url (show (orElse method (Some "GET"))) headers body ;;
      if negb (ok response) then
        errorText <- lift (text response) ;;
        throw ("Launchtube API error (" ++ Str.of_Z (httpStatus response)
               ++ "): " ++ errorText)
      else ret response
  end.

(** The form body [submitTransaction] builds from a request. *)
Definition requestBody (request : Req.LaunchtubeSubmissionRequest) : URLSearchParams :=
  let body : URLSearchParams := [] in
  let body := match Req.xdr request with
              | Some x => if present (Some x) then append "xdr" x body else body
              | None => body
              end in
  let body := match Req.func request with
              | Some f => if present (Some f) then append "func" f body else body
              | None => body
              end in
  let body := match Req.auth request with
              | Some entries =>
                  fold_left (fun b authEntry => append "auth[]" authEntry b) entries body
              | None => body
              end in
  match Req.sim request with
  | Some b => append "sim" (if b then "true" else "false") body
  | None => body
  end.

(** The [try] block of [submitTransaction]. *)
Definition submitAttempt (this : LaunchtubeService)
  (request : Req.LaunchtubeSubmissionRequest) : M LaunchtubeSubmissionResponse :=
  let body := requestBody request in
  response <- makeRequest this "/" (Some "POST") (Some (serialize body))
                [("Content-Type", "application/x-www-form-urlencoded")] ;;
  result <- json response ;;
  let creditsRemaining := headers_get (headers response) "X-Credits-Remaining" in
  tx <- getProp w result "tx" ;;
  hash <- (if truthy tx then ret tx else getProp w result "hash") ;;
  ret (mkSubmission "success" hash None
         (Some (VObj (assign "creditsRemaining" creditsRemaining (spread result))))).

(** The object the [catch] block returns. *)
Definition submissionError (message : string) : LaunchtubeSubmissionResponse :=
  mkSubmission "error" VUndefined (Some message) None.

Definition submitTransaction (this : LaunchtubeService)
  (request : Req.LaunchtubeSubmissionRequest) : M LaunchtubeSubmissionResponse :=
  try_catch (submitAttempt this request)
            (fun message => ret (submissionError message)).

Definition checkCredits (this : LaunchtubeService) : M LaunchtubeCreditsResponse :=
  try_catch
    (response <- makeRequest this "/info" None None [] ;;
     responseText <- lift (text response) ;;
     parsed <- lift (jsonParse w (Str.trim responseText)) ;;
     field <- getProp w parsed "credits" ;;
     let credits :=
       orElse (if nullish field then None else Some (toString field)) (Some "0") in
     ret (mkCredits (show credits)))
    (fun message => throw message).

End Service.

(* ================================================================== *)
(** * The intent compiler ([actions/submitTransaction.ts]) *)
(* ================================================================== *)

(** An asset as the intent names it: [{code?, issuer?}]. *)
Record AssetRef : Type := mkAssetRef {
  code : optional string;
  issuer : optional string
}.

(** [StellarTransactionDetails] of [types.ts], with the members the
    compiler reads, as the extraction delivers them: a string member may
    be absent or [null]. Of an asset object and of the path the code only
    asks whether they are there ([ref?.code], [path?.map]), so for them
    [None] stands for [undefined] and for [null]. *)
Record StellarTransactionDetails : Type := mkDetails {
  type : optional string;
  sourceAccount : optional string;
  destinationAccount : optional string;
  amount : optional string;
  asset : option AssetRef;
  memo : optional string;
  memoType : optional string;
  xdr : optional string;
  sendAsset : option AssetRef;
  sendMax : optional string;
  destAsset : option AssetRef;
  destAmount : optional string;
  path : option (list AssetRef);
  trustAsset : option AssetRef;
  trustLimit : optional string;
  startingBalance : optional string
}.

(** [field === "literal"] *)
Definition strictEq (field : optional string) (literal : string) : bool :=
  match field with
  | Val s => s =? literal
  | _ => false
  end.

(** [ref?.code] and [ref?.issuer] *)
Definition codeOf (ref : option AssetRef) : optional string :=
  match ref with
  | Some r => code r
  | None => Undefined
  end.

Definition issuerOf (ref : option AssetRef) : optional string :=
  match ref with
  | Some r => issuer r
  | None => Undefined
  end.

Section Compiler.

Variable w : World.

(** [ref?.code === "XLM" || !ref?.code ? Asset.native()
                                       : new Asset(ref.code, ref.issuer!)] *)
Definition resolveAsset (ref : option AssetRef) : M Asset :=
  if strictEq (codeOf ref) "XLM" || negb (present (codeOf ref)) then ret Native
  else newAsset w (codeOf ref) (issuerOf ref).

(** [p.code === "XLM" ? Asset.native() : new Asset(p.code!, p.issuer!)] *)
Definition resolvePathAsset (p : AssetRef) : M Asset :=
  if strictEq (code p) "XLM" then ret Native
  else newAsset w (code p) (issuer p).

(** The [switch (details.type)] of [buildTransactionXDR]. *)
Definition selectOperation (details : StellarTransactionDetails)
  (transactionBuilder : TransactionBuilder) : M TransactionBuilder :=
  if strictEq (type details) "payment" then
    if negb (present (destinationAccount details)) || negb (present (amount details))
    then throw "Payment requires destinationAccount and amount"
    else
      asset <- resolveAsset (asset details) ;;
      op <- mkOperation w (Payment (show (destinationAccount details)) asset
                             (show (amount details))) ;;
      ret (addOperation op transactionBuilder)
  else if strictEq (type details) "createAccount" then
    if negb (present (destinationAccount details))
       || negb (present (startingBalance details))
    then throw "Create account requires destinationAccount and startingBalance"
    else
      op <- mkOperation w (CreateAccount (show (destinationAccount details))
                             (show (startingBalance details))) ;;
      ret (addOperation op transactionBuilder)
  else if strictEq (type details) "changeTrust" then
    if negb (present (codeOf (trustAsset details)))
       || negb (present (issuerOf (trustAsset details)))
    then throw "Change trust requires trustAsset with code and issuer"
    else
      trustAsset <- newAsset w (codeOf (trustAsset details))
                      (issuerOf (trustAsset details)) ;;
      op <- mkOperation w (ChangeTrust trustAsset (trustLimit details)) ;;
      ret (addOperation op transactionBuilder)
  else if strictEq (type details) "pathPayment" then
    if negb (present (destinationAccount details))
       || negb (present (sendMax details))
       || negb (present (destAmount details))
    then throw "Path payment requires destinationAccount, sendMax, and destAmount"
    else
      sendAsset <- resolveAsset (sendAsset details) ;;
      destAsset <- resolveAsset (destAsset details) ;;
      path <- match path details with
              | Some l => mapM resolvePathAsset l
              | None => ret []
              end ;;
      op <- mkOperation w (PathPaymentStrictReceive sendAsset
                             (show (sendMax details))
                             (show (destinationAccount details))
                             destAsset (show (destAmount details)) path) ;;
      ret (addOperation op transactionBuilder)
  else throw ("Unsupported transaction type: " ++ show (type details)).

(** The memo part: [if (details.memo) { switch (details.memoType || "text") }];
    a memo type outside the four cases adds nothing. *)
Definition attachMemo (details : StellarTransactionDetails)
  (transactionBuilder : TransactionBuilder) : M TransactionBuilder :=
  if present (memo details) then
    let memoType := orElse (memoType details) (Some "text") in
    if strictEq memoType "text" then
      m <- mkMemo w (MemoText (show (memo details))) ;;
      ret (addMemo m transactionBuilder)
    else if strictEq memoType "id" then
      m <- mkMemo w (MemoId (show (memo details))) ;;
      ret (addMemo m transactionBuilder)
    else if strictEq memoType "hash" then
      m <- mkMemo w (MemoHash (show (memo details))) ;;
      ret (addMemo m transactionBuilder)
    else if strictEq memoType "return" then
      m <- mkMemo w (MemoReturn (show (memo details))) ;;
      ret (addMemo m transactionBuilder)
    else ret transactionBuilder
  else ret transactionBuilder.

Definition serverUrlOf (runtime : Runtime) : string :=
  if strictEq (getSetting runtime "STELLAR_NETWORK") "mainnet"
  then "https://horizon.stellar.org"
  else "https://horizon-testnet.stellar.org".

Definition passphraseOf (runtime : Runtime) : Networks :=
  if strictEq (getSetting runtime "STELLAR_NETWORK") "mainnet" then PUBLIC else TESTNET.

Definition buildTransactionXDR (runtime : Runtime)
  (details : StellarTransactionDetails) : M string :=
  let networkPassphrase := passphraseOf runtime in
  let serverUrl := serverUrlOf runtime in
  if negb (present (sourceAccount details)) then
    throw "Source account is required for transaction building"
  else
    sourceAccount <- loadAccount w serverUrl (show (sourceAccount details)) ;;
    let transactionBuilder := mkBuilder sourceAccount networkPassphrase [] [] None in
    transactionBuilder <- selectOperation details transactionBuilder ;;
    transactionBuilder <- attachMemo details transactionBuilder ;;
    buildXDR w (setTimeout 30 transactionBuilder).

End Compiler.

(* ================================================================== *)
(** * The action handlers *)
(* ================================================================== *)

Section Handlers.

Variable w : World.

(** ** The [SUBMIT_STELLAR_TRANSACTION] handler *)

(** The [content] handed to the callback. *)
Inductive SubmitContent : Type :=
| Submitted (transactionHash creditsRemaining : value) (details : option value)
    (transactionType : optional string)
| Failed (error : option string).

Definition creditsOf (details : option value) : value :=
  match details with
  | Some (VObj props) => lookup "creditsRemaining" props
  | _ => VUndefined
  end.

(** The address checks at the head of the handler. *)
Definition validateAddresses (transactionDetails : StellarTransactionDetails) : M unit :=
  (if present (sourceAccount transactionDetails) then
     if negb (isValidStellarAddress (VStr (show (sourceAccount transactionDetails))))
     then throw ("Invalid source account format: "
                 ++ show (sourceAccount transactionDetails)
                 ++ ". Must be a 56-character Stellar public key starting with G.")
     else ret tt
   else ret tt) ;;;
  (if present (destinationAccount transactionDetails) then
     if negb (isValidStellarAddress (VStr (show (destinationAccount transactionDetails))))
     then throw ("Invalid destination account format: "
                 ++ show (destinationAccount transactionDetails)
                 ++ ". Must be a 56-character Stellar public key starting with G.")
     else ret tt
   else ret tt).

(** The handler from the point where the extracted [transactionDetails]
    are known; it answers the boolean it returns and the callback content. *)
Definition submitHandler (runtime : Runtime)
  (transactionDetails : StellarTransactionDetails) : M (bool * SubmitContent) :=
  try_catch
    (validateAddresses transactionDetails ;;;
     launchtubeService <- initialize w (Some runtime) newService ;;
     xdr <- (if strictEq (type transactionDetails) "xdr" && present (xdr transactionDetails)
             then ret (show (xdr transactionDetails))
             else buildTransactionXDR w runtime transactionDetails) ;;
     result <- submitTransaction w launchtubeService
                 (Req.mk (Some xdr) None None (Some true)) ;;
     if status result =? "success" then
       ret (true, Submitted (tx result) (creditsOf (details result)) (details result)
                    (type transactionDetails))
     else ret (false, Failed (error result)))
    (fun message => ret (false, Failed (Some message))).

(** ** The [CHECK_LAUNCHTUBE_CREDITS] handler ([actions/checkCredits.ts]) *)

(** The [content] handed to the callback; [creditsInXLM] is the quotient
    of the amount by ten million, as a pair of numerator and
    denominator. *)
Inductive CreditsContent : Type :=
| CreditsReport (success : bool) (credits : option Z) (creditsInXLM : Z * Z)
    (creditsString : string) (parsingError : bool)
| CreditsFailed (error : string).

Definition isNaN (n : option Z) : bool :=
  match n with
  | Some _ => false
  | None => true
  end.

Definition creditsHandler (runtime : Runtime) : M (bool * CreditsContent) :=
  try_catch
    (launchtubeService <- initialize w (Some runtime) newService ;;
     result <- checkCredits w launchtubeService ;;
     let creditsString := credits result in
     let credits := parseInt creditsString in
     let creditsInXLM :=
       match credits with
       | None => (0%Z, 1%Z)
       | Some c => (c, 10000000%Z)
       end in
     ret (true, CreditsReport (negb (isNaN credits)) credits creditsInXLM
                  creditsString (isNaN credits)))
    (fun message => ret (false, CreditsFailed message)).

End Handlers.

(* ================================================================== *)
(** * Notions used by the statements *)
(* ================================================================== *)

(** The intent kinds that have a case in the compiler's switch. *)
Definition recognized (kind : optional string) : bool :=
  strictEq kind "payment" || strictEq kind "createAccount" ||
  strictEq kind "changeTrust" || strictEq kind "pathPayment".

(** [only P c]: every call recorded by [c] satisfies [P]. *)
Definition only {A : Type} (P : event -> bool) (c : M A) : Prop :=
  Forall (fun e => P e = true) (trace c).

(** A decimal string that denotes a positive number: digits, optionally a
    point and more digits, with a digit other than zero somewhere. An
    amount outside this class is what the specification calls non-numeric
    or not above zero. *)
Fixpoint splitPoint (s : string) : string * option string :=
  match s with
  | EmptyString => (EmptyString, None)
  | String c r =>
      if (Str.code c =? 46)%N then (EmptyString, Some r)
      else let '(i, f) := splitPoint r in (String c i, f)
  end.

Definition nonzero_digit (c : ascii) : bool := Str.between 49 57 c.

Definition positiveDecimal (s : string) : bool :=
  let '(i, f) := splitPoint s in
  let f' := match f with Some x => x | None => EmptyString end in
  Str.test_plus Str.is_digit i &&
  match f with Some x => Str.test_plus Str.is_digit x | None => true end &&
  existsb nonzero_digit (Str.chars (i ++ f')).

Definition invalidAmount (a : optional string) : bool :=
  match a with
  | Val s => negb (positiveDecimal s)
  | _ => true
  end.

(** The alphabet the specification names for account identifiers:
    upper-case base32, the letters [A-Z] and the digits [2-7]. *)
Definition base32 (c : ascii) : bool := Str.is_upper c || Str.between 50 55 c.

(** An account field that is either absent or accepted by the validator. *)
Definition absentOrValid (f : optional string) : bool :=
  negb (present f) || isValidStellarAddress (VStr (show f)).

(** The issuers an intent names: of the payment asset, of the trust
    asset, of both path-payment assets and of every asset on the path. *)
Definition issuersOf (d : StellarTransactionDetails) : list (optional string) :=
  (issuerOf (asset d) :: issuerOf (trustAsset d) :: issuerOf (sendAsset d)
   :: issuerOf (destAsset d)
   :: match path d with Some l => map issuer l | None => [] end)%list.

(** The calls of the SDK's [Asset] constructor that compiling an intent
    makes when its required members are there, in the order they are
    made. The payment asset and the two assets of a path payment are
    handed over when their code is a string other than the empty one and
    [XLM]; the trust asset always; an entry of the path unless its code is
    [XLM]. The issuer goes with the code as the intent has it. *)
Definition named (ref : option AssetRef) : list event :=
  match codeOf ref with
  | Val c => if (c =? "") || (c =? "XLM") then [] else [SdkAsset (Val c) (issuerOf ref)]
  | _ => []
  end.

Definition namedOnPath (p : AssetRef) : list event :=
  match code p with
  | Val c => if c =? "XLM" then [] else [SdkAsset (Val c) (issuer p)]
  | absent => [SdkAsset absent (issuer p)]
  end.

Definition constructorCalls (d : StellarTransactionDetails) : list event :=
  match type d with
  | Val k =>
      if k =? "payment" then named (asset d)
      else if k =? "changeTrust" then
        [SdkAsset (codeOf (trustAsset d)) (issuerOf (trustAsset d))]
      else if k =? "pathPayment" then
        (named (sendAsset d) ++ named (destAsset d)
         ++ flat_map namedOnPath (match path d with Some l => l | None => [] end))%list
      else []
  | _ => []
  end.

Definition is_asset (e : event) : bool :=
  match e with
  | SdkAsset _ _ => true
  | _ => false
  end.

(** The two messages of the handler's address checks. *)
Definition sourceFormatError (d : StellarTransactionDetails) : string :=
  "Invalid source account format: " ++ show (sourceAccount d)
  ++ ". Must be a 56-character Stellar public key starting with G.".

Definition destinationFormatError (d : StellarTransactionDetails) : string :=
  "Invalid destination account format: " ++ show (destinationAccount d)
  ++ ". Must be a 56-character Stellar public key starting with G.".

(** The [sim] entry of a form body. *)
Definition simEntry (sim : option bool) : URLSearchParams :=
  match sim with
  | Some b => [("sim", if b then "true" else "false")]
  | None => []
  end.

(** The entries of the form body for a request: each payload member that
    is supplied (a string that is not empty, a list of authorization
    entries), in the order [xdr], [func], [auth[]], and then [sim]. *)
Definition supplied (name : string) (member : option string) : URLSearchParams :=
  match member with
  | Some v => if v =? "" then [] else [(name, v)]
  | None => []
  end.

Definition suppliedFields (request : Req.LaunchtubeSubmissionRequest)
  : URLSearchParams :=
  (supplied "xdr" (Req.xdr request) ++ supplied "func" (Req.func request)
   ++ match Req.auth request with
      | Some entries => map (fun e => ("auth[]", e)) entries
      | None => []
      end
   ++ simEntry (Req.sim request))%list.

(** The one request [submitTransaction] sends for [request] once the
    service holds [cfg], and what the relay answers to it. *)
Definition submitHeaders (cfg : LaunchtubeConfig) : Headers :=
  [("Authorization", "Bearer " ++ LAUNCHTUBE_API_KEY cfg);
   ("Content-Type", "application/x-www-form-urlencoded")].

Definition submitCall (cfg : LaunchtubeConfig)
  (request : Req.LaunchtubeSubmissionRequest) : event :=
  Fetch (LAUNCHTUBE_BASE_URL cfg ++ "/") "POST" (submitHeaders cfg)
        (Some (serialize (suppliedFields request))).

Definition relayAnswer (w : World) (cfg : LaunchtubeConfig)
  (request : Req.LaunchtubeSubmissionRequest) : Res Response :=
  fetch w (LAUNCHTUBE_BASE_URL cfg ++ "/") "POST" (submitHeaders cfg)
        (Some (serialize (suppliedFields request))).

(** The request of [checkCredits], and its answer. *)
Definition infoCall (cfg : LaunchtubeConfig) : event :=
  Fetch (LAUNCHTUBE_BASE_URL cfg ++ "/info") "GET"
        [("Authorization", "Bearer " ++ LAUNCHTUBE_API_KEY cfg)] None.

Definition infoAnswer (w : World) (cfg : LaunchtubeConfig) : Res Response :=
  fetch w (LAUNCHTUBE_BASE_URL cfg ++ "/info") "GET"
        [("Authorization", "Bearer " ++ LAUNCHTUBE_API_KEY cfg)] None.

(** The object a result of [submitTransaction] is: the success literal
    has the members [status], [tx] and [details], the error literal the
    members [status] and [error]. *)
Definition asObject (res : LaunchtubeSubmissionResponse) : value :=
  VObj ([("status", VStr (status res))]
        ++ match details res with
           | Some d => [("tx", tx res); ("details", d)]
           | None => []
           end
        ++ match error res with
           | Some m => [("error", VStr m)]
           | None => []
           end)%list.

(** The text of the error [makeRequest] throws on a response that is not
    [ok]. *)
Definition apiError (r : Response) (errorText : string) : string :=
  "Launchtube API error (" ++ Str.of_Z (httpStatus r) ++ "): " ++ errorText.

(** ** A test double of the outside world *)

Module Demo.

Definition quote : string := String (ascii_of_nat 34) EmptyString.

(** [JSON.stringify] on values whose strings need no escaping. *)
Fixpoint stringify (v : value) : string :=
  match v with
  | VUndefined | VNull => "null"
  | VBool true => "true"
  | VBool false => "false"
  | VNum n => Str.of_Z n
  | VStr s => quote ++ s ++ quote
  | VArr items => "[" ++ Str.join "," (map stringify items) ++ "]"
  | VObj props =>
      "{" ++ Str.join ","
               (map (fun kv => let '(k, x) := kv in
                               quote ++ k ++ quote ++ ":" ++ stringify x) props)
          ++ "}"
  end.

(** The JSON bodies the examples use. *)
Definition bodies : list value :=
  [ VObj [("tx", VStr "abc123")];
    VObj [];
    VObj [("credits", VStr "not-a-number"); ("activated", VBool true)];
    VObj [("activated", VBool true)];
    VObj [("credits", VStr "899800"); ("activated", VBool true)] ].

(** A parser that knows the texts of [bodies] and rejects anything else. *)
Definition parse (s : string) : Res value :=
  match find (fun v => stringify v =? s) bodies with
  | Some v => Ok v
  | None => Throw "Unexpected token in JSON"
  end.

Definition amountError : string :=
  "amount argument must be of type String, represent a positive number and have at most 7 digits after the decimal".

(** The SDK double rejects what the ledger SDK is documented to reject:
    amounts that are not positive decimals, and issuers that are not
    account identifiers. *)
Definition operationVerdict (op : Operation) : option string :=
  match op with
  | Payment _ _ a => if positiveDecimal a then None else Some amountError
  | CreateAccount _ b => if positiveDecimal b then None else Some amountError
  | PathPaymentStrictReceive _ m _ _ a _ =>
      if positiveDecimal m && positiveDecimal a then None else Some amountError
  | ChangeTrust _ _ => None
  end.

Definition assetVerdict (code issuer : optional string) : option string :=
  match issuer with
  | Val i => if isValidStellarAddress (VStr i) then None else Some "Issuer is invalid"
  | _ => Some "Issuer cannot be null"
  end.

Definition memoVerdict (m : Memo) : option string :=
  match m with
  | MemoText v =>
      if (String.length v <=? 28)%nat then None
      else Some "Expects string, array or buffer, max 28 bytes"
  | _ => None
  end.

(** The world of the examples: the relay answers every request with
    [answer], the account service knows every account. *)
Definition world (answer : Res Response) : World :=
  mkWorld
    (fun _ => None)
    (fun u => Str.startsWith u "https://" || Str.startsWith u "http://")
    (fun i => match i with
              | ZRequired => "Required"
              | ZNull => "Expected string, received null"
              | ZInvalidUrl => "Invalid url"
              | ZInvalidEnum r => "Invalid enum value, received " ++ r
              end)
    parse
    (fun v k => "Cannot read properties of " ++ toString v
                ++ " (reading '" ++ k ++ "')")
    (fun _ _ _ _ => answer)
    (fun _ address => Ok (mkAccount address "1"))
    assetVerdict
    operationVerdict
    memoVerdict
    (fun _ => Ok "AAAAAgAAAAA=").

(** The runtime of the repository's test suite. *)
Definition runtime : Runtime :=
  mkRuntime (fun key =>
    if key =? "LAUNCHTUBE_API_KEY" then Some "test-api-key"
    else if key =? "LAUNCHTUBE_BASE_URL" then Some "https://testnet.launchtube.xyz"
    else if key =? "STELLAR_NETWORK" then Some "testnet"
    else None).

Definition config : LaunchtubeConfig :=
  mkConfig "test-api-key" "https://testnet.launchtube.xyz" "testnet".

Definition service : LaunchtubeService := mkService (Some config).

Definition alice : string := "GA6QDEN2WHZ3C4PVEM75ZXYGHQSZ6EAYRVRBG5HKWGIX7XFNX4EKUREI".
Definition bob : string := "GA5ZSEJYB37JRC5AVCIA5MOP4RHTM335X2KGX3IHOJAPP5RE34K4KZVN".

Definition respond (status : Z) (hdrs : Headers) (body : string) : Res Response :=
  Ok (mkResponse status hdrs (Ok body)).

(** A relay answer [200] with the credits header and the body [v]. *)
Definition accepted (v : value) : Res Response :=
  respond 200 [("content-type", "application/json");
               ("x-credits-remaining", "899800")] (stringify v).

Definition payment (amount : string) (asset : option AssetRef)
  : StellarTransactionDetails :=
  mkDetails (Some "payment") (Some alice) (Some bob) (Some amount) asset
            None None None None None None None None None None None.

Definition changeTrust (trustAsset : option AssetRef) : StellarTransactionDetails :=
  mkDetails (Some "changeTrust") (Some alice) None None None
            None None None None None None None None trustAsset None None.

Definition ofKind (kind : string) : StellarTransactionDetails :=
  mkDetails (Some kind) (Some alice) None None None
            None None None None None None None None None None None.

End Demo.

(* ================================================================== *)
(** * The rest of the relay client and of the actions *)
(* ================================================================== *)

(** ** The pattern of [claimToken] *)

Module Re.

(** The pattern of [claimToken], with the flag [i], reads: the word
    [token]; any run of double quotes and white space; a colon or an
    equals sign; another such run; and, captured, a run of one or more
    characters that are neither double quotes, apostrophes nor white
    space. Its three character classes: *)
Definition padding (c : ascii) : bool :=
  (Str.code c =? 34)%N || Str.is_space c.

Definition assignment (c : ascii) : bool :=
  (Str.code c =? 58)%N || (Str.code c =? 61)%N.

Definition tokenChar (c : ascii) : bool :=
  negb ((Str.code c =? 34)%N || (Str.code c =? 39)%N || Str.is_space c).

(** The longest prefix in a class, and what follows it. *)
Fixpoint takeWhile (cls : ascii -> bool) (s : string) : string :=
  match s with
  | EmptyString => EmptyString
  | String c r => if cls c then String c (takeWhile cls r) else EmptyString
  end.

Fixpoint dropWhile (cls : ascii -> bool) (s : string) : string :=
  match s with
  | EmptyString => EmptyString
  | String c r => if cls c then dropWhile cls r else s
  end.

Fixpoint drop (n : nat) (s : string) : string :=
  match n, s with
  | O, _ => s
  | S n', String _ r => drop n' r
  | S _, EmptyString => EmptyString
  end.

(** The word [token], in any case, at the head of [s]. *)
Definition marker (s : string) : bool := Str.startsWith (Str.lower s) "token".

(** A match of the pattern that starts at the head of [s]; the answer is
    the captured group. The classes that follow one another are disjoint
    (a padding character is neither an assignment sign nor a token
    character), so each greedy repetition takes the whole run and no
    shorter choice can succeed where the longest one fails. *)
Definition matchAt (s : string) : option string :=
  if marker s then
    match dropWhile padding (drop 5 s) with
    | String c r =>
        if assignment c then
          match takeWhile tokenChar (dropWhile padding r) with
          | EmptyString => None
          | token => Some token
          end
        else None
    | EmptyString => None
    end
  else None.

(** [html.match(pattern)]: the match at the leftmost position that has
    one, or [null]. *)
Fixpoint search (s : string) : option string :=
  match matchAt s with
  | Some token => Some token
  | None =>
      match s with
      | EmptyString => None
      | String _ r => search r
      end
  end.

End Re.

Module Gen.

Record LaunchtubeGenerateTokensRequest : Type := mk {
  ttl : Z;
  credits : Z;
  count : Z
}.

End Gen.

Section ServiceRest.

Variable w : World.

Definition formHeaders : Headers :=
  [("Content-Type", "application/x-www-form-urlencoded")].

Definition activateToken (this : LaunchtubeService) (token : string) : M unit :=
  try_catch
    (let body := append "token" token [] in
     makeRequest w this "/activate" (Some "POST") (Some (serialize body))
       formHeaders ;;;
     ret tt)
    (fun message => throw message).

Definition claimToken (this : LaunchtubeService) (code : string) : M string :=
  try_catch
    (let body := append "code" code [] in
     response <- makeRequest w this "/claim" (Some "POST") (Some (serialize body))
                   formHeaders ;;
     html <- lift (text response) ;;
     match Re.search html with
     | None => throw "Could not extract token from claim response"
     | Some token => ret token
     end)
    (fun message => throw message).

(** [new URL("/gen", base)] with the three query parameters set, as a
    string. [resolve] is the platform's resolution of a path against a
    base URL; the resolved URL carries no query of its own. *)
Variable resolve : string -> string -> Res string.

Definition genUrl (base : string) (request : Gen.LaunchtubeGenerateTokensRequest)
  : Res string :=
  match resolve "/gen" base with
  | Throw m => Throw m
  | Ok u =>
      Ok (u ++ "?" ++ serialize [("ttl", Str.of_Z (Gen.ttl request));
                                 ("credits", Str.of_Z (Gen.credits request));
                                 ("count", Str.of_Z (Gen.count request))])
  end.

(** [generateTokens]; the answer is the parsed body, which the code
    returns as [tokens]. The log line between the two reads
    [tokens.length]. *)
Definition generateTokens (this : LaunchtubeService)
  (request : Gen.LaunchtubeGenerateTokensRequest) : M value :=
  try_catch
    (match config this with
     | None => throw (typeErrorMessage w VUndefined "LAUNCHTUBE_BASE_URL")
     | Some c =>
         url <- lift (genUrl (LAUNCHTUBE_BASE_URL c) request) ;;
         response <- fetchM w url "GET"
                       [("Authorization", "Bearer " ++ LAUNCHTUBE_API_KEY c)] None ;;
         if negb (ok response) then
           throw ("Failed to generate tokens: " ++ Str.of_Z (httpStatus response))
         else
           tokens <- json w response ;;
           getProp w tokens "length" ;;;
           ret tokens
     end)
    (fun message => throw message).

End ServiceRest.

Section ActionsRest.

Variable w : World.

(** The [validate] of both actions. *)
Definition validate (runtime : Runtime) : M bool :=
  try_catch
    (validateLaunchtubeConfig w runtime ;;; ret true)
    (fun _ => ret false).

End ActionsRest.

(** [formatTransactionSummary] *)
Definition formatTransactionSummary (details : StellarTransactionDetails) : string :=
  if strictEq (type details) "payment" then
    let assetCode := orElse (codeOf (asset details)) (Some "XLM") in
    "Amount: " ++ show (amount details) ++ " " ++ show assetCode ++ newline
    ++ "To: " ++ show (destinationAccount details)
  else if strictEq (type details) "createAccount" then
    "New Account: " ++ show (destinationAccount details) ++ newline
    ++ "Starting Balance: " ++ show (startingBalance details) ++ " XLM"
  else if strictEq (type details) "changeTrust" then
    "Asset: " ++ show (codeOf (trustAsset details)) ++ newline
    ++ "Issuer: " ++ show (issuerOf (trustAsset details)) ++ newline
    ++ "Limit: " ++ show (orElse (trustLimit details) (Some "Unlimited"))
  else if strictEq (type details) "pathPayment" then
    "Send Max: " ++ show (sendMax details) ++ " "
    ++ show (orElse (codeOf (sendAsset details)) (Some "XLM")) ++ newline
    ++ "Receive: " ++ show (destAmount details) ++ " "
    ++ show (orElse (codeOf (destAsset details)) (Some "XLM")) ++ newline
    ++ "To: " ++ show (destinationAccount details)
  else "Type: " ++ show (type details).

(** ** Notions used by the further statements *)

Definition count_fetch (t : list event) : nat := List.length (filter is_fetch t).

Definition count_load (t : list event) : nat := List.length (filter is_load t).

(** The [Authorization] header a request carries. *)
Definition bearerOf (e : event) : option string :=
  match e with
  | Fetch _ _ h _ =>
      match filter (fun kv => fst kv =? "Authorization") h with
      | kv :: _ => Some (snd kv)
      | [] => None
      end
  | _ => None
  end.

Definition urlOf (e : event) : option string :=
  match e with
  | Fetch u _ _ _ => Some u
  | _ => None
  end.

(** How often a character occurs in a string. *)
Fixpoint occurrences (c : ascii) (s : string) : nat :=
  match s with
  | EmptyString => 0
  | String x r => (if Ascii.eqb x c then 1 else 0) + occurrences c r
  end.


(** The asset an intent's reference denotes, and the asset a path entry
    denotes. *)
Definition assetOf (ref : option AssetRef) : Asset :=
  if strictEq (codeOf ref) "XLM" || negb (present (codeOf ref)) then Native
  else Issued (codeOf ref) (issuerOf ref).

Definition pathAssetOf (p : AssetRef) : Asset :=
  if strictEq (code p) "XLM" then Native else Issued (code p) (issuer p).

(** The one operation an intent of a recognized kind denotes. *)
Definition operationOf (d : StellarTransactionDetails) : option Operation :=
  if strictEq (type d) "payment" then
    Some (Payment (show (destinationAccount d)) (assetOf (asset d)) (show (amount d)))
  else if strictEq (type d) "createAccount" then
    Some (CreateAccount (show (destinationAccount d)) (show (startingBalance d)))
  else if strictEq (type d) "changeTrust" then
    Some (ChangeTrust (Issued (codeOf (trustAsset d)) (issuerOf (trustAsset d)))
            (trustLimit d))
  else if strictEq (type d) "pathPayment" then
    Some (PathPaymentStrictReceive (assetOf (sendAsset d)) (show (sendMax d))
            (show (destinationAccount d)) (assetOf (destAsset d))
            (show (destAmount d))
            (match path d with Some l => map pathAssetOf l | None => [] end))
  else None.

(** The request a form-encoded POST of the client sends, and its answer. *)
Definition postCall (cfg : LaunchtubeConfig) (endpoint body : string) : event :=
  Fetch (LAUNCHTUBE_BASE_URL cfg ++ endpoint) "POST" (submitHeaders cfg) (Some body).

Definition postAnswer (w : World) (cfg : LaunchtubeConfig) (endpoint body : string)
  : Res Response :=
  fetch w (LAUNCHTUBE_BASE_URL cfg ++ endpoint) "POST" (submitHeaders cfg) (Some body).

(** What [makeRequest] makes of an answer. *)
Definition accept (answer : Res Response) : Res Response :=
  match answer with
  | Throw m => Throw m
  | Ok r =>
      if ok r then Ok r
      else match text r with
           | Throw m => Throw m
           | Ok t => Throw (apiError r t)
           end
  end.

(** The digits of a decimal numeral, most significant first. *)
Fixpoint digitsOf (d : Decimal.uint) : list N :=
  match d with
  | Decimal.Nil => []
  | Decimal.D0 r => 0%N :: digitsOf r
  | Decimal.D1 r => 1%N :: digitsOf r
  | Decimal.D2 r => 2%N :: digitsOf r
  | Decimal.D3 r => 3%N :: digitsOf r
  | Decimal.D4 r => 4%N :: digitsOf r
  | Decimal.D5 r => 5%N :: digitsOf r
  | Decimal.D6 r => 6%N :: digitsOf r
  | Decimal.D7 r => 7%N :: digitsOf r
  | Decimal.D8 r => 8%N :: digitsOf r
  | Decimal.D9 r => 9%N :: digitsOf r
  end.

(** The result [submitTransaction] makes of the relay's answer, and the
    answer of the handler for it. *)
Definition submissionOf (w : World) (answer : Res Response)
  : LaunchtubeSubmissionResponse :=
  let failure := fun m : string => mkSubmission "error" VUndefined (Some m) None in
  match answer with
  | Throw m => failure m
  | Ok r =>
      if ok r then
        match text r with
        | Throw m => failure m
        | Ok t =>
            match jsonParse w t with
            | Throw m => failure m
            | Ok result =>
                if nullish result
                then failure (typeErrorMessage w result "tx")
                else mkSubmission "success"
                       (Js.or (prop result "tx") (prop result "hash")) None
                       (Some (VObj (assign "creditsRemaining"
                                      (headers_get (headers r) "X-Credits-Remaining")
                                      (spread result))))
            end
        end
      else match text r with
           | Throw m => failure m
           | Ok t => failure (apiError r t)
           end
  end.

Definition handlerAnswer (d : StellarTransactionDetails)
  (result : LaunchtubeSubmissionResponse) : bool * SubmitContent :=
  if status result =? "success" then
    (true, Submitted (tx result) (creditsOf (details result)) (details result) (type d))
  else (false, Failed (error result)).

(** The request the handler submits for the wire transaction [x]. *)
Definition wireRequest (x : string) : Req.LaunchtubeSubmissionRequest :=
  Req.mk (Some x) None None (Some true).

(** A call that is neither to the account service nor to the relay. *)
Definition local_call (e : event) : bool := negb (is_network e).

(** The fields the compiler requires of an intent of each kind. *)
Definition requiredPresent (d : StellarTransactionDetails) : bool :=
  if strictEq (type d) "payment" then
    present (destinationAccount d) && present (amount d)
  else if strictEq (type d) "createAccount" then
    present (destinationAccount d) && present (startingBalance d)
  else if strictEq (type d) "changeTrust" then
    present (codeOf (trustAsset d)) && present (issuerOf (trustAsset d))
  else if strictEq (type d) "pathPayment" then
    present (destinationAccount d) && present (sendMax d) && present (destAmount d)
  else false.

(** The integers a JavaScript number holds exactly; the decimal numeral
    of the model is the one [toString] prints for them. *)
Definition safeInteger (z : Z) : bool := (Z.abs z <=? 9007199254740992)%Z.

(* ================================================================== *)
(** * Part II. Properties *)
(* ================================================================== *)

(** ** The address validator *)

Lemma all_in_Forall (cls : ascii -> bool) (s : string) :
  Str.all_in cls s = true <-> Forall (fun c => cls c = true) (Str.chars s).
Proof.
  induction s as [|c r IH]; simpl.
  - split; [constructor | reflexivity].
  - rewrite andb_true_iff, IH. split.
    + intros [Hc Hr]. now constructor.
    + intros H. inversion H; subst. now split.
Qed.

Lemma startsWith_G (s : string) :
  Str.startsWith s "G" = true <-> exists r, s = String "G" r.
Proof.
  destruct s as [|c r]; cbn [Str.startsWith].
  - split; [discriminate | intros [r' H]; discriminate].
  - rewrite andb_true_iff. split.
    + intros [E _]. apply Ascii.eqb_eq in E. subst c. now exists r.
    + intros [r' H]. injection H as Hc _. subst c. split; [reflexivity | now destruct r].
Qed.

Lemma isValid_string_spec (s : string) :
  isValidStellarAddress (VStr s) = true <->
  String.length s = 56 /\
  exists r, s = String "G" r /\
            Forall (fun c => in_alphabet c = true) (Str.chars r).
Proof.
  unfold isValidStellarAddress. simpl typeof. cbv beta iota.
  change ("string" =? "string") with true. rewrite andb_true_l.
  rewrite !andb_true_iff, Nat.eqb_eq, startsWith_G.
  split.
  - intros [[Hlen [r ->]] Hre]. split; [exact Hlen|]. exists r. split; [reflexivity|].
    simpl in Hre. now apply all_in_Forall.
  - intros [Hlen [r [-> Hall]]]. split; [split; [exact Hlen | now exists r]|].
    simpl. now apply all_in_Forall.
Qed.

Lemma in_alphabet_codes (c : ascii) :
  in_alphabet c = true <->
  (65 <= N_of_ascii c <= 90)%N \/ (48 <= N_of_ascii c <= 57)%N.
Proof.
  unfold in_alphabet, Str.is_upper, Str.is_digit, Str.between, Str.code.
  rewrite orb_true_iff, !andb_true_iff, !N.leb_le. tauto.
Qed.

Lemma in_alphabet_Forall (l : list ascii) :
  Forall (fun c => in_alphabet c = true) l <->
  Forall (fun c => (65 <= N_of_ascii c <= 90)%N \/ (48 <= N_of_ascii c <= 57)%N) l.
Proof.
  split; intros H; (eapply Forall_impl; [|exact H]); intros c Hc;
    now apply in_alphabet_codes.
Qed.

(** C1, as the code has it. [isValidStellarAddress] accepts a string
    exactly when it has 56 characters, starts with the account prefix [G]
    and every character after the prefix is an upper-case letter or a
    digit from [0] to [9]: the class [[A-Z0-9]] of the code, which holds
    the base32 alphabet and the digits [0], [1], [8], [9] besides. It is
    a total boolean function: on a value that is not a string, on the
    empty string, and on any string with a wrong length, a wrong prefix
    or a character that is neither an upper-case letter nor a digit it
    answers [false]. *)
Theorem isValidStellarAddress_correct :
  let letterOrDigit := fun c : ascii =>
    (65 <= N_of_ascii c <= 90)%N \/ (48 <= N_of_ascii c <= 57)%N in
  (forall s : string,
      isValidStellarAddress (VStr s) = true <->
      String.length s = 56 /\
      exists r, s = String "G" r /\ Forall letterOrDigit (list_ascii_of_string r))
  /\ (forall v : value, (forall s, v <> VStr s) -> isValidStellarAddress v = false)
  /\ isValidStellarAddress (VStr "") = false
  /\ (forall s : string,
        String.length s <> 56 \/
        (forall r, s <> String "G" r) \/
        Exists (fun c => ~ letterOrDigit c) (list_ascii_of_string s) ->
        isValidStellarAddress (VStr s) = false)
  /\ (forall c : ascii, base32 c = true -> letterOrDigit c)
  /\ (forall c : ascii,
        List.In c ["0"; "1"; "8"; "9"]%char -> letterOrDigit c /\ base32 c = false).
Proof.
  cbv zeta.
  assert (Hspec : forall s : string,
             isValidStellarAddress (VStr s) = true <->
             String.length s = 56 /\
             exists r, s = String "G" r /\
                       Forall (fun c => (65 <= N_of_ascii c <= 90)%N \/
                                        (48 <= N_of_ascii c <= 57)%N)
                              (list_ascii_of_string r)).
  { intros s. rewrite isValid_string_spec. split.
    - intros [Hl [r [-> H]]]. split; [exact Hl|]. exists r. split; [reflexivity|].
      now apply in_alphabet_Forall.
    - intros [Hl [r [-> H]]]. split; [exact Hl|]. exists r. split; [reflexivity|].
      now apply in_alphabet_Forall. }
  split; [exact Hspec|].
  split.
  { intros v Hv. destruct v; try reflexivity. now elim (Hv s). }
  split; [reflexivity|].
  split.
  { intros s H. destruct (isValidStellarAddress (VStr s)) eqn:E; [|reflexivity].
    exfalso. apply Hspec in E. destruct E as [Hlen [r [-> Hall]]].
    destruct H as [H | [H | H]].
    - contradiction.
    - now elim (H r).
    - simpl in H. apply Exists_cons in H. destruct H as [H | H].
      + apply H. left. vm_compute. split; discriminate.
      + apply Exists_exists in H. destruct H as [c [Hin Hc]].
        rewrite Forall_forall in Hall. now specialize (Hall c Hin). }
  split.
  { intros c H. unfold base32, Str.is_upper, Str.between, Str.code in H.
    rewrite orb_true_iff, !andb_true_iff, !N.leb_le in H. lia. }
  intros c [<- | [<- | [<- | [<- | []]]]]; (split; [right; vm_compute; split; discriminate | reflexivity]).
Qed.

(** C1, as the specification states it, fails: the string made of [G]
    and fifty-five zeros is accepted, although [0] is not a character of
    the base32 alphabet. *)
Lemma zeros_are_accepted :
  let r := "0000000000000000000000000000000000000000000000000000000" in
  String.length (String "G" r) = 56 /\
  Exists (fun c => base32 c = false) (list_ascii_of_string r) /\
  isValidStellarAddress (VStr (String "G" r)) = true.
Proof.
  cbv zeta. split; [reflexivity|]. split; [|reflexivity].
  apply Exists_cons_hd. reflexivity.
Qed.

(** ** The monad of asynchronous calls *)

Lemma bind_Ok {A B : Type} (t : list event) (a : A) (k : A -> M B) :
  bind (t, Ok a) k = ((t ++ trace (k a))%list, outcome (k a)).
Proof. unfold bind, trace, outcome. now destruct (k a). Qed.

Lemma bind_ret {A B : Type} (a : A) (k : A -> M B) : bind (ret a) k = k a.
Proof. unfold ret. rewrite bind_Ok. simpl. unfold trace, outcome. now destruct (k a). Qed.

Lemma trace_bind {A B : Type} (c : M A) (k : A -> M B) :
  trace (bind c k) =
  (trace c ++ match outcome c with Ok a => trace (k a) | Throw _ => [] end)%list.
Proof.
  destruct c as [t [a|m]].
  - now rewrite bind_Ok.
  - simpl. now rewrite app_nil_r.
Qed.

Lemma outcome_bind {A B : Type} (c : M A) (k : A -> M B) :
  outcome (bind c k) =
  match outcome c with Ok a => outcome (k a) | Throw m => Throw m end.
Proof.
  destruct c as [t [a|m]].
  - now rewrite bind_Ok.
  - reflexivity.
Qed.

Lemma M_eta {A : Type} (c : M A) : c = (trace c, outcome c).
Proof. now destruct c. Qed.

Lemma loadAccount_eq (w : World) (u a : string) :
  loadAccount w u a = ([LoadAccount u a], horizonLoadAccount w u a).
Proof. reflexivity. Qed.

Lemma fetchM_eq (w : World) (u m : string) (h : Headers) (b : option string) :
  fetchM w u m h b = ([Fetch u m h b], fetch w u m h b).
Proof. reflexivity. Qed.

Lemma newAsset_eq (w : World) (c i : optional string) :
  newAsset w c i = ([SdkAsset c i], checked (sdkAsset w c i) (Issued c i)).
Proof. reflexivity. Qed.

Lemma mkOperation_eq (w : World) (op : Operation) :
  mkOperation w op = ([SdkOperation op], checked (sdkOperation w op) op).
Proof. reflexivity. Qed.

Lemma mkMemo_eq (w : World) (m : Memo) :
  mkMemo w m = ([SdkMemo m], checked (sdkMemo w m) m).
Proof. reflexivity. Qed.

Lemma buildXDR_eq (w : World) (b : TransactionBuilder) :
  buildXDR w b = ([SdkBuild b], sdkBuild w b).
Proof. reflexivity. Qed.

(** ** Which calls a computation can make *)

Lemma only_ret {A : Type} (P : event -> bool) (a : A) : only P (ret a).
Proof. constructor. Qed.

Lemma only_throw {A : Type} (P : event -> bool) (m : string) : only P (@throw A m).
Proof. constructor. Qed.

Lemma only_bind {A B : Type} (P : event -> bool) (c : M A) (k : A -> M B) :
  only P c -> (forall a, only P (k a)) -> only P (bind c k).
Proof.
  destruct c as [t [a|m]]; intros Hc Hk.
  - rewrite bind_Ok. unfold only. simpl. apply Forall_app. split; [exact Hc | apply Hk].
  - exact Hc.
Qed.

Lemma only_single {A : Type} (P : event -> bool) (e : event) (r : Res A) :
  P e = true -> only P ([e], r).
Proof. intros H. constructor; [exact H | constructor]. Qed.

Lemma only_mapM {A B : Type} (P : event -> bool) (f : A -> M B) (l : list A) :
  (forall a, only P (f a)) -> only P (mapM f l).
Proof.
  intros Hf. induction l as [|x r IH]; simpl.
  - apply only_ret.
  - apply only_bind; [apply Hf|]. intros y. apply only_bind; [exact IH|].
    intros ys. apply only_ret.
Qed.

Lemma only_filter_nil {A : Type} (P : event -> bool) (c : M A) :
  only (fun e => negb (P e)) c -> filter P (trace c) = [].
Proof.
  unfold only. induction (trace c) as [|e t IH]; intros H; [reflexivity|].
  inversion H as [|? ? He Ht]; subst. simpl.
  apply negb_true_iff in He. rewrite He. now apply IH.
Qed.

Ltac only_step :=
  first
    [ apply only_ret
    | apply only_throw
    | rewrite newAsset_eq; apply only_single; reflexivity
    | rewrite mkOperation_eq; apply only_single; reflexivity
    | rewrite mkMemo_eq; apply only_single; reflexivity
    | rewrite buildXDR_eq; apply only_single; reflexivity
    | rewrite loadAccount_eq; apply only_single; reflexivity
    | apply only_bind; [| intros ?]
    | match goal with
      | |- only _ (if ?b then _ else _) => destruct b
      | |- only _ (match ?x with _ => _ end) => destruct x
      end ].

Lemma resolveAsset_calls (P : event -> bool) (w : World) (ref : option AssetRef) :
  (forall c i, P (SdkAsset c i) = true) -> only P (resolveAsset w ref).
Proof.
  intros HP. unfold resolveAsset.
  destruct (strictEq (codeOf ref) "XLM" || negb (present (codeOf ref))).
  - apply only_ret.
  - rewrite newAsset_eq. apply only_single. apply HP.
Qed.

Lemma resolvePathAsset_calls (P : event -> bool) (w : World) (p : AssetRef) :
  (forall c i, P (SdkAsset c i) = true) -> only P (resolvePathAsset w p).
Proof.
  intros HP. unfold resolvePathAsset. destruct (strictEq (code p) "XLM").
  - apply only_ret.
  - rewrite newAsset_eq. apply only_single. apply HP.
Qed.

(** ** The compiler's switch *)

Lemma strictEq_eq (f : optional string) (l : string) :
  strictEq f l = true <-> f = Val l.
Proof.
  destruct f as [| |s]; simpl.
  - split; discriminate.
  - split; discriminate.
  - rewrite String.eqb_eq. split; congruence.
Qed.

Lemma ofOption_Val {A : Type} (o : option A) (a : A) :
  ofOption o = Val a <-> o = Some a.
Proof. destruct o; simpl; split; congruence. Qed.

Lemma strictEq_setting (o : option string) (l : string) :
  strictEq o l = true <-> o = Some l.
Proof. now rewrite strictEq_eq, ofOption_Val. Qed.

Lemma selectOperation_unrecognized (w : World) (d : StellarTransactionDetails)
  (b : TransactionBuilder) :
  recognized (type d) = false ->
  selectOperation w d b = throw ("Unsupported transaction type: " ++ show (type d)).
Proof.
  unfold recognized. rewrite !orb_false_iff. intros [[[H1 H2] H3] H4].
  unfold selectOperation. now rewrite H1, H2, H3, H4.
Qed.

Lemma selectOperation_changeTrust_no_issuer (w : World)
  (d : StellarTransactionDetails) (b : TransactionBuilder) :
  strictEq (type d) "changeTrust" = true ->
  present (issuerOf (trustAsset d)) = false ->
  selectOperation w d b =
  throw "Change trust requires trustAsset with code and issuer".
Proof.
  intros Hk Hi. apply strictEq_eq in Hk. unfold selectOperation.
  rewrite Hk, Hi. simpl. now rewrite orb_true_r.
Qed.

(** What [buildTransactionXDR] does when the switch throws [msg]. *)
Lemma build_when_switch_throws (w : World) (rt : Runtime)
  (d : StellarTransactionDetails) (msg : string) :
  (forall b, selectOperation w d b = throw msg) ->
  buildTransactionXDR w rt d =
  if negb (present (sourceAccount d)) then
    throw "Source account is required for transaction building"
  else
    ([LoadAccount (serverUrlOf rt) (show (sourceAccount d))],
     match horizonLoadAccount w (serverUrlOf rt) (show (sourceAccount d)) with
     | Ok _ => Throw msg
     | Throw m => Throw m
     end).
Proof.
  intros Hsel. unfold buildTransactionXDR. cbv zeta.
  destruct (negb (present (sourceAccount d))); [reflexivity|].
  rewrite loadAccount_eq.
  destruct (horizonLoadAccount w (serverUrlOf rt) (show (sourceAccount d))) as [acc|m].
  - rewrite bind_Ok, Hsel. reflexivity.
  - reflexivity.
Qed.

Lemma bind_Ok_inv {A B : Type} (c : M A) (k : A -> M B) (y : B) :
  outcome (bind c k) = Ok y ->
  exists a, outcome c = Ok a /\ outcome (k a) = Ok y.
Proof.
  rewrite outcome_bind. destruct (outcome c) as [a|m]; [|discriminate].
  intros H. now exists a.
Qed.

Ltac bind_inv H :=
  let a := fresh "a" in
  let Ha := fresh "Ha" in
  apply bind_Ok_inv in H; destruct H as [a [Ha H]].

Lemma selectOperation_adds_one (w : World) (d : StellarTransactionDetails)
  (b b' : TransactionBuilder) :
  outcome (selectOperation w d b) = Ok b' ->
  exists op, b' = addOperation op b.
Proof.
  unfold selectOperation.
  repeat match goal with
         | |- context [if ?c then _ else _] => destruct c
         end;
    try discriminate; intros H; repeat bind_inv H;
    injection H as <-; eexists; reflexivity.
Qed.

Lemma attachMemo_keeps_operations (w : World) (d : StellarTransactionDetails)
  (b b' : TransactionBuilder) :
  outcome (attachMemo w d b) = Ok b' -> operations b' = operations b.
Proof.
  unfold attachMemo.
  repeat match goal with
         | |- context [if ?c then _ else _] => destruct c
         end;
    intros H; repeat bind_inv H; injection H as <-; reflexivity.
Qed.

(** A transaction that is built carries exactly one operation and the
    timeout of thirty seconds. *)
Lemma built_with_one_operation (w : World) (rt : Runtime)
  (d : StellarTransactionDetails) (xdr : string) :
  outcome (buildTransactionXDR w rt d) = Ok xdr ->
  exists b op,
    In (SdkBuild b) (trace (buildTransactionXDR w rt d)) /\
    operations b = [op] /\ timeout b = Some 30%Z.
Proof.
  unfold buildTransactionXDR. cbv zeta.
  destruct (negb (present (sourceAccount d))); [discriminate|].
  rewrite loadAccount_eq.
  destruct (horizonLoadAccount w _ _) as [acc|m]; [|discriminate].
  rewrite bind_Ok. cbn [trace outcome fst snd].
  set (b0 := mkBuilder acc (passphraseOf rt) [] [] None).
  destruct (selectOperation w d b0) as [t1 [b1|m1]] eqn:E1; [|discriminate].
  rewrite bind_Ok. cbn [trace outcome fst snd].
  destruct (attachMemo w d b1) as [t2 [b2|m2]] eqn:E2; [|discriminate].
  rewrite bind_Ok, buildXDR_eq. cbn [trace outcome fst snd]. intros _.
  destruct (selectOperation_adds_one w d b0 b1) as [op Hop];
    [now rewrite E1|].
  pose proof (attachMemo_keeps_operations w d b1 b2) as Hk.
  rewrite E2 in Hk. specialize (Hk eq_refl).
  exists (setTimeout 30 b2), op. split; [|split; [|reflexivity]].
  - apply in_cons, in_or_app. right. apply in_or_app. right. now left.
  - cbn [setTimeout operations]. rewrite Hk, Hop. reflexivity.
Qed.

(** C9, as the code has it. An intent whose kind has no case in the
    compiler's switch never compiles, and nothing is built for it: no
    call reaches the SDK. The kind is looked at after the source account:
    without a source account the error is [Source account is required for
    transaction building]; with one, the account is loaded first, a
    failed load raises its own error, and only then the switch raises
    [Unsupported transaction type:] followed by the kind as it prints
    ([null] and [undefined] included). The errors are messages, there are
    no error kinds. There is no silent no-op either way: whenever a
    transaction is built, the kind is a recognized one and the
    transaction carries exactly one operation. *)
Theorem unknown_kind_is_compile_error (w : World) (rt : Runtime)
  (d : StellarTransactionDetails) :
  let run := buildTransactionXDR w rt d in
  let load := LoadAccount (serverUrlOf rt) (show (sourceAccount d)) in
  ((forall k, In k ["payment"; "createAccount"; "changeTrust"; "pathPayment"] ->
              type d <> Val k) ->
   (present (sourceAccount d) = false ->
    run = ([], Throw "Source account is required for transaction building")) /\
   (present (sourceAccount d) = true ->
    (forall m,
        horizonLoadAccount w (serverUrlOf rt) (show (sourceAccount d)) = Throw m ->
        run = ([load], Throw m)) /\
    (forall acc,
        horizonLoadAccount w (serverUrlOf rt) (show (sourceAccount d)) = Ok acc ->
        run = ([load], Throw ("Unsupported transaction type: "
                              ++ match type d with
                                 | Val k => k
                                 | Null => "null"
                                 | Undefined => "undefined"
                                 end))))) /\
  (forall xdr,
      outcome run = Ok xdr ->
      (exists k, In k ["payment"; "createAccount"; "changeTrust"; "pathPayment"] /\
                 type d = Val k) /\
      exists b op, In (SdkBuild b) (trace run) /\ operations b = [op]).
Proof.
  intros run load. subst run load.
  assert (Hrec : recognized (type d) = true <->
                 exists k, In k ["payment"; "createAccount"; "changeTrust"; "pathPayment"]
                           /\ type d = Val k).
  { unfold recognized. rewrite !orb_true_iff, !strictEq_eq. split.
    - intros [[[H | H] | H] | H]; eexists; (split; [|exact H]); simpl; tauto.
    - intros [k [[<- | [<- | [<- | [<- | []]]]] ->]]; tauto. }
  assert (Hun : (forall k, In k ["payment"; "createAccount"; "changeTrust"; "pathPayment"]
                           -> type d <> Val k) ->
                recognized (type d) = false).
  { intros H. destruct (recognized (type d)) eqn:E; [|reflexivity].
    destruct (proj1 Hrec eq_refl) as [k [Hin Hk]]. now elim (H k Hin). }
  split.
  - intros Hk. apply Hun in Hk.
    rewrite (build_when_switch_throws w rt d _
               (fun b => selectOperation_unrecognized w d b Hk)).
    split.
    + intros ->. reflexivity.
    + intros ->. cbn [negb]. split.
      * intros m ->. reflexivity.
      * intros acc ->. now destruct (type d).
  - intros xdr Hx. split.
    + apply Hrec. destruct (recognized (type d)) eqn:E; [reflexivity|].
      rewrite (build_when_switch_throws w rt d _
                 (fun b => selectOperation_unrecognized w d b E)) in Hx.
      destruct (negb (present (sourceAccount d))); [discriminate|].
      cbn [outcome snd] in Hx. destruct (horizonLoadAccount w _ _); discriminate.
    + destruct (built_with_one_operation w rt d xdr Hx) as [b [op [Hin [Hop _]]]].
      now exists b, op.
Qed.

Lemma unknown_kind_witness :
  buildTransactionXDR (Demo.world (Demo.accepted (VObj []))) Demo.runtime
    (Demo.ofKind "manageData") =
  ([LoadAccount "https://horizon-testnet.stellar.org" Demo.alice],
   Throw "Unsupported transaction type: manageData").
Proof.
  refine (proj2 (proj2 (proj1
    (unknown_kind_is_compile_error (Demo.world (Demo.accepted (VObj [])))
       Demo.runtime (Demo.ofKind "manageData")) _) eq_refl)
    (mkAccount Demo.alice "1") eq_refl).
  intros k [<- | [<- | [<- | [<- | []]]]]; discriminate.
Defined.

(** C9, as the specification states it, fails: for an intent of an
    unknown kind that names no source account, the error raised is the
    one about the source account, and the kind is not looked at; with a
    source account, the account has been loaded when the kind is
    refused. *)
Lemma unknown_kind_is_checked_last :
  let w := Demo.world (Demo.accepted (VObj [])) in
  let d := mkDetails (Val "manageData") Undefined Undefined Undefined None
             Undefined Undefined Undefined None Undefined None Undefined None None
             Undefined Undefined in
  recognized (type d) = false /\
  buildTransactionXDR w Demo.runtime d =
  ([], Throw "Source account is required for transaction building") /\
  buildTransactionXDR w Demo.runtime (Demo.ofKind "manageData") =
  ([LoadAccount "https://horizon-testnet.stellar.org" Demo.alice],
   Throw "Unsupported transaction type: manageData") /\
  buildTransactionXDR w Demo.runtime
    (mkDetails Null (Val Demo.alice) Null Null None Null Null Null None Null None
       Null None None Null Null) =
  ([LoadAccount "https://horizon-testnet.stellar.org" Demo.alice],
   Throw "Unsupported transaction type: null").
Proof. cbv zeta. repeat split. Qed.

(** C3, as the code has it. A [changeTrust] intent whose [trustAsset]
    lacks an issuer never compiles, and no call reaches the SDK; but the
    missing-field check sits after the account load: with a source account
    that is present and loads, the load is made first and the error
    [Change trust requires trustAsset with code and issuer] follows it. *)
Theorem changeTrust_missing_issuer (w : World) (rt : Runtime)
  (d : StellarTransactionDetails) :
  strictEq (type d) "changeTrust" = true ->
  present (issuerOf (trustAsset d)) = false ->
  let run := buildTransactionXDR w rt d in
  (exists m, outcome run = Throw m) /\
  only is_load run /\
  (present (sourceAccount d) = true ->
   forall acc,
     horizonLoadAccount w (serverUrlOf rt) (show (sourceAccount d)) = Ok acc ->
     run = ([LoadAccount (serverUrlOf rt) (show (sourceAccount d))],
            Throw "Change trust requires trustAsset with code and issuer")).
Proof.
  intros Hk Hi run. subst run.
  rewrite (build_when_switch_throws w rt d _
             (fun b => selectOperation_changeTrust_no_issuer w d b Hk Hi)).
  destruct (present (sourceAccount d)); simpl.
  - destruct (horizonLoadAccount w (serverUrlOf rt) (show (sourceAccount d)))
      as [acc|m]; (split; [eexists; reflexivity|]);
      (split; [apply only_single; reflexivity|]).
    + intros _ acc' _. reflexivity.
    + intros _ acc' H. discriminate.
  - split; [eexists; reflexivity|]. split; [apply only_throw|]. discriminate.
Qed.

Lemma changeTrust_missing_issuer_witness :
  buildTransactionXDR (Demo.world (Demo.accepted (VObj []))) Demo.runtime
    (Demo.changeTrust (Some (mkAssetRef (Some "USDC") None))) =
  ([LoadAccount "https://horizon-testnet.stellar.org" Demo.alice],
   Throw "Change trust requires trustAsset with code and issuer").
Proof.
  exact (proj2 (proj2
    (changeTrust_missing_issuer (Demo.world (Demo.accepted (VObj [])))
       Demo.runtime (Demo.changeTrust (Some (mkAssetRef (Some "USDC") None)))
       eq_refl eq_refl))
    eq_refl (mkAccount Demo.alice "1") eq_refl).
Defined.

(** C3, as the specification states it, fails: on a [changeTrust] intent
    without issuer the compiler has already loaded the source account when
    it raises the missing-field error. *)
Lemma changeTrust_load_precedes_check :
  let d := Demo.changeTrust (Some (mkAssetRef (Some "USDC") None)) in
  let run := buildTransactionXDR (Demo.world (Demo.accepted (VObj []))) Demo.runtime d in
  strictEq (type d) "changeTrust" = true /\
  issuerOf (trustAsset d) = None /\
  outcome run = Throw "Change trust requires trustAsset with code and issuer" /\
  ~ (filter is_load (trace run) = []).
Proof.
  cbv zeta. repeat split. vm_compute. discriminate.
Qed.

(** ** The submission handler *)

Lemma validateAddresses_eq (d : StellarTransactionDetails) :
  validateAddresses d =
  ([], if absentOrValid (sourceAccount d) then
         if absentOrValid (destinationAccount d) then Ok tt
         else Throw (destinationFormatError d)
       else Throw (sourceFormatError d)).
Proof.
  unfold validateAddresses, absentOrValid, sourceFormatError, destinationFormatError.
  destruct (present (sourceAccount d)); simpl.
  - destruct (isValidStellarAddress (VStr (show (sourceAccount d)))); simpl;
      [|reflexivity].
    destruct (present (destinationAccount d)); simpl; [|reflexivity].
    now destruct (isValidStellarAddress (VStr (show (destinationAccount d)))).
  - destruct (present (destinationAccount d)); simpl; [|reflexivity].
    now destruct (isValidStellarAddress (VStr (show (destinationAccount d)))).
Qed.

Lemma validateLaunchtubeConfig_silent (w : World) (rt : Runtime) :
  trace (validateLaunchtubeConfig w rt) = [].
Proof.
  unfold validateLaunchtubeConfig. cbv zeta.
  now destruct (schemaIssues w _ _ _).
Qed.

(** When the addresses do not pass, the handler does nothing else. *)
Lemma submitHandler_rejects_addresses (w : World) (rt : Runtime)
  (d : StellarTransactionDetails) :
  absentOrValid (sourceAccount d) && absentOrValid (destinationAccount d) = false ->
  submitHandler w rt d =
  ([], Ok (false,
           Failed (Some (if absentOrValid (sourceAccount d)
                         then destinationFormatError d
                         else sourceFormatError d)))).
Proof.
  intros H. unfold submitHandler. rewrite validateAddresses_eq.
  destruct (absentOrValid (sourceAccount d)); simpl in H.
  - rewrite H. reflexivity.
  - reflexivity.
Qed.

(** ** Amounts *)

Lemma build_payment_loaded (w : World) (rt : Runtime)
  (d : StellarTransactionDetails) (acc : Account) :
  present (sourceAccount d) = true ->
  horizonLoadAccount w (serverUrlOf rt) (show (sourceAccount d)) = Ok acc ->
  buildTransactionXDR w rt d =
  bind ([LoadAccount (serverUrlOf rt) (show (sourceAccount d))], Ok acc)
    (fun sourceAccount =>
       bind (selectOperation w d
               (mkBuilder sourceAccount (passphraseOf rt) [] [] None))
         (fun b => bind (attachMemo w d b)
                     (fun b' => buildXDR w (setTimeout 30 b')))).
Proof.
  intros Hs Hl. unfold buildTransactionXDR. cbv zeta.
  rewrite Hs. simpl negb. cbv iota. now rewrite loadAccount_eq, Hl.
Qed.

(** C2. The compiler never examines the value of a payment's amount.
    At the payment of the amount [abc] from one well-formed account to
    another, whatever the outside world is: the source account is loaded
    first; once it is loaded, the amount goes as it is to the SDK's
    payment constructor, and the compilation fails exactly when that
    constructor refuses, after the load; when the constructor returns,
    the transaction with the amount [abc] is built. The rejection the
    specification asks for, before any network call, is made nowhere in
    the compiler. *)
Theorem payment_amount_not_validated (w : World) (rt : Runtime) :
  let d := Demo.payment "abc" None in
  let load := LoadAccount (serverUrlOf rt) Demo.alice in
  let op := Payment Demo.bob Native "abc" in
  strictEq (type d) "payment" = true /\
  invalidAmount (amount d) = true /\
  (exists rest, trace (buildTransactionXDR w rt d) = load :: rest) /\
  (forall acc,
      horizonLoadAccount w (serverUrlOf rt) Demo.alice = Ok acc ->
      (forall m,
          sdkOperation w op = Some m ->
          buildTransactionXDR w rt d = ([load; SdkOperation op], Throw m)) /\
      (sdkOperation w op = None ->
       buildTransactionXDR w rt d =
       ([load; SdkOperation op;
         SdkBuild (mkBuilder acc (passphraseOf rt) [op] [] (Some 30%Z))],
        sdkBuild w (mkBuilder acc (passphraseOf rt) [op] [] (Some 30%Z))))).
Proof.
  cbv zeta. split; [reflexivity|]. split; [reflexivity|]. split.
  - unfold buildTransactionXDR. cbv zeta.
    change (negb (present (sourceAccount (Demo.payment "abc" None)))) with false.
    cbv iota. rewrite trace_bind, loadAccount_eq. eexists. reflexivity.
  - intros acc Hl.
    rewrite (build_payment_loaded w rt (Demo.payment "abc" None) acc eq_refl Hl).
    rewrite bind_Ok. unfold selectOperation.
    cbn [Demo.payment type destinationAccount amount asset strictEq present
         ofOption String.eqb Ascii.eqb Bool.eqb negb orb].
    unfold resolveAsset. cbn [codeOf strictEq present negb orb].
    rewrite bind_ret, mkOperation_eq. cbn [show ofOption].
    split.
    + intros m ->. reflexivity.
    + intros ->. reflexivity.
Qed.

(** ** Assets *)

Lemma checked_Ok {A : Type} (v : option string) (a b : A) :
  checked v a = Ok b -> b = a.
Proof. destruct v; [discriminate|]. intros H. now injection H. Qed.

Lemma newAsset_Ok (w : World) (c i : optional string) (a : Asset) :
  outcome (newAsset w c i) = Ok a -> a = Issued c i.
Proof. rewrite newAsset_eq. apply checked_Ok. Qed.

Lemma mkOperation_Ok (w : World) (op op' : Operation) :
  outcome (mkOperation w op) = Ok op' -> op' = op.
Proof. rewrite mkOperation_eq. apply checked_Ok. Qed.


Lemma resolveAsset_Ok (w : World) (ref : option AssetRef) (a : Asset) :
  outcome (resolveAsset w ref) = Ok a -> a = assetOf ref.
Proof.
  unfold resolveAsset, assetOf.
  destruct (strictEq (codeOf ref) "XLM" || negb (present (codeOf ref))).
  - intros H. now injection H.
  - apply newAsset_Ok.
Qed.

Lemma resolvePathAsset_Ok (w : World) (p : AssetRef) (a : Asset) :
  outcome (resolvePathAsset w p) = Ok a -> a = pathAssetOf p.
Proof.
  unfold resolvePathAsset, pathAssetOf. destruct (strictEq (code p) "XLM").
  - intros H. now injection H.
  - apply newAsset_Ok.
Qed.

Lemma mapM_path_Ok (w : World) (l : list AssetRef) (l' : list Asset) :
  outcome (mapM (resolvePathAsset w) l) = Ok l' -> l' = map pathAssetOf l.
Proof.
  revert l'. induction l as [|p r IH]; intros l' H.
  - now injection H.
  - cbn [mapM] in H. bind_inv H. bind_inv H. injection H as <-.
    apply resolvePathAsset_Ok in Ha. apply IH in Ha0. now subst.
Qed.

Lemma selectOperation_Ok (w : World) (d : StellarTransactionDetails)
  (b b' : TransactionBuilder) :
  outcome (selectOperation w d b) = Ok b' ->
  exists op, operationOf d = Some op /\ b' = addOperation op b.
Proof.
  unfold selectOperation, operationOf.
  destruct (strictEq (type d) "payment").
  { destruct (_ || _); [discriminate|]. intros H. bind_inv H. bind_inv H.
    injection H as <-. apply resolveAsset_Ok in Ha. apply mkOperation_Ok in Ha0.
    subst. eexists. split; reflexivity. }
  destruct (strictEq (type d) "createAccount").
  { destruct (_ || _); [discriminate|]. intros H. bind_inv H.
    injection H as <-. apply mkOperation_Ok in Ha. subst.
    eexists. split; reflexivity. }
  destruct (strictEq (type d) "changeTrust").
  { destruct (_ || _); [discriminate|]. intros H. bind_inv H. bind_inv H.
    injection H as <-. apply newAsset_Ok in Ha. apply mkOperation_Ok in Ha0.
    subst. eexists. split; reflexivity. }
  destruct (strictEq (type d) "pathPayment"); [|discriminate].
  destruct (_ || _); [discriminate|]. intros H.
  bind_inv H. bind_inv H. bind_inv H. bind_inv H. injection H as <-.
  apply resolveAsset_Ok in Ha, Ha0. apply mkOperation_Ok in Ha2. subst.
  assert (Hp : a1 = match path d with Some l => map pathAssetOf l | None => [] end).
  { destruct (path d) as [l|]; [now apply (mapM_path_Ok w)|]. now injection Ha1. }
  subst a1. eexists. split; reflexivity.
Qed.


Lemma assets_bind {X Y : Type} (c : M X) (k : X -> M Y) :
  filter is_asset (trace (bind c k)) =
  (filter is_asset (trace c)
   ++ match outcome c with
      | Ok a => filter is_asset (trace (k a))
      | Throw _ => []
      end)%list.
Proof.
  rewrite trace_bind, filter_app. now destruct (outcome c).
Qed.

Lemma prefix_app {X : Type} (l1 l2 t : list X) :
  (exists n, t = firstn n l2) -> exists n, (l1 ++ t)%list = firstn n (l1 ++ l2)%list.
Proof.
  intros [n ->]. exists (List.length l1 + n). now rewrite firstn_app_2.
Qed.

Lemma prefix_all {X : Type} (l : list X) : exists n, l = firstn n l.
Proof. exists (List.length l). now rewrite firstn_all. Qed.

Lemma resolveAsset_cases (w : World) (ref : option AssetRef) :
  (named ref = [] /\ resolveAsset w ref = ret Native) \/
  (named ref = [SdkAsset (codeOf ref) (issuerOf ref)] /\
   resolveAsset w ref =
   ([SdkAsset (codeOf ref) (issuerOf ref)],
    checked (sdkAsset w (codeOf ref) (issuerOf ref))
            (Issued (codeOf ref) (issuerOf ref)))).
Proof.
  unfold named, resolveAsset.
  destruct (codeOf ref) as [| |c]; [left; split; reflexivity ..|].
  cbn [strictEq present]. rewrite negb_involutive.
  destruct (c =? ""), (c =? "XLM"); cbn [orb]; try (left; split; reflexivity).
  right. split; [reflexivity | apply newAsset_eq].
Qed.

Lemma resolvePathAsset_cases (w : World) (p : AssetRef) :
  (namedOnPath p = [] /\ resolvePathAsset w p = ret Native) \/
  (namedOnPath p = [SdkAsset (code p) (issuer p)] /\
   resolvePathAsset w p =
   ([SdkAsset (code p) (issuer p)],
    checked (sdkAsset w (code p) (issuer p)) (Issued (code p) (issuer p)))).
Proof.
  unfold namedOnPath, resolvePathAsset.
  destruct (code p) as [| |c]; [right; split; [reflexivity | apply newAsset_eq] ..|].
  cbn [strictEq]. destruct (c =? "XLM"); [left; split; reflexivity|].
  right. split; [reflexivity | apply newAsset_eq].
Qed.

Lemma path_calls (w : World) (l : list AssetRef) :
  filter is_asset (trace (mapM (resolvePathAsset w) l)) =
  trace (mapM (resolvePathAsset w) l) /\
  (exists n, trace (mapM (resolvePathAsset w) l) = firstn n (flat_map namedOnPath l)) /\
  ((exists l', outcome (mapM (resolvePathAsset w) l) = Ok l') ->
   trace (mapM (resolvePathAsset w) l) = flat_map namedOnPath l) /\
  ((forall c i, In (SdkAsset c i) (flat_map namedOnPath l) -> sdkAsset w c i = None) ->
   exists l', outcome (mapM (resolvePathAsset w) l) = Ok l').
Proof.
  induction l as [|p r [IH0 [IH1 [IH2 IH3]]]].
  - cbn. repeat split; try reflexivity; [now exists 0 | intros _; now eexists].
  - cbn [mapM flat_map].
    destruct (resolvePathAsset_cases w p) as [[Hn ->] | [Hn ->]]; rewrite Hn.
    + rewrite bind_ret. cbn [app].
      destruct (mapM (resolvePathAsset w) r) as [t [l'|m]] eqn:E;
        cbn [trace outcome fst snd] in *.
      * rewrite bind_Ok. cbn [trace outcome ret fst snd]. rewrite app_nil_r.
        repeat split; try assumption.
        -- intros _. apply IH2. now eexists.
        -- intros _. now eexists.
      * cbn [bind trace outcome fst snd]. repeat split; assumption.
    + destruct (sdkAsset w (code p) (issuer p)) as [m|] eqn:Ev; cbn [checked].
      * cbn [bind trace outcome fst snd filter is_asset app].
        repeat split.
        -- exists 1. reflexivity.
        -- intros [l' H]. discriminate.
        -- intros H. rewrite (H (code p) (issuer p)) in Ev; [discriminate|]. now left.
      * rewrite bind_Ok.
        destruct (mapM (resolvePathAsset w) r) as [t [l'|m]] eqn:E;
          cbn [trace outcome fst snd] in *.
        -- rewrite bind_Ok. cbn [trace outcome ret fst snd filter is_asset app].
           rewrite ?app_nil_r, IH0. repeat split.
           ++ destruct IH1 as [n ->]. now exists (S n).
           ++ intros _. f_equal. apply IH2. now eexists.
           ++ intros _. now eexists.
        -- cbn [bind trace outcome fst snd filter is_asset app]. rewrite ?app_nil_r, IH0.
           repeat split.
           ++ destruct IH1 as [n ->]. now exists (S n).
           ++ intros [l' H]. discriminate.
           ++ intros H. destruct IH3 as [l' Hl']; [|discriminate].
              intros c i Hin. apply H. now right.
Qed.

Lemma assets_operation {X : Type} (w : World) (op : Operation) (f : Operation -> X) :
  filter is_asset (trace (bind (mkOperation w op) (fun o => ret (f o)))) = [].
Proof.
  rewrite mkOperation_eq. now destruct (sdkOperation w op).
Qed.

Lemma assets_resolve (w : World) (ref : option AssetRef) :
  filter is_asset (trace (resolveAsset w ref)) = named ref.
Proof.
  destruct (resolveAsset_cases w ref) as [[Hn ->] | [Hn ->]]; now rewrite Hn.
Qed.

Lemma resolve_accepted (w : World) (ref : option AssetRef) :
  (forall c i, In (SdkAsset c i) (named ref) -> sdkAsset w c i = None) ->
  exists a, outcome (resolveAsset w ref) = Ok a.
Proof.
  intros H. destruct (resolveAsset_cases w ref) as [[Hn ->] | [Hn ->]].
  - now eexists.
  - rewrite Hn in H. rewrite (H _ _ (or_introl eq_refl)). now eexists.
Qed.

Lemma constructorCalls_eq (d : StellarTransactionDetails) :
  constructorCalls d =
  if strictEq (type d) "payment" then named (asset d)
  else if strictEq (type d) "createAccount" then []
  else if strictEq (type d) "changeTrust" then
    [SdkAsset (codeOf (trustAsset d)) (issuerOf (trustAsset d))]
  else if strictEq (type d) "pathPayment" then
    (named (sendAsset d) ++ named (destAsset d)
     ++ flat_map namedOnPath (match path d with Some l => l | None => [] end))%list
  else [].
Proof.
  unfold constructorCalls. destruct (type d) as [| |k]; try reflexivity.
  cbn [strictEq]. destruct (k =? "payment"); [reflexivity|].
  destruct (k =? "createAccount") eqn:E; [|reflexivity].
  apply String.eqb_eq in E. now subst k.
Qed.

Lemma select_asset_calls (w : World) (d : StellarTransactionDetails)
  (b : TransactionBuilder) :
  (exists n, filter is_asset (trace (selectOperation w d b)) =
             firstn n (constructorCalls d)) /\
  ((exists b', outcome (selectOperation w d b) = Ok b') ->
   filter is_asset (trace (selectOperation w d b)) = constructorCalls d) /\
  (requiredPresent d = true ->
   (forall c i, In (SdkAsset c i) (constructorCalls d) -> sdkAsset w c i = None) ->
   filter is_asset (trace (selectOperation w d b)) = constructorCalls d).
Proof.
  rewrite constructorCalls_eq. unfold selectOperation, requiredPresent.
  destruct (strictEq (type d) "payment").
  { destruct (present (destinationAccount d)), (present (amount d)); cbn [negb orb andb];
      try (split; [now exists 0 | split; [intros [b' H] | intros H]; discriminate]).
    rewrite assets_bind, assets_resolve.
    assert (Ht : match outcome (resolveAsset w (asset d)) with
                 | Ok a =>
                     filter is_asset
                       (trace (bind (mkOperation w (Payment (show (destinationAccount d)) a
                                                      (show (amount d))))
                                 (fun op => ret (addOperation op b))))
                 | Throw _ => []
                 end = []).
    { destruct (outcome (resolveAsset w (asset d))); [apply assets_operation | reflexivity]. }
    rewrite Ht, app_nil_r. split; [apply prefix_all | now split]. }
  destruct (strictEq (type d) "createAccount").
  { destruct (present (destinationAccount d)), (present (startingBalance d));
      cbn [negb orb andb];
      try (split; [now exists 0 | split; [intros [b' H] | intros H]; discriminate]).
    rewrite assets_operation. split; [now exists 0 | now split]. }
  destruct (strictEq (type d) "changeTrust").
  { destruct (present (codeOf (trustAsset d))), (present (issuerOf (trustAsset d)));
      cbn [negb orb andb];
      try (split; [now exists 0 | split; [intros [b' H] | intros H]; discriminate]).
    rewrite assets_bind, newAsset_eq. cbn [trace outcome fst snd filter is_asset].
    assert (Ht : match checked (sdkAsset w (codeOf (trustAsset d)) (issuerOf (trustAsset d)))
                         (Issued (codeOf (trustAsset d)) (issuerOf (trustAsset d))) with
                 | Ok a =>
                     filter is_asset
                       (trace (bind (mkOperation w (ChangeTrust a (trustLimit d)))
                                 (fun op => ret (addOperation op b))))
                 | Throw _ => []
                 end = []).
    { destruct (checked _ _); [apply assets_operation | reflexivity]. }
    rewrite Ht. split; [now exists 1 | now split]. }
  destruct (strictEq (type d) "pathPayment");
    [|split; [now exists 0 | split; [intros [b' H] | intros H]; discriminate]].
  destruct (present (destinationAccount d)), (present (sendMax d)),
    (present (destAmount d)); cbn [negb orb andb];
    try (split; [now exists 0 | split; [intros [b' H] | intros H]; discriminate]).
  set (l := match path d with Some l => l | None => [] end).
  assert (Hpath : match path d with
                  | Some l => mapM (resolvePathAsset w) l
                  | None => ret []
                  end = mapM (resolvePathAsset w) l).
  { unfold l. now destruct (path d). }
  rewrite Hpath. clear Hpath.
  destruct (path_calls w l) as [P0 [P1 [P2 P3]]].
  rewrite assets_bind, assets_resolve.
  destruct (outcome (resolveAsset w (sendAsset d))) as [a1|m1] eqn:E1.
  2:{ rewrite app_nil_r. split; [|split].
      - exists (List.length (named (sendAsset d)) + 0).
        now rewrite firstn_app_2, app_nil_r.
      - intros [b' H]. rewrite outcome_bind, E1 in H. discriminate.
      - intros _ H. destruct (resolve_accepted w (sendAsset d)) as [a Ha];
          [|congruence].
        intros c i Hin. apply H. apply in_or_app. now left. }
  rewrite assets_bind, assets_resolve.
  destruct (outcome (resolveAsset w (destAsset d))) as [a2|m2] eqn:E2.
  2:{ rewrite app_nil_r. split; [|split].
      - apply prefix_app. exists (List.length (named (destAsset d)) + 0).
        now rewrite firstn_app_2, app_nil_r.
      - intros [b' H]. rewrite outcome_bind, E1, outcome_bind, E2 in H. discriminate.
      - intros _ H. destruct (resolve_accepted w (destAsset d)) as [a Ha];
          [|congruence].
        intros c i Hin. apply H. apply in_or_app. right. apply in_or_app. now left. }
  rewrite assets_bind, P0.
  assert (Ht : match outcome (mapM (resolvePathAsset w) l) with
               | Ok a =>
                   filter is_asset
                     (trace (bind (mkOperation w
                                     (PathPaymentStrictReceive a1 (show (sendMax d))
                                        (show (destinationAccount d)) a2
                                        (show (destAmount d)) a))
                               (fun op => ret (addOperation op b))))
               | Throw _ => []
               end = []).
  { destruct (outcome (mapM (resolvePathAsset w) l)); [apply assets_operation | reflexivity]. }
  rewrite Ht, app_nil_r. split; [|split].
  - apply prefix_app, prefix_app. exact P1.
  - intros [b' H]. rewrite outcome_bind, E1, outcome_bind, E2, outcome_bind in H.
    destruct (outcome (mapM (resolvePathAsset w) l)) as [p|m] eqn:E3; [|discriminate].
    rewrite P2; [reflexivity | now eexists].
  - intros _ H. rewrite P2; [reflexivity|]. apply P3.
    intros c i Hin. apply H. apply in_or_app. right. apply in_or_app. now right.
Qed.

Lemma attachMemo_no_asset (w : World) (d : StellarTransactionDetails)
  (b : TransactionBuilder) : filter is_asset (trace (attachMemo w d b)) = [].
Proof.
  apply (only_filter_nil is_asset). unfold attachMemo. repeat only_step.
Qed.

Lemma build_asset_calls (w : World) (rt : Runtime) (d : StellarTransactionDetails) :
  filter is_asset (trace (buildTransactionXDR w rt d)) =
  if present (sourceAccount d) then
    match horizonLoadAccount w (serverUrlOf rt) (show (sourceAccount d)) with
    | Ok acc =>
        filter is_asset
          (trace (selectOperation w d (mkBuilder acc (passphraseOf rt) [] [] None)))
    | Throw _ => []
    end
  else [].
Proof.
  unfold buildTransactionXDR. cbv zeta.
  destruct (present (sourceAccount d)); [|reflexivity]. cbn [negb].
  rewrite assets_bind, loadAccount_eq. cbn [trace outcome fst snd filter is_asset app].
  destruct (horizonLoadAccount w _ _) as [acc|m]; [|reflexivity].
  rewrite assets_bind.
  destruct (outcome (selectOperation w d _)) as [b1|m1]; [|now rewrite app_nil_r].
  rewrite assets_bind, attachMemo_no_asset.
  destruct (outcome (attachMemo w d b1)) as [b2|m2]; [|now rewrite app_nil_r].
  rewrite buildXDR_eq. now rewrite app_nil_r.
Qed.

(** The operation of a transaction that is built is the one the intent
    denotes. *)
Lemma built_operation (w : World) (rt : Runtime) (d : StellarTransactionDetails)
  (xdr : string) :
  outcome (buildTransactionXDR w rt d) = Ok xdr ->
  exists b op,
    In (SdkBuild b) (trace (buildTransactionXDR w rt d)) /\
    operations b = [op] /\ operationOf d = Some op.
Proof.
  unfold buildTransactionXDR. cbv zeta.
  destruct (negb (present (sourceAccount d))); [discriminate|].
  rewrite loadAccount_eq.
  destruct (horizonLoadAccount w _ _) as [acc|m]; [|discriminate].
  rewrite bind_Ok. cbn [trace outcome fst snd].
  set (b0 := mkBuilder acc (passphraseOf rt) [] [] None).
  destruct (selectOperation w d b0) as [t1 [b1|m1]] eqn:E1; [|discriminate].
  rewrite bind_Ok. cbn [trace outcome fst snd].
  destruct (attachMemo w d b1) as [t2 [b2|m2]] eqn:E2; [|discriminate].
  rewrite bind_Ok, buildXDR_eq. cbn [trace outcome fst snd]. intros _.
  destruct (selectOperation_Ok w d b0 b1) as [op [Hop Hb1]]; [now rewrite E1|].
  pose proof (attachMemo_keeps_operations w d b1 b2) as Hk.
  rewrite E2 in Hk. specialize (Hk eq_refl).
  exists (setTimeout 30 b2), op. split; [|split; [|exact Hop]].
  - apply in_cons, in_or_app. right. apply in_or_app. right. now left.
  - cbn [setTimeout operations]. rewrite Hk, Hb1. reflexivity.
Qed.

(** C4, as the code has it. The handler checks the source and the
    destination account, and nothing else, before it calls anything: when
    one of the two is present and fails the validator, the handler
    answers with the format error and makes no call, so whenever a call is
    made each of the two is absent or valid. The issuer of an asset is
    never checked: the calls of the SDK's asset constructor that a
    compilation makes are, in order, those the intent names, each with the
    issuer as the intent has it, and never any other. All of them are
    made whenever the compilation succeeds; and once the account is
    loaded and the required members are there, the SDK's verdicts on them
    are the only thing that can keep one from being made. The operation
    of a transaction that is built carries the assets so made, and the
    native asset where no call was made. *)
Theorem addresses_checked_before_effects (w : World) (rt : Runtime)
  (d : StellarTransactionDetails) :
  let run := buildTransactionXDR w rt d in
  (absentOrValid (sourceAccount d) && absentOrValid (destinationAccount d) = false ->
   submitHandler w rt d =
   ([], Ok (false,
            Failed (Some (if absentOrValid (sourceAccount d)
                          then destinationFormatError d
                          else sourceFormatError d))))) /\
  (trace (submitHandler w rt d) <> [] ->
   absentOrValid (sourceAccount d) = true /\
   absentOrValid (destinationAccount d) = true) /\
  (exists n, filter is_asset (trace run) = firstn n (constructorCalls d)) /\
  (forall xdr, outcome run = Ok xdr -> filter is_asset (trace run) = constructorCalls d) /\
  (forall acc,
      present (sourceAccount d) = true ->
      horizonLoadAccount w (serverUrlOf rt) (show (sourceAccount d)) = Ok acc ->
      requiredPresent d = true ->
      (forall c i, In (SdkAsset c i) (constructorCalls d) -> sdkAsset w c i = None) ->
      filter is_asset (trace run) = constructorCalls d) /\
  (forall xdr,
      outcome run = Ok xdr ->
      exists b op,
        In (SdkBuild b) (trace run) /\ operations b = [op] /\
        operationOf d = Some op).
Proof.
  intros run. subst run.
  split; [apply submitHandler_rejects_addresses|].
  split; [|split; [|split; [|split; [|apply built_operation]]]].
  - intros Ht.
    destruct (absentOrValid (sourceAccount d) && absentOrValid (destinationAccount d))
      eqn:E.
    + now apply andb_true_iff in E.
    + rewrite (submitHandler_rejects_addresses w rt d E) in Ht. now elim Ht.
  - rewrite build_asset_calls.
    destruct (present (sourceAccount d)); [|now exists 0].
    destruct (horizonLoadAccount w _ _) as [acc|m]; [|now exists 0].
    apply (proj1 (select_asset_calls w d _)).
  - intros xdr Hx. rewrite build_asset_calls.
    unfold buildTransactionXDR in Hx. cbv zeta in Hx.
    destruct (present (sourceAccount d)); [|discriminate]. cbn [negb] in Hx.
    rewrite outcome_bind, loadAccount_eq in Hx. cbn [outcome snd] in Hx.
    destruct (horizonLoadAccount w _ _) as [acc|m]; [|discriminate].
    rewrite outcome_bind in Hx.
    destruct (outcome (selectOperation w d _)) as [b1|m1] eqn:E1; [|discriminate].
    apply (proj1 (proj2 (select_asset_calls w d
                           (mkBuilder acc (passphraseOf rt) [] [] None)))).
    exists b1. exact E1.
  - intros acc Hs Hl Hr Ha. rewrite build_asset_calls, Hs, Hl.
    now apply (proj2 (proj2 (select_asset_calls w d _))).
Qed.

(** C4, as the specification states it, fails: an issuer that is not an
    account identifier is not looked at; the handler loads the source
    account and hands the issuer to the SDK. *)
Lemma unvalidated_issuer_reaches_sdk :
  let d := Demo.payment "10" (Some (mkAssetRef (Some "USDC") (Some "not-an-address"))) in
  In (Val "not-an-address") (issuersOf d) /\
  isValidStellarAddress (VStr "not-an-address") = false /\
  trace (submitHandler (Demo.world (Demo.accepted (VObj []))) Demo.runtime d) =
  [LoadAccount "https://horizon-testnet.stellar.org" Demo.alice;
   SdkAsset (Some "USDC") (Some "not-an-address")].
Proof.
  cbv zeta. split; [left; reflexivity|]. split; reflexivity.
Qed.

(** ** The relay client *)

Lemma fold_append (entries : list string) (body : URLSearchParams) :
  fold_left (fun b authEntry => append "auth[]" authEntry b) entries body =
  (body ++ map (fun e => ("auth[]", e)) entries)%list.
Proof.
  revert body. induction entries as [|e r IH]; intros body; simpl.
  - now rewrite app_nil_r.
  - rewrite IH. unfold append. now rewrite <- app_assoc.
Qed.

Lemma requestBody_supplied (request : Req.LaunchtubeSubmissionRequest) :
  requestBody request = suppliedFields request.
Proof.
  destruct request as [x f a sim]. unfold requestBody, suppliedFields, supplied.
  cbn [Req.xdr Req.func Req.auth Req.sim].
  assert (Hx : forall (name : string) (m : option string) (body : URLSearchParams),
             match m with
             | Some v => if present (Some v) then append name v body else body
             | None => body
             end =
             (body ++ match m with
                      | Some v => if v =? "" then [] else [(name, v)]
                      | None => []
                      end)%list).
  { intros name [v|] body; [|now rewrite app_nil_r].
    cbn [present ofOption]. destruct (v =? ""); cbn [negb]; [now rewrite app_nil_r|].
    reflexivity. }
  rewrite (Hx "xdr" x []), (Hx "func" f). cbn [app].
  assert (Ha : forall body : URLSearchParams,
             match a with
             | Some entries =>
                 fold_left (fun b authEntry => append "auth[]" authEntry b) entries body
             | None => body
             end =
             (body ++ match a with
                      | Some entries => map (fun e => ("auth[]", e)) entries
                      | None => []
                      end)%list).
  { intros body. destruct a as [entries|]; [apply fold_append | now rewrite app_nil_r]. }
  rewrite Ha. destruct sim as [[]|]; cbn [simEntry]; unfold append;
    rewrite <- ?app_assoc, ?app_nil_r; reflexivity.
Qed.

Lemma submit_request_eq (w : World) (cfg : LaunchtubeConfig)
  (request : Req.LaunchtubeSubmissionRequest) :
  makeRequest w (mkService (Some cfg)) "/" (Some "POST")
    (Some (serialize (requestBody request)))
    [("Content-Type", "application/x-www-form-urlencoded")] =
  ([submitCall cfg request],
   match relayAnswer w cfg request with
   | Throw m => Throw m
   | Ok r =>
       if ok r then Ok r
       else match text r with
            | Throw m => Throw m
            | Ok t => Throw (apiError r t)
            end
   end).
Proof.
  rewrite requestBody_supplied.
  unfold makeRequest, relayAnswer, submitCall, submitHeaders. cbn [config].
  cbn [fold_left assign fst snd String.eqb Ascii.eqb Bool.eqb orElse present show negb].
  rewrite fetchM_eq.
  destruct (fetch w _ _ _ _) as [r|m]; [|reflexivity].
  rewrite bind_Ok. cbn [trace outcome fst snd app].
  destruct (ok r); cbn [negb]; [reflexivity|].
  unfold lift. destruct (text r) as [t|m]; reflexivity.
Qed.

Lemma info_request_eq (w : World) (cfg : LaunchtubeConfig) :
  makeRequest w (mkService (Some cfg)) "/info" None None [] =
  ([infoCall cfg],
   match infoAnswer w cfg with
   | Throw m => Throw m
   | Ok r =>
       if ok r then Ok r
       else match text r with
            | Throw m => Throw m
            | Ok t => Throw (apiError r t)
            end
   end).
Proof.
  unfold makeRequest, infoAnswer, infoCall. cbn [config fold_left orElse present show].
  rewrite fetchM_eq.
  destruct (fetch w _ _ _ _) as [r|m]; [|reflexivity].
  rewrite bind_Ok. cbn [trace outcome fst snd app].
  destruct (ok r); cbn [negb]; [reflexivity|].
  unfold lift. destruct (text r) as [t|m]; reflexivity.
Qed.

Lemma getProp_eq (w : World) (v : value) (k : string) :
  getProp w v k =
  ([], if nullish v then Throw (typeErrorMessage w v k) else Ok (prop v k)).
Proof. unfold getProp. now destruct (nullish v). Qed.

Lemma submitTransaction_uninitialized (w : World)
  (request : Req.LaunchtubeSubmissionRequest) :
  submitTransaction w (mkService None) request =
  ([], Ok (submissionError "LaunchtubeService not initialized")).
Proof. reflexivity. Qed.

(** Everything [submitTransaction] can answer once it is initialized. *)
Lemma submitTransaction_initialized (w : World) (cfg : LaunchtubeConfig)
  (request : Req.LaunchtubeSubmissionRequest) :
  submitTransaction w (mkService (Some cfg)) request =
  ([submitCall cfg request],
   Ok match relayAnswer w cfg request with
      | Throw m => submissionError m
      | Ok r =>
          if ok r then
            match text r with
            | Throw m => submissionError m
            | Ok t =>
                match jsonParse w t with
                | Throw m => submissionError m
                | Ok result =>
                    if nullish result
                    then submissionError (typeErrorMessage w result "tx")
                    else mkSubmission "success"
                           (Js.or (prop result "tx") (prop result "hash")) None
                           (Some (VObj (assign "creditsRemaining"
                                          (headers_get (headers r) "X-Credits-Remaining")
                                          (spread result))))
                end
            end
          else match text r with
               | Throw m => submissionError m
               | Ok t => submissionError (apiError r t)
               end
      end).
Proof.
  unfold submitTransaction, submitAttempt. cbv zeta. rewrite submit_request_eq.
  destruct (relayAnswer w cfg request) as [r|m]; [|reflexivity].
  destruct (ok r).
  - rewrite bind_Ok. unfold json, lift.
    destruct (text r) as [t|m]; [|reflexivity].
    rewrite bind_Ok. cbn [trace outcome fst snd app].
    destruct (jsonParse w t) as [result|m]; [|reflexivity].
    rewrite bind_Ok. cbn [trace outcome fst snd app].
    rewrite !getProp_eq.
    destruct (nullish result); [reflexivity|].
    rewrite bind_Ok. cbn [trace outcome fst snd app]. unfold Js.or.
    destruct (truthy (prop result "tx")); reflexivity.
  - destruct (text r) as [t|m]; reflexivity.
Qed.

Lemma submitTransaction_returns (w : World) (this : LaunchtubeService)
  (request : Req.LaunchtubeSubmissionRequest) :
  exists res, outcome (submitTransaction w this request) = Ok res.
Proof.
  destruct this as [[cfg|]].
  - rewrite submitTransaction_initialized. eexists. reflexivity.
  - rewrite submitTransaction_uninitialized. eexists. reflexivity.
Qed.

Lemma lookup_assign_same (k : string) (v : value) (props : list (string * value)) :
  lookup k (assign k v props) = v.
Proof.
  induction props as [|[k' v'] r IH]; cbn [assign lookup].
  - now rewrite String.eqb_refl.
  - destruct (k' =? k) eqn:E; cbn [lookup].
    + now rewrite String.eqb_refl.
    + now rewrite E.
Qed.

Lemma lookup_assign_other (k k' : string) (v : value) (props : list (string * value)) :
  k' <> k -> lookup k' (assign k v props) = lookup k' props.
Proof.
  intros Hne. induction props as [|[k0 v0] r IH]; cbn [assign lookup].
  - apply String.eqb_neq in Hne. rewrite String.eqb_sym. now rewrite Hne.
  - destruct (k0 =? k) eqn:E; cbn [lookup].
    + apply String.eqb_eq in E. subst k0.
      apply String.eqb_neq in Hne. rewrite (String.eqb_sym k k'). now rewrite Hne.
    + destruct (k0 =? k'); [reflexivity | exact IH].
Qed.

(** C6, as the code has it. [submitTransaction] has no rule about which
    members of a request may come together: once initialized it sends
    exactly one POST for every request, to the base URL followed by [/],
    with the bearer key, whose form body lists the members that are
    supplied, in the order [xdr], [func], [auth[]], [sim]. With both kinds
    of payload the body carries both, with neither it carries the [sim]
    entry alone. Only a service that was never initialized sends nothing,
    and it returns the error result. *)
Theorem submit_sends_whatever_is_supplied (w : World) (cfg : LaunchtubeConfig)
  (request : Req.LaunchtubeSubmissionRequest) :
  let member := fun (name : string) (m : option string) =>
    match m with
    | Some v => if v =? "" then [] else [(name, v)]
    | None => []
    end in
  let entries :=
    match Req.auth request with
    | Some a => map (fun e => ("auth[]", e)) a
    | None => []
    end in
  let sim :=
    match Req.sim request with
    | Some true => [("sim", "true")]
    | Some false => [("sim", "false")]
    | None => []
    end in
  let fields :=
    (member "xdr" (Req.xdr request) ++ member "func" (Req.func request)
     ++ entries ++ sim)%list in
  trace (submitTransaction w (mkService (Some cfg)) request) =
  [Fetch (LAUNCHTUBE_BASE_URL cfg ++ "/") "POST"
     [("Authorization", "Bearer " ++ LAUNCHTUBE_API_KEY cfg);
      ("Content-Type", "application/x-www-form-urlencoded")]
     (Some (serialize fields))] /\
  (forall x f a,
      Req.xdr request = Some x -> x <> "" ->
      Req.func request = Some f -> f <> "" ->
      Req.auth request = Some a ->
      fields =
      ([("xdr", x); ("func", f)] ++ map (fun e => ("auth[]", e)) a ++ sim)%list) /\
  (Req.xdr request = None -> Req.func request = None -> Req.auth request = None ->
   fields = sim) /\
  submitTransaction w newService request =
  ([], Ok (mkSubmission "error" VUndefined
             (Some "LaunchtubeService not initialized") None)).
Proof.
  intros member entries sim fields.
  split; [|split; [|split; [|reflexivity]]].
  - rewrite submitTransaction_initialized. cbn [trace fst].
    unfold submitCall, submitHeaders, suppliedFields, supplied, simEntry.
    subst fields sim entries member. cbv beta.
    destruct (Req.sim request) as [[]|]; reflexivity.
  - intros x f a Hx Hxe Hf Hfe Ha. subst fields entries member. cbv beta.
    rewrite Hx, Hf, Ha.
    apply String.eqb_neq in Hxe, Hfe. now rewrite Hxe, Hfe.
  - intros Hx Hf Ha. subst fields entries member. cbv beta.
    now rewrite Hx, Hf, Ha.
Qed.

(** C6, as the specification states it, fails: a request with both a
    wire transaction and a host function with authorization entries, and
    a request with neither, are each sent to the relay. *)
Lemma both_and_neither_are_posted :
  trace (submitTransaction (Demo.world (Demo.accepted (VObj []))) Demo.service
           (Req.mk (Some "AAAA") (Some "BBBB") (Some ["CC"]) None)) =
  [Fetch "https://testnet.launchtube.xyz/" "POST"
     [("Authorization", "Bearer test-api-key");
      ("Content-Type", "application/x-www-form-urlencoded")]
     (Some "xdr=AAAA&func=BBBB&auth%5B%5D=CC")] /\
  trace (submitTransaction (Demo.world (Demo.accepted (VObj []))) Demo.service
           (Req.mk None None None None)) =
  [Fetch "https://testnet.launchtube.xyz/" "POST"
     [("Authorization", "Bearer test-api-key");
      ("Content-Type", "application/x-www-form-urlencoded")]
     (Some "")].
Proof. split; reflexivity. Qed.

(** C7, as the code has it. When the relay answers with a 2xx status and
    a JSON body other than [null], [submitTransaction] returns the
    success literal: its hash, the member [tx], is taken from the body
    ([body.tx], or [body.hash] when that is not set), and the remaining
    credits are taken from the header [X-Credits-Remaining], as the text
    the header holds ([null] without the header), and are kept inside
    [details] next to the members of the body. For the header [899800]
    and the body [{tx: "abc123"}] the result is [{status: "success", tx:
    "abc123", details: {tx: "abc123", creditsRemaining: "899800"}}]. *)
Theorem submit_success_result (w : World) (cfg : LaunchtubeConfig)
  (request : Req.LaunchtubeSubmissionRequest) (r : Response) (t : string)
  (result : value) :
  relayAnswer w cfg request = Ok r ->
  ok r = true ->
  text r = Ok t ->
  jsonParse w t = Ok result ->
  nullish result = false ->
  exists res,
    outcome (submitTransaction w (mkService (Some cfg)) request) = Ok res /\
    status res = "success" /\
    error res = None /\
    tx res = (if truthy (prop result "tx") then prop result "tx"
              else prop result "hash") /\
    details res =
    Some (VObj (assign "creditsRemaining"
                  (headers_get (headers r) "X-Credits-Remaining") (spread result))) /\
    creditsOf (details res) = headers_get (headers r) "X-Credits-Remaining" /\
    (forall c, headers r = [("X-Credits-Remaining", c)] ->
               creditsOf (details res) = VStr c) /\
    asObject res =
    VObj [("status", VStr "success");
          ("tx", if truthy (prop result "tx") then prop result "tx"
                 else prop result "hash");
          ("details",
           VObj (assign "creditsRemaining"
                   (headers_get (headers r) "X-Credits-Remaining") (spread result)))].
Proof.
  intros Hr Hok Ht Hj Hn.
  rewrite submitTransaction_initialized, Hr, Hok, Ht, Hj, Hn. cbn [outcome snd].
  eexists. split; [reflexivity|]. cbn [status error tx details asObject app].
  assert (Hc : creditsOf
                 (Some (VObj (assign "creditsRemaining"
                                (headers_get (headers r) "X-Credits-Remaining")
                                (spread result)))) =
               headers_get (headers r) "X-Credits-Remaining").
  { cbn [creditsOf]. apply lookup_assign_same. }
  repeat split; try exact Hc.
  intros c Hh. rewrite Hc, Hh. reflexivity.
Qed.

Lemma submit_success_witness :
  exists res,
    outcome (submitTransaction
               (Demo.world (Demo.accepted (VObj [("tx", VStr "abc123")])))
               Demo.service (Req.mk (Some "AAAA") None None (Some true))) = Ok res /\
    status res = "success" /\
    tx res = VStr "abc123" /\
    details res =
    Some (VObj [("tx", VStr "abc123"); ("creditsRemaining", VStr "899800")]).
Proof.
  destruct (submit_success_result
              (Demo.world (Demo.accepted (VObj [("tx", VStr "abc123")])))
              Demo.config (Req.mk (Some "AAAA") None None (Some true))
              (mkResponse 200 [("content-type", "application/json");
                               ("x-credits-remaining", "899800")]
                 (Ok (Demo.stringify (VObj [("tx", VStr "abc123")]))))
              (Demo.stringify (VObj [("tx", VStr "abc123")]))
              (VObj [("tx", VStr "abc123")])
              eq_refl eq_refl eq_refl eq_refl eq_refl)
    as [res [Ho [Hs [_ [Ht [Hd _]]]]]].
  exists res. split; [exact Ho|]. split; [exact Hs|]. split; [exact Ht | exact Hd].
Defined.

(** C7, as the specification states it, fails: for the header [899800]
    and the body [{tx: "abc123"}] the result is not the object [{status:
    "success", txHash: "abc123", creditsRemaining: 899800}]. It has no
    member [creditsRemaining] or [txHash]; the hash is its member [tx],
    and the credits are the text ["899800"], not the number, inside
    [details]. *)
Lemma credits_are_header_text :
  exists res,
    outcome (submitTransaction
               (Demo.world
                  (Demo.respond 200 [("X-Credits-Remaining", "899800")]
                     (Demo.stringify (VObj [("tx", VStr "abc123")]))))
               Demo.service (Req.mk (Some "AAAA") None None (Some true))) = Ok res /\
    asObject res =
    VObj [("status", VStr "success"); ("tx", VStr "abc123");
          ("details",
           VObj [("tx", VStr "abc123"); ("creditsRemaining", VStr "899800")])] /\
    asObject res <>
    VObj [("status", VStr "success"); ("txHash", VStr "abc123");
          ("creditsRemaining", VNum 899800)] /\
    prop (asObject res) "txHash" = VUndefined /\
    prop (asObject res) "creditsRemaining" = VUndefined /\
    prop (prop (asObject res) "details") "creditsRemaining" = VStr "899800" /\
    VStr "899800" <> VNum 899800.
Proof.
  eexists. split; [reflexivity|]. repeat split; discriminate.
Qed.

(** The two ways a submission of an initialized service can end. *)
Lemma submit_outcome_cases (w : World) (cfg : LaunchtubeConfig)
  (request : Req.LaunchtubeSubmissionRequest) :
  (exists r t result,
      relayAnswer w cfg request = Ok r /\ ok r = true /\ text r = Ok t /\
      jsonParse w t = Ok result /\ nullish result = false /\
      outcome (submitTransaction w (mkService (Some cfg)) request) =
      Ok (mkSubmission "success"
            (if truthy (prop result "tx") then prop result "tx"
             else prop result "hash")
            None
            (Some (VObj (assign "creditsRemaining"
                           (headers_get (headers r) "X-Credits-Remaining")
                           (spread result)))))) \/
  ((forall r t result,
       relayAnswer w cfg request = Ok r -> ok r = true -> text r = Ok t ->
       jsonParse w t = Ok result -> nullish result = true) /\
   exists m,
     outcome (submitTransaction w (mkService (Some cfg)) request) =
     Ok (mkSubmission "error" VUndefined (Some m) None)).
Proof.
  rewrite submitTransaction_initialized. cbn [outcome snd].
  destruct (relayAnswer w cfg request) as [r|m] eqn:Er;
    [|right; split; [discriminate | eexists; reflexivity]].
  destruct (ok r) eqn:Eok.
  - destruct (text r) as [t|m] eqn:Et.
    + destruct (jsonParse w t) as [result|m] eqn:Ej.
      * destruct (nullish result) eqn:En.
        -- right. split; [|eexists; reflexivity].
           intros r' t' result' Hr _ Ht Hj. injection Hr as <-.
           rewrite Et in Ht. injection Ht as <-. rewrite Ej in Hj.
           now injection Hj as <-.
        -- left. exists r, t, result. unfold Js.or. now repeat split.
      * right. split; [|eexists; reflexivity].
        intros r' t' result' Hr _ Ht Hj. injection Hr as <-.
        rewrite Et in Ht. injection Ht as <-. rewrite Ej in Hj. discriminate.
    + right. split; [|eexists; reflexivity].
      intros r' t' result' Hr _ Ht. injection Hr as <-. rewrite Et in Ht. discriminate.
  - right. split.
    + intros r' t' result' Hr Hk. injection Hr as <-. congruence.
    + destruct (text r); eexists; reflexivity.
Qed.

(** C8, as the code has it. [submitTransaction] always returns a result,
    and the result is one of two literals: the error literal [{status:
    "error", error: message}], with no hash and no details, or the
    success literal [{status: "success", tx, details}]. The status is
    [success] exactly when the relay answered 2xx with a JSON body other
    than [null]; the hash is then [body.tx || body.hash], which is
    [undefined] when the body has neither. *)
Theorem submit_result_shape (w : World) (this : LaunchtubeService)
  (request : Req.LaunchtubeSubmissionRequest) :
  exists res,
    outcome (submitTransaction w this request) = Ok res /\
    ((exists m, res = mkSubmission "error" VUndefined (Some m) None) \/
     (exists hash d, res = mkSubmission "success" hash None (Some d))) /\
    (status res = "success" <->
     exists cfg r t result,
       config this = Some cfg /\
       relayAnswer w cfg request = Ok r /\
       ok r = true /\
       text r = Ok t /\
       jsonParse w t = Ok result /\
       nullish result = false) /\
    (forall cfg r t result,
        config this = Some cfg ->
        relayAnswer w cfg request = Ok r ->
        ok r = true ->
        text r = Ok t ->
        jsonParse w t = Ok result ->
        nullish result = false ->
        res = mkSubmission "success"
                (if truthy (prop result "tx") then prop result "tx"
                 else prop result "hash")
                None
                (Some (VObj (assign "creditsRemaining"
                               (headers_get (headers r) "X-Credits-Remaining")
                               (spread result))))).
Proof.
  destruct this as [[cfg|]].
  - destruct (submit_outcome_cases w cfg request)
      as [[r [t [result [Hr [Hok [Ht [Hj [Hn Ho]]]]]]]] | [Hnot [m Ho]]];
      rewrite Ho; eexists; (split; [reflexivity|]); cbn [config status].
    + split; [right; eexists; eexists; reflexivity|]. split.
      * split; [|reflexivity]. intros _. exists cfg, r, t, result. now repeat split.
      * intros c r' t' result' Hc Hr' _ Ht' Hj' _. injection Hc as <-.
        rewrite Hr in Hr'. injection Hr' as <-. rewrite Ht in Ht'. injection Ht' as <-.
        rewrite Hj in Hj'. now injection Hj' as <-.
    + split; [left; eexists; reflexivity|]. split.
      * split; [discriminate|].
        intros [c [r [t [result [Hc [Hr [Hok [Ht [Hj Hn]]]]]]]]]. injection Hc as <-.
        rewrite (Hnot r t result Hr Hok Ht Hj) in Hn. discriminate.
      * intros c r t result Hc Hr Hok Ht Hj Hn. injection Hc as <-.
        rewrite (Hnot r t result Hr Hok Ht Hj) in Hn. discriminate.
  - rewrite submitTransaction_uninitialized. eexists. split; [reflexivity|].
    split; [left; eexists; reflexivity|]. split.
    + split; [discriminate|]. intros [c [r [t [res [Hc _]]]]]. discriminate.
    + intros c r t res Hc. discriminate.
Qed.

(** C8, as the specification states it, fails: a 2xx answer whose body
    has neither [tx] nor [hash] gives status [success] with an undefined
    hash. *)
Lemma success_without_hash :
  exists res,
    outcome (submitTransaction (Demo.world (Demo.accepted (VObj []))) Demo.service
               (Req.mk (Some "AAAA") None None (Some true))) = Ok res /\
    status res = "success" /\ tx res = VUndefined.
Proof. eexists. repeat split. Qed.

(** C10. [submitTransaction] never throws: whatever is thrown inside its
    [try] block comes back as the result [{status: "error", error:
    message}] with the message of the error. That holds for a service
    that was not initialized, for a network failure, for a response that
    is not 2xx, whose status and body text are the message, for a body
    that cannot be read or is not JSON, and for the body [null]. *)
Theorem submitTransaction_never_throws (w : World) (this : LaunchtubeService)
  (request : Req.LaunchtubeSubmissionRequest) :
  let failure := fun m : string => mkSubmission "error" VUndefined (Some m) None in
  (exists res, outcome (submitTransaction w this request) = Ok res) /\
  (forall m,
      outcome (submitAttempt w this request) = Throw m ->
      submitTransaction w this request =
      (trace (submitAttempt w this request), Ok (failure m))) /\
  (config this = None ->
   submitTransaction w this request =
   ([], Ok (failure "LaunchtubeService not initialized"))) /\
  (forall cfg,
      config this = Some cfg ->
      (forall m,
          relayAnswer w cfg request = Throw m ->
          outcome (submitTransaction w this request) = Ok (failure m)) /\
      (forall r t,
          relayAnswer w cfg request = Ok r -> ok r = false -> text r = Ok t ->
          outcome (submitTransaction w this request) =
          Ok (failure ("Launchtube API error (" ++ Str.of_Z (httpStatus r)
                       ++ "): " ++ t))) /\
      (forall r m,
          relayAnswer w cfg request = Ok r -> text r = Throw m ->
          outcome (submitTransaction w this request) = Ok (failure m)) /\
      (forall r t m,
          relayAnswer w cfg request = Ok r -> ok r = true -> text r = Ok t ->
          jsonParse w t = Throw m ->
          outcome (submitTransaction w this request) = Ok (failure m)) /\
      (forall r t result,
          relayAnswer w cfg request = Ok r -> ok r = true -> text r = Ok t ->
          jsonParse w t = Ok result -> nullish result = true ->
          outcome (submitTransaction w this request) =
          Ok (failure (typeErrorMessage w result "tx")))).
Proof.
  cbv zeta. split; [|split; [|split]].
  - apply submitTransaction_returns.
  - intros m Hm. unfold submitTransaction, try_catch.
    destruct (submitAttempt w this request) as [t [a|m']]; simpl in Hm;
      [discriminate|].
    injection Hm as ->. simpl. now rewrite app_nil_r.
  - destruct this as [[cfg|]]; [discriminate|]. intros _.
    apply submitTransaction_uninitialized.
  - intros cfg Hc. destruct this as [c]. simpl in Hc. subst c.
    rewrite submitTransaction_initialized. cbn [outcome snd].
    split; [|split; [|split; [|split]]].
    + intros m ->. reflexivity.
    + intros r t -> -> ->. reflexivity.
    + intros r m -> ->. now destruct (ok r).
    + intros r t m -> -> -> ->. reflexivity.
    + intros r t result -> -> -> -> ->. reflexivity.
Qed.

Lemma submitTransaction_never_throws_witness :
  outcome (submitTransaction
             (Demo.world (Demo.respond 402 [] "No credits left")) Demo.service
             (Req.mk (Some "AAAA") None None (Some true))) =
  Ok (mkSubmission "error" VUndefined
        (Some "Launchtube API error (402): No credits left") None).
Proof.
  exact (proj1 (proj2 (proj2 (proj2 (proj2
    (submitTransaction_never_throws
       (Demo.world (Demo.respond 402 [] "No credits left")) Demo.service
       (Req.mk (Some "AAAA") None None (Some true))))) Demo.config eq_refl))
    (mkResponse 402 [] (Ok "No credits left")) "No credits left"
    eq_refl eq_refl eq_refl).
Defined.

(** ** Credits *)

(** Everything [checkCredits] can answer once it is initialized. *)
Lemma checkCredits_initialized (w : World) (cfg : LaunchtubeConfig) :
  checkCredits w (mkService (Some cfg)) =
  ([infoCall cfg],
   match infoAnswer w cfg with
   | Throw m => Throw m
   | Ok r =>
       if ok r then
         match text r with
         | Throw m => Throw m
         | Ok t =>
             match jsonParse w (Str.trim t) with
             | Throw m => Throw m
             | Ok parsed =>
                 if nullish parsed
                 then Throw (typeErrorMessage w parsed "credits")
                 else
                   Ok (mkCredits
                         (show (orElse
                                  (if nullish (prop parsed "credits") then None
                                   else Some (toString (prop parsed "credits")))
                                  (Some "0"))))
             end
         end
       else match text r with
            | Throw m => Throw m
            | Ok t => Throw (apiError r t)
            end
   end).
Proof.
  unfold checkCredits. rewrite info_request_eq.
  destruct (infoAnswer w cfg) as [r|m]; [|reflexivity].
  destruct (ok r).
  - rewrite bind_Ok. unfold lift.
    destruct (text r) as [t|m]; [|reflexivity].
    rewrite bind_Ok. cbn [trace outcome fst snd app].
    destruct (jsonParse w (Str.trim t)) as [parsed|m]; [|reflexivity].
    rewrite bind_Ok. cbn [trace outcome fst snd app].
    rewrite getProp_eq.
    destruct (nullish parsed); reflexivity.
  - destruct (text r) as [t|m]; reflexivity.
Qed.

Lemma initialize_eq (w : World) (rt : Runtime) (cfg : LaunchtubeConfig) :
  outcome (validateLaunchtubeConfig w rt) = Ok cfg ->
  initialize w (Some rt) newService = ([], Ok (mkService (Some cfg))).
Proof.
  intros H. unfold initialize.
  rewrite (M_eta (validateLaunchtubeConfig w rt)), H,
    validateLaunchtubeConfig_silent.
  reflexivity.
Qed.

Lemma toNumber_safe (z : Z) : safeInteger z = true -> toNumber z = z.
Proof. unfold safeInteger, toNumber. now intros ->. Qed.

Lemma parseInt_NaN (s : string) : isNaN (parseInt s) = isNaN (parseInt10 s).
Proof. unfold parseInt. now destruct (parseInt10 s). Qed.

Lemma parseInt_None (s : string) : parseInt10 s = None -> parseInt s = None.
Proof. unfold parseInt. now intros ->. Qed.

Lemma parseInt_safe (s : string) (z : Z) :
  parseInt10 s = Some z -> safeInteger z = true -> parseInt s = Some z.
Proof. unfold parseInt. intros -> H. now rewrite (toNumber_safe z H). Qed.

(** Beyond 2^53 the handler works on the rounded number: for the numeral
    [9007199254740993] it holds [9007199254740992]. *)
Lemma parseInt_rounds :
  parseInt10 "9007199254740993" = Some 9007199254740993%Z /\
  parseInt "9007199254740993" = Some 9007199254740992%Z /\
  parseInt "-9007199254740995" = Some (-9007199254740996)%Z /\
  parseInt " 42 stroops" = Some 42%Z.
Proof. repeat split; vm_compute; reflexivity. Qed.

Lemma creditsHandler_reports (w : World) (rt : Runtime) (cfg : LaunchtubeConfig)
  (s : string) :
  outcome (validateLaunchtubeConfig w rt) = Ok cfg ->
  checkCredits w (mkService (Some cfg)) = ([infoCall cfg], Ok (mkCredits s)) ->
  creditsHandler w rt =
  ([infoCall cfg],
   Ok (true,
       CreditsReport (negb (isNaN (parseInt s))) (parseInt s)
         match parseInt s with
         | None => (0%Z, 1%Z)
         | Some c => (c, 10000000%Z)
         end
         s (isNaN (parseInt s)))).
Proof.
  intros Hc Hs. unfold creditsHandler.
  rewrite (initialize_eq w rt cfg Hc), bind_Ok. cbn [trace outcome fst snd app].
  rewrite Hs. reflexivity.
Qed.

(** C5, as the code has it. Take an [/info] answer that is 2xx and whose
    body parses to an object. If its [credits] is a string with no
    leading integer, the service returns that string as it is and the
    handler reports it with [parsingError] set, [success] unset and a
    [NaN] amount. If [credits] is missing, [null] or the empty string, the
    service replaces it by ["0"] and the handler reports a balance of zero
    with no parsing error. *)
Theorem credits_parse_reporting (w : World) (rt : Runtime)
  (cfg : LaunchtubeConfig) (r : Response) (t : string)
  (props : list (string * value)) :
  outcome (validateLaunchtubeConfig w rt) = Ok cfg ->
  infoAnswer w cfg = Ok r ->
  ok r = true ->
  text r = Ok t ->
  jsonParse w (Str.trim t) = Ok (VObj props) ->
  (forall s,
      lookup "credits" props = VStr s -> s <> "" -> parseInt10 s = None ->
      checkCredits w (mkService (Some cfg)) = ([infoCall cfg], Ok (mkCredits s)) /\
      creditsHandler w rt =
      ([infoCall cfg], Ok (true, CreditsReport false None (0%Z, 1%Z) s true))) /\
  (nullish (lookup "credits" props) = true \/ lookup "credits" props = VStr "" ->
   checkCredits w (mkService (Some cfg)) = ([infoCall cfg], Ok (mkCredits "0")) /\
   creditsHandler w rt =
   ([infoCall cfg],
    Ok (true, CreditsReport true (Some 0%Z) (0%Z, 10000000%Z) "0" false))).
Proof.
  intros Hc Hr Hok Ht Hj.
  pose proof (checkCredits_initialized w cfg) as Hcc.
  rewrite Hr, Hok, Ht, Hj in Hcc. cbn [nullish prop] in Hcc.
  split.
  - intros s Hl Hne Hp. rewrite Hl in Hcc. cbn [nullish toString] in Hcc.
    assert (Hpres : present (Some s) = true).
    { simpl. apply negb_true_iff. now apply String.eqb_neq. }
    unfold orElse in Hcc. rewrite Hpres in Hcc. cbn [show ofOption] in Hcc.
    split; [exact Hcc|].
    rewrite (creditsHandler_reports w rt cfg s Hc Hcc), (parseInt_None s Hp).
    reflexivity.
  - intros H.
    assert (Hz : checkCredits w (mkService (Some cfg)) =
                 ([infoCall cfg], Ok (mkCredits "0"))).
    { destruct H as [H | H].
      - rewrite H in Hcc. exact Hcc.
      - rewrite H in Hcc. exact Hcc. }
    split; [exact Hz|].
    rewrite (creditsHandler_reports w rt cfg "0" Hc Hz). reflexivity.
Qed.

Lemma credits_parse_witness :
  creditsHandler
    (Demo.world (Demo.accepted
       (VObj [("credits", VStr "not-a-number"); ("activated", VBool true)])))
    Demo.runtime =
  ([infoCall Demo.config],
   Ok (true, CreditsReport false None (0%Z, 1%Z) "not-a-number" true)).
Proof.
  refine (proj2 (proj1
    (credits_parse_reporting
       (Demo.world (Demo.accepted
          (VObj [("credits", VStr "not-a-number"); ("activated", VBool true)])))
       Demo.runtime Demo.config
       (mkResponse 200 [("content-type", "application/json");
                        ("x-credits-remaining", "899800")]
          (Ok (Demo.stringify
                 (VObj [("credits", VStr "not-a-number"); ("activated", VBool true)]))))
       (Demo.stringify
          (VObj [("credits", VStr "not-a-number"); ("activated", VBool true)]))
       [("credits", VStr "not-a-number"); ("activated", VBool true)]
       eq_refl eq_refl eq_refl eq_refl eq_refl)
    "not-a-number" eq_refl _ eq_refl)).
  discriminate.
Defined.

(** C5, as the specification states it, fails: an [/info] body with no
    [credits] field is reported as a balance of zero, with [success] set
    and no parsing error. *)
Lemma missing_credits_reported_as_zero :
  creditsHandler
    (Demo.world (Demo.accepted (VObj [("activated", VBool true)]))) Demo.runtime =
  ([Fetch "https://testnet.launchtube.xyz/info" "GET"
      [("Authorization", "Bearer test-api-key")] None],
   Ok (true, CreditsReport true (Some 0%Z) (0%Z, 10000000%Z) "0" false)).
Proof. reflexivity. Qed.

(* ================================================================== *)
(** * Part III. Further properties of the code *)
(* ================================================================== *)

(** ** Requests of the relay client *)

Lemma post_request_eq (w : World) (cfg : LaunchtubeConfig) (endpoint body : string) :
  makeRequest w (mkService (Some cfg)) endpoint (Some "POST") (Some body) formHeaders =
  ([postCall cfg endpoint body], accept (postAnswer w cfg endpoint body)).
Proof.
  unfold makeRequest, postAnswer, postCall, submitHeaders, formHeaders, accept.
  cbn [config].
  cbn [fold_left assign fst snd String.eqb Ascii.eqb Bool.eqb orElse present show negb].
  rewrite fetchM_eq.
  destruct (fetch w _ _ _ _) as [r|m]; [|reflexivity].
  rewrite bind_Ok. cbn [trace outcome fst snd app].
  destruct (ok r); cbn [negb]; [reflexivity|].
  unfold lift. destruct (text r) as [t|m]; reflexivity.
Qed.

Lemma activateToken_initialized (w : World) (cfg : LaunchtubeConfig) (token : string) :
  activateToken w (mkService (Some cfg)) token =
  ([postCall cfg "/activate" ("token=" ++ encode token)],
   match accept (postAnswer w cfg "/activate" ("token=" ++ encode token)) with
   | Ok _ => Ok tt
   | Throw m => Throw m
   end).
Proof.
  unfold activateToken. cbv zeta.
  change (serialize (append "token" token [])) with ("token=" ++ encode token).
  rewrite post_request_eq.
  destruct (accept _) as [r|m]; reflexivity.
Qed.

Lemma claimToken_initialized (w : World) (cfg : LaunchtubeConfig) (code : string) :
  claimToken w (mkService (Some cfg)) code =
  ([postCall cfg "/claim" ("code=" ++ encode code)],
   match accept (postAnswer w cfg "/claim" ("code=" ++ encode code)) with
   | Throw m => Throw m
   | Ok r =>
       match text r with
       | Throw m => Throw m
       | Ok html =>
           match Re.search html with
           | None => Throw "Could not extract token from claim response"
           | Some token => Ok token
           end
       end
   end).
Proof.
  unfold claimToken. cbv zeta.
  change (serialize (append "code" code [])) with ("code=" ++ encode code).
  rewrite post_request_eq.
  destruct (accept _) as [r|m]; [|reflexivity].
  rewrite bind_Ok. unfold lift. destruct (text r) as [html|m]; [|reflexivity].
  rewrite bind_Ok. cbn [trace outcome fst snd app].
  destruct (Re.search html); reflexivity.
Qed.

Lemma accept_ok (answer : Res Response) (r : Response) :
  accept answer = Ok r <-> answer = Ok r /\ ok r = true.
Proof.
  unfold accept. destruct answer as [r'|m].
  - destruct (ok r') eqn:E.
    + split.
      * intros H. injection H as <-. now split.
      * intros [H _]. exact H.
    + split.
      * destruct (text r'); discriminate.
      * intros [H Hok]. injection H as <-. congruence.
  - split; [discriminate|intros [H _]; discriminate].
Qed.

(** ** The pattern of [claimToken] *)

Lemma takeWhile_dropWhile (cls : ascii -> bool) (s : string) :
  s = Re.takeWhile cls s ++ Re.dropWhile cls s.
Proof.
  induction s as [|c r IH]; simpl; [reflexivity|].
  destruct (cls c); simpl; [now rewrite <- IH | reflexivity].
Qed.

Lemma takeWhile_all (cls : ascii -> bool) (s : string) :
  Str.all_in cls (Re.takeWhile cls s) = true.
Proof.
  induction s as [|c r IH]; simpl; [reflexivity|].
  destruct (cls c) eqn:E; simpl; [now rewrite E | reflexivity].
Qed.

Lemma dropWhile_all (cls : ascii -> bool) (p s : string) :
  Str.all_in cls p = true -> Re.dropWhile cls (p ++ s) = Re.dropWhile cls s.
Proof.
  induction p as [|c r IH]; simpl; [reflexivity|].
  intros H. apply andb_true_iff in H. destruct H as [Hc Hr]. rewrite Hc. now apply IH.
Qed.

Lemma takeWhile_all_app (cls : ascii -> bool) (p s : string) :
  Str.all_in cls p = true ->
  Re.takeWhile cls (p ++ s) = p ++ Re.takeWhile cls s.
Proof.
  induction p as [|c r IH]; simpl; [reflexivity|].
  intros H. apply andb_true_iff in H. destruct H as [Hc Hr]. rewrite Hc.
  now rewrite IH.
Qed.

Lemma append_assoc (a b c : string) : (a ++ b) ++ c = a ++ (b ++ c).
Proof. induction a as [|x r IH]; simpl; [reflexivity | now rewrite IH]. Qed.

Lemma append_nil_r (a : string) : a ++ "" = a.
Proof. induction a as [|x r IH]; simpl; [reflexivity | now rewrite IH]. Qed.

Lemma lower_app (a b : string) : Str.lower (a ++ b) = Str.lower a ++ Str.lower b.
Proof. induction a as [|x r IH]; simpl; [reflexivity | now rewrite IH]. Qed.

Lemma lower_token_length (m : string) :
  Str.lower m = "token" ->
  exists c1 c2 c3 c4 c5,
    m = String c1 (String c2 (String c3 (String c4 (String c5 EmptyString)))).
Proof.
  destruct m as [|c1 [|c2 [|c3 [|c4 [|c5 [|c6 m']]]]]]; try discriminate.
  intros _. now exists c1, c2, c3, c4, c5.
Qed.

Lemma marker_split (s : string) :
  Re.marker s = true ->
  exists m, s = m ++ Re.drop 5 s /\ Str.lower m = "token".
Proof.
  unfold Re.marker.
  destruct s as [|c1 [|c2 [|c3 [|c4 [|c5 r]]]]];
    cbn [Str.lower Str.startsWith]; rewrite ?andb_false_r; try discriminate.
  rewrite !andb_true_iff. intros [H1 [H2 [H3 [H4 [H5 _]]]]].
  apply Ascii.eqb_eq in H1, H2, H3, H4, H5.
  exists (String c1 (String c2 (String c3 (String c4 (String c5 EmptyString))))).
  split; [reflexivity|]. cbn [Str.lower]. now rewrite <- H1, <- H2, <- H3, <- H4, <- H5.
Qed.

Lemma marker_intro (m s : string) :
  Str.lower m = "token" -> Re.marker (m ++ s) = true /\ Re.drop 5 (m ++ s) = s.
Proof.
  intros H. destruct (lower_token_length m H) as [c1 [c2 [c3 [c4 [c5 ->]]]]].
  split; [|reflexivity].
  unfold Re.marker. rewrite lower_app, H. cbn. now destruct (Str.lower s).
Qed.

Lemma assignment_not_padding (c : ascii) :
  Re.assignment c = true -> Re.padding c = false.
Proof.
  unfold Re.assignment, Re.padding, Str.is_space, Str.between.
  rewrite orb_true_iff, !N.eqb_eq. intros [H | H]; rewrite H; reflexivity.
Qed.

Lemma tokenChar_not_padding (c : ascii) :
  Re.tokenChar c = true -> Re.padding c = false.
Proof.
  unfold Re.tokenChar, Re.padding. rewrite negb_true_iff, !orb_false_iff.
  intros [[H1 _] H2]. now rewrite H1, H2.
Qed.

(** What a match at the head of a string looks like. *)
Lemma matchAt_sound (s token : string) :
  Re.matchAt s = Some token ->
  token <> "" /\
  Str.all_in Re.tokenChar token = true /\
  exists m p1 c p2 post,
    s = m ++ p1 ++ String c (p2 ++ token ++ post) /\
    Str.lower m = "token" /\
    Str.all_in Re.padding p1 = true /\
    Re.assignment c = true /\
    Str.all_in Re.padding p2 = true.
Proof.
  unfold Re.matchAt. destruct (Re.marker s) eqn:Em; [|discriminate].
  destruct (marker_split s Em) as [m [Hs Hm]].
  destruct (Re.dropWhile Re.padding (Re.drop 5 s)) as [|c r] eqn:E1; [discriminate|].
  destruct (Re.assignment c) eqn:Ec; [|discriminate].
  destruct (Re.takeWhile Re.tokenChar (Re.dropWhile Re.padding r)) as [|x t] eqn:E2;
    [discriminate|].
  intros H. injection H as <-.
  split; [discriminate|]. split.
  - rewrite <- E2. apply takeWhile_all.
  - exists m, (Re.takeWhile Re.padding (Re.drop 5 s)), c,
      (Re.takeWhile Re.padding r),
      (Re.dropWhile Re.tokenChar (Re.dropWhile Re.padding r)).
    split; [|split; [exact Hm|split; [apply takeWhile_all|split;
                                      [exact Ec|apply takeWhile_all]]]].
    rewrite <- E2, <- (takeWhile_dropWhile Re.tokenChar),
      <- (takeWhile_dropWhile Re.padding r), <- E1,
      <- (takeWhile_dropWhile Re.padding). exact Hs.
Qed.

Lemma search_sound (s token : string) :
  Re.search s = Some token ->
  exists pre s', s = pre ++ s' /\ Re.matchAt s' = Some token.
Proof.
  induction s as [|c r IH]; cbn [Re.search].
  - destruct (Re.matchAt "") eqn:E; [|discriminate].
    intros H. injection H as <-. now exists "", "".
  - destruct (Re.matchAt (String c r)) as [t|] eqn:E.
    + intros H. injection H as <-. now exists "", (String c r).
    + intros H. destruct (IH H) as [pre [s' [-> Hm]]].
      now exists (String c pre), s'.
Qed.

Lemma search_skips (pre s : string) :
  (forall i, i < String.length pre -> Re.marker (Re.drop i (pre ++ s)) = false) ->
  Re.search (pre ++ s) = Re.search s.
Proof.
  induction pre as [|c r IH]; intros H; [reflexivity|].
  cbn [String.append Re.search].
  assert (H0 : Re.marker (String c (r ++ s)) = false).
  { apply (H 0). simpl. lia. }
  unfold Re.matchAt at 1. rewrite H0. apply IH.
  intros i Hi. apply (H (S i)). simpl. lia.
Qed.

Lemma search_none (s : string) :
  (forall i, Re.marker (Re.drop i s) = false) -> Re.search s = None.
Proof.
  induction s as [|c r IH]; intros H.
  - reflexivity.
  - cbn [Re.search]. unfold Re.matchAt at 1.
    pose proof (H 0) as H0. cbn [Re.drop] in H0. rewrite H0.
    apply IH. intros i. apply (H (S i)).
Qed.

Lemma matchAt_complete (m p1 p2 token post : string) (c : ascii) :
  Str.lower m = "token" ->
  Str.all_in Re.padding p1 = true ->
  Re.assignment c = true ->
  Str.all_in Re.padding p2 = true ->
  token <> "" ->
  Str.all_in Re.tokenChar token = true ->
  Re.takeWhile Re.tokenChar post = "" ->
  Re.matchAt (m ++ p1 ++ String c (p2 ++ token ++ post)) = Some token.
Proof.
  intros Hm H1 Hc H2 Hne Ht Hpost.
  unfold Re.matchAt. destruct (marker_intro m (p1 ++ String c (p2 ++ token ++ post)) Hm)
    as [-> ->].
  rewrite (dropWhile_all _ _ _ H1). cbn [Re.dropWhile].
  rewrite (assignment_not_padding c Hc), Hc, (dropWhile_all _ _ _ H2).
  destruct token as [|x t]; [now elim Hne|].
  cbn [Str.all_in] in Ht. apply andb_true_iff in Ht. destruct Ht as [Hx Ht'].
  cbn [String.append Re.dropWhile]. rewrite (tokenChar_not_padding x Hx).
  cbn [Re.takeWhile]. rewrite Hx, (takeWhile_all_app _ _ _ Ht'), Hpost, append_nil_r.
  reflexivity.
Qed.

(** ** Claiming and activating a token *)

(** X1. A token that [claimToken] returns is never empty and has no
    double quote, apostrophe or white space in it; it stands in the page
    the relay answered with a 2xx status, after the word [token] (in any
    case), an optional run of quotes and white space, a colon or equals
    sign and another optional such run. *)
Theorem claimed_token_is_clean (w : World) (this : LaunchtubeService)
  (code token : string) :
  outcome (claimToken w this code) = Ok token ->
  token <> "" /\
  Str.all_in Re.tokenChar token = true /\
  exists cfg r html,
    config this = Some cfg /\
    postAnswer w cfg "/claim" ("code=" ++ encode code) = Ok r /\
    ok r = true /\
    text r = Ok html /\
    exists pre m p1 c p2 post,
      html = pre ++ m ++ p1 ++ String c (p2 ++ token ++ post) /\
      Str.lower m = "token" /\
      Str.all_in Re.padding p1 = true /\
      Re.assignment c = true /\
      Str.all_in Re.padding p2 = true.
Proof.
  destruct this as [[cfg|]]; [|intros H; simpl in H; discriminate H].
  rewrite (claimToken_initialized w cfg code). cbn [outcome snd].
  destruct (accept _) as [r|m] eqn:Ea; [|discriminate].
  apply accept_ok in Ea. destruct Ea as [Hr Hok].
  destruct (text r) as [html|m] eqn:Et; [|discriminate].
  destruct (Re.search html) as [t|] eqn:Es; [|discriminate].
  intros H. injection H as ->.
  destruct (search_sound html token Es) as [pre [s' [Hh Hm]]].
  destruct (matchAt_sound s' token Hm)
    as [Hne [Hall [m [p1 [c [p2 [post [Hs' [Hlow [H1 [Hc H2]]]]]]]]]]].
  split; [exact Hne|]. split; [exact Hall|].
  exists cfg, r, html. do 4 (split; [assumption || reflexivity|]).
  exists pre, m, p1, c, p2, post. subst s'.
  split; [exact Hh|]. now repeat split.
Qed.

Lemma claimed_token_witness :
  "abc.def" <> "" /\ Str.all_in Re.tokenChar "abc.def" = true.
Proof.
  pose proof
    (claimed_token_is_clean
       (Demo.world
          (Demo.respond 200 []
             ("<p>token=" ++ Demo.quote ++ "abc.def" ++ Demo.quote ++ "</p>")))
       Demo.service "CLAIM-1" "abc.def" eq_refl) as H.
  exact (conj (proj1 H) (proj1 (proj2 H))).
Defined.

(** X2. [claimToken] does not guess: when the page of a 2xx answer has
    the word [token] (in any case) nowhere, it throws [Could not extract
    token from claim response], after the one request it has made. *)
Theorem claim_without_marker_fails (w : World) (cfg : LaunchtubeConfig)
  (code : string) (r : Response) (html : string) :
  postAnswer w cfg "/claim" ("code=" ++ encode code) = Ok r ->
  ok r = true ->
  text r = Ok html ->
  (forall i, Re.marker (Re.drop i html) = false) ->
  claimToken w (mkService (Some cfg)) code =
  ([postCall cfg "/claim" ("code=" ++ encode code)],
   Throw "Could not extract token from claim response").
Proof.
  intros Hr Hok Ht Hno. rewrite claimToken_initialized.
  assert (Ha : accept (postAnswer w cfg "/claim" ("code=" ++ encode code)) = Ok r)
    by (apply accept_ok; now split).
  now rewrite Ha, Ht, (search_none html Hno).
Qed.

Lemma claim_without_marker_witness :
  claimToken (Demo.world (Demo.respond 200 [] "ok")) Demo.service "CLAIM-1" =
  ([postCall Demo.config "/claim" "code=CLAIM-1"],
   Throw "Could not extract token from claim response").
Proof.
  refine (claim_without_marker_fails (Demo.world (Demo.respond 200 [] "ok"))
            Demo.config "CLAIM-1" (mkResponse 200 [] (Ok "ok")) "ok"
            eq_refl eq_refl eq_refl _).
  intros [|[|[|i]]]; reflexivity.
Defined.

(** X3. [claimToken] returns the embedded token: when the first place of
    the page where the word [token] stands is followed by an optional run
    of quotes and white space, a colon or equals sign, another such run
    and a non-empty run of token characters that ends at a quote, an
    apostrophe, white space or the end of the page, the answer is that
    run. *)
Theorem claim_returns_embedded_token (w : World) (cfg : LaunchtubeConfig)
  (code : string) (r : Response) (pre m p1 p2 token post : string) (c : ascii) :
  let html := pre ++ m ++ p1 ++ String c (p2 ++ token ++ post) in
  postAnswer w cfg "/claim" ("code=" ++ encode code) = Ok r ->
  ok r = true ->
  text r = Ok html ->
  (forall i, i < String.length pre -> Re.marker (Re.drop i html) = false) ->
  Str.lower m = "token" ->
  Str.all_in Re.padding p1 = true ->
  Re.assignment c = true ->
  Str.all_in Re.padding p2 = true ->
  token <> "" ->
  Str.all_in Re.tokenChar token = true ->
  Re.takeWhile Re.tokenChar post = "" ->
  claimToken w (mkService (Some cfg)) code =
  ([postCall cfg "/claim" ("code=" ++ encode code)], Ok token).
Proof.
  intros html Hr Hok Ht Hfirst Hm H1 Hc H2 Hne Htok Hpost.
  rewrite claimToken_initialized.
  assert (Ha : accept (postAnswer w cfg "/claim" ("code=" ++ encode code)) = Ok r)
    by (apply accept_ok; now split).
  rewrite Ha, Ht. subst html.
  rewrite (search_skips pre _ Hfirst).
  assert (Hs : Re.search (m ++ p1 ++ String c (p2 ++ token ++ post)) = Some token).
  { pose proof (matchAt_complete m p1 p2 token post c Hm H1 Hc H2 Hne Htok Hpost) as E.
    destruct (m ++ p1 ++ String c (p2 ++ token ++ post)); cbn [Re.search];
      now rewrite E. }
  now rewrite Hs.
Qed.

Lemma claim_returns_embedded_token_witness :
  claimToken
    (Demo.world
       (Demo.respond 200 []
          ("<p>" ++ "Token" ++ " " ++ String ":" (Demo.quote ++ "abc.def" ++
           (Demo.quote ++ "</p>")))))
    Demo.service "CLAIM-1" =
  ([postCall Demo.config "/claim" "code=CLAIM-1"], Ok "abc.def").
Proof.
  refine (claim_returns_embedded_token
            (Demo.world
               (Demo.respond 200 []
                  ("<p>" ++ "Token" ++ " " ++ String ":" (Demo.quote ++ "abc.def" ++
                   (Demo.quote ++ "</p>")))))
            Demo.config "CLAIM-1"
            (mkResponse 200 []
               (Ok ("<p>" ++ "Token" ++ " " ++ String ":" (Demo.quote ++ "abc.def" ++
                    (Demo.quote ++ "</p>")))))
            "<p>" "Token" " " Demo.quote "abc.def" (Demo.quote ++ "</p>") ":"
            eq_refl eq_refl eq_refl _ eq_refl eq_refl eq_refl eq_refl _ eq_refl eq_refl).
  - intros [|[|[|i]]] Hi; try reflexivity. simpl in Hi. lia.
  - discriminate.
Defined.

(** The serializer escapes the UTF-8 bytes of a character: the code unit
    233, the letter e with an acute accent, is sent as [%C3%A9], and a
    space as [+]. *)
Lemma encode_utf8_bytes :
  encode (String (ascii_of_nat 233) "tok en") = "%C3%A9tok+en" /\
  forall c : ascii,
    (128 <= Str.code c)%N ->
    encode (String c EmptyString) =
    percent (192 + Str.code c / 64) ++ percent (128 + Str.code c mod 64).
Proof.
  split; [reflexivity|]. intros c Hc. cbn [encode]. unfold encode_char, utf8.
  assert (Hs : form_safe c = false).
  { destruct c as [[] [] [] [] [] [] [] []]; try reflexivity;
      cbv in Hc; exfalso; now apply Hc. }
  assert (H32 : (Str.code c =? 32)%N = false) by (apply N.eqb_neq; lia).
  assert (Hlt : (Str.code c <? 128)%N = false) by (apply N.ltb_ge; exact Hc).
  rewrite Hs, H32, Hlt. cbn [map String.concat].
  rewrite append_nil_r. reflexivity.
Qed.

(** X4. [activateToken] sends one POST to [/activate] whose form body is
    the encoded token. It returns exactly when the relay answers that
    request with a 2xx status, whatever the body; for any other status
    with a readable body it throws the error that carries status and
    body text. *)
Theorem activateToken_outcome (w : World) (cfg : LaunchtubeConfig) (token : string) :
  let call := postCall cfg "/activate" ("token=" ++ encode token) in
  let answer := postAnswer w cfg "/activate" ("token=" ++ encode token) in
  let run := activateToken w (mkService (Some cfg)) token in
  trace run = [call] /\
  (outcome run = Ok tt <-> exists r, answer = Ok r /\ ok r = true) /\
  (forall r t,
      answer = Ok r -> ok r = false -> text r = Ok t ->
      outcome run = Throw (apiError r t)) /\
  (forall m, answer = Throw m -> outcome run = Throw m).
Proof.
  cbv zeta. rewrite activateToken_initialized. cbn [trace outcome fst snd].
  split; [reflexivity|]. split; [|split].
  - destruct (accept _) as [r|m] eqn:Ea.
    + apply accept_ok in Ea. split; [intros _; now exists r | reflexivity].
    + split; [discriminate|]. intros [r Hr]. apply accept_ok in Hr. congruence.
  - intros r t Hr Hok Ht. unfold accept. now rewrite Hr, Hok, Ht.
  - intros m Hm. unfold accept. now rewrite Hm.
Qed.

(** X5. A service that was never given a runtime stays uninitialized, and
    an uninitialized service makes no request at all: [submitTransaction]
    answers the error result, the other four methods throw. *)
Theorem uninitialized_service_is_silent (w : World)
  (resolve : string -> string -> Res string) (this : LaunchtubeService)
  (request : Req.LaunchtubeSubmissionRequest) (token code : string)
  (gen : Gen.LaunchtubeGenerateTokensRequest) :
  config this = None ->
  initialize w None this = ret this /\
  submitTransaction w this request =
  ([], Ok (mkSubmission "error" VUndefined
             (Some "LaunchtubeService not initialized") None)) /\
  checkCredits w this = ([], Throw "LaunchtubeService not initialized") /\
  activateToken w this token = ([], Throw "LaunchtubeService not initialized") /\
  claimToken w this code = ([], Throw "LaunchtubeService not initialized") /\
  generateTokens w resolve this gen =
  ([], Throw (typeErrorMessage w VUndefined "LAUNCHTUBE_BASE_URL")).
Proof.
  destruct this as [[cfg|]]; [discriminate|]. intros _. repeat split.
Qed.

Lemma uninitialized_service_witness :
  checkCredits (Demo.world (Demo.accepted (VObj []))) newService =
  ([], Throw "LaunchtubeService not initialized").
Proof.
  exact (proj1 (proj2 (proj2
    (uninitialized_service_is_silent (Demo.world (Demo.accepted (VObj [])))
       (fun p b => Ok (b ++ p)) newService (Req.mk None None None None)
       "t" "c" (Gen.mk 60 100 1) eq_refl)))).
Defined.

(** ** Token generation and authentication *)

Lemma generateTokens_initialized (w : World)
  (resolve : string -> string -> Res string) (cfg : LaunchtubeConfig)
  (request : Gen.LaunchtubeGenerateTokensRequest) :
  generateTokens w resolve (mkService (Some cfg)) request =
  match genUrl resolve (LAUNCHTUBE_BASE_URL cfg) request with
  | Throw m => ([], Throw m)
  | Ok url =>
      ([Fetch url "GET" [("Authorization", "Bearer " ++ LAUNCHTUBE_API_KEY cfg)] None],
       match fetch w url "GET"
               [("Authorization", "Bearer " ++ LAUNCHTUBE_API_KEY cfg)] None with
       | Throw m => Throw m
       | Ok r =>
           if ok r then
             match text r with
             | Throw m => Throw m
             | Ok t =>
                 match jsonParse w t with
                 | Throw m => Throw m
                 | Ok tokens =>
                     if nullish tokens
                     then Throw (typeErrorMessage w tokens "length")
                     else Ok tokens
                 end
             end
           else Throw ("Failed to generate tokens: " ++ Str.of_Z (httpStatus r))
       end)
  end.
Proof.
  unfold generateTokens. cbn [config]. unfold lift.
  destruct (genUrl resolve (LAUNCHTUBE_BASE_URL cfg) request) as [url|m];
    [|reflexivity].
  rewrite bind_Ok, fetchM_eq. cbn [trace outcome fst snd app].
  destruct (fetch w url _ _ _) as [r|m]; [|reflexivity].
  rewrite bind_Ok. cbn [trace outcome fst snd app].
  destruct (ok r); cbn [negb]; [|reflexivity].
  unfold json, lift. destruct (text r) as [t|m]; [|reflexivity].
  rewrite bind_Ok. cbn [trace outcome fst snd app].
  destruct (jsonParse w t) as [tokens|m]; [|reflexivity].
  rewrite bind_Ok, getProp_eq. cbn [trace outcome fst snd app].
  destruct (nullish tokens); reflexivity.
Qed.

(** ** Decimal numerals *)

Lemma uint_digits (d : Decimal.uint) :
  Str.all_in Str.is_digit (NilEmpty.string_of_uint d) = true.
Proof. induction d; simpl; try reflexivity; exact IHd. Qed.

Lemma leading_digits_uint (d : Decimal.uint) (rest : string) :
  Str.leading_digits (NilEmpty.string_of_uint d ++ rest) =
  (digitsOf d ++ Str.leading_digits rest)%list.
Proof. induction d; simpl; try reflexivity; now rewrite IHd. Qed.

Lemma decimal_acc (d : Decimal.uint) (acc : positive) (z : Z) :
  z = Zpos acc ->
  fold_left (fun a x => (10 * a + Z.of_N x)%Z) (digitsOf d) z =
  Zpos (Pos.of_uint_acc d acc).
Proof.
  revert acc z. induction d; intros acc z Hz;
    cbn [digitsOf fold_left Pos.of_uint_acc];
    try (exact Hz); apply IHd; subst z; lia.
Qed.

Lemma decimal_value_uint (d : Decimal.uint) :
  Str.decimal_value (digitsOf d) = Z.of_N (N.of_uint d).
Proof.
  unfold Str.decimal_value, N.of_uint.
  induction d; cbn [digitsOf fold_left Pos.of_uint Z.of_N];
    try reflexivity; try exact IHd; apply decimal_acc; reflexivity.
Qed.

Lemma to_uint_not_nil (n : N) : N.to_uint n <> Decimal.Nil.
Proof.
  destruct n as [|p]; [discriminate|]. apply DecimalPos.Unsigned.to_uint_nonnil.
Qed.

Lemma of_N_eq (n : N) : Str.of_N n = NilEmpty.string_of_uint (N.to_uint n).
Proof.
  unfold Str.of_N, NilZero.string_of_uint.
  pose proof (to_uint_not_nil n) as H. destruct (N.to_uint n); [now elim H|..];
    reflexivity.
Qed.

Lemma of_N_digits (n : N) : Str.all_in Str.is_digit (Str.of_N n) = true.
Proof. rewrite of_N_eq. apply uint_digits. Qed.

(** Reading back the numeral of [n], whatever follows it that is not a
    digit. *)
Lemma leading_digits_of_N (n : N) (rest : string) :
  Str.leading_digits rest = [] ->
  Str.leading_digits (Str.of_N n ++ rest) <> [] /\
  Str.decimal_value (Str.leading_digits (Str.of_N n ++ rest)) = Z.of_N n.
Proof.
  intros Hr. rewrite of_N_eq, leading_digits_uint, Hr, app_nil_r. split.
  - pose proof (to_uint_not_nil n) as H. destruct (N.to_uint n); [now elim H|..];
      discriminate.
  - rewrite decimal_value_uint. now rewrite DecimalN.Unsigned.of_to.
Qed.

Lemma of_N_head (n : N) :
  exists c r, Str.of_N n = String c r /\ Str.is_digit c = true.
Proof.
  rewrite of_N_eq. pose proof (to_uint_not_nil n) as H.
  destruct (N.to_uint n); [now elim H|..]; simpl; eexists; eexists;
    (split; [reflexivity|reflexivity]).
Qed.

Lemma parseInt10_digit_head (c : ascii) (r : string) :
  Str.is_digit c = true ->
  parseInt10 (String c r) =
  match Str.leading_digits (String c r) with
  | [] => None
  | ds => Some (Str.decimal_value ds)
  end.
Proof.
  intros Hd. unfold parseInt10.
  assert (Hs : Str.is_space c = false).
  { unfold Str.is_digit, Str.is_space, Str.between in *.
    apply andb_true_iff in Hd. destruct Hd as [H1 H2].
    apply N.leb_le in H1, H2.
    rewrite !orb_false_iff, andb_false_iff, !N.eqb_neq, !N.leb_gt. lia. }
  cbn [Str.trimStart]. rewrite Hs.
  assert (Hm : Str.code c <> 45%N /\ Str.code c <> 43%N).
  { unfold Str.is_digit, Str.between in Hd. apply andb_true_iff in Hd.
    destruct Hd as [H1 H2]. apply N.leb_le in H1, H2. lia. }
  destruct Hm as [Hminus Hplus].
  destruct c as [b0 b1 b2 b3 b4 b5 b6 b7].
  destruct b0, b1, b2, b3, b4, b5, b6, b7;
    try reflexivity; exfalso; (now apply Hminus) || (now apply Hplus).
Qed.

(** [parseInt] reads back the numeral of every integer, and ignores what
    follows it. *)
Lemma parseInt10_of_Z (z : Z) (rest : string) :
  Str.leading_digits rest = [] ->
  parseInt10 (Str.of_Z z ++ rest) = Some z.
Proof.
  intros Hr.
  assert (Hpos : forall n, parseInt10 (Str.of_N n ++ rest) = Some (Z.of_N n)).
  { intros n. destruct (of_N_head n) as [c [r [E Hd]]].
    destruct (leading_digits_of_N n rest Hr) as [Hne Hv].
    rewrite E in *. cbn [String.append] in *.
    rewrite (parseInt10_digit_head c (r ++ rest) Hd).
    destruct (Str.leading_digits (String c (r ++ rest))); [now elim Hne|].
    now rewrite Hv. }
  destruct z as [|p|p].
  - apply (Hpos 0%N).
  - apply (Hpos (Npos p)).
  - unfold Str.of_Z, parseInt10. cbn [String.append Str.trimStart].
    change (Str.is_space "-") with false. cbv iota.
    destruct (leading_digits_of_N (Npos p) rest Hr) as [Hne Hv].
    destruct (Str.leading_digits (Str.of_N (N.pos p) ++ rest)); [now elim Hne|].
    now rewrite Hv.
Qed.

Lemma encode_safe (s : string) :
  Str.all_in form_safe s = true -> encode s = s.
Proof.
  induction s as [|c r IH]; [reflexivity|].
  cbn [Str.all_in encode]. intros H. apply andb_true_iff in H. destruct H as [Hc Hr].
  unfold encode_char. rewrite Hc, (IH Hr). reflexivity.
Qed.

Lemma all_in_weaken (P Q : ascii -> bool) (s : string) :
  (forall c, P c = true -> Q c = true) ->
  Str.all_in P s = true -> Str.all_in Q s = true.
Proof.
  intros HPQ. induction s as [|c r IH]; [reflexivity|].
  cbn [Str.all_in]. rewrite !andb_true_iff. intros [Hc Hr]. split; auto.
Qed.

Lemma digit_form_safe (c : ascii) : Str.is_digit c = true -> form_safe c = true.
Proof. unfold form_safe. intros ->. now rewrite orb_true_r. Qed.

Lemma encode_of_Z (z : Z) : encode (Str.of_Z z) = Str.of_Z z.
Proof.
  apply encode_safe. destruct z as [|p|p]; [reflexivity| |].
  - apply (all_in_weaken _ _ _ digit_form_safe), of_N_digits.
  - unfold Str.of_Z. cbn [String.append Str.all_in].
    change (form_safe "-") with true.
    apply (all_in_weaken _ _ _ digit_form_safe), of_N_digits.
Qed.

(** X6. [generateTokens], for three integers and a base URL against
    which [/gen] resolves, asks once, with the three numbers in the query
    in the order [ttl], [credits], [count] and the same bearer key as
    every other call. Its answer is the parsed JSON body of a 2xx
    response, whatever it is, unless that body is [null], for which it
    throws; on any other status the error names the status and never the
    body. *)
Theorem generateTokens_outcome (w : World)
  (resolve : string -> string -> Res string) (cfg : LaunchtubeConfig)
  (request : Gen.LaunchtubeGenerateTokensRequest) (resolved : string) :
  resolve "/gen" (LAUNCHTUBE_BASE_URL cfg) = Ok resolved ->
  safeInteger (Gen.ttl request) && safeInteger (Gen.credits request)
  && safeInteger (Gen.count request) = true ->
  let url := resolved ++ "?ttl=" ++ Str.of_Z (Gen.ttl request)
             ++ "&credits=" ++ Str.of_Z (Gen.credits request)
             ++ "&count=" ++ Str.of_Z (Gen.count request) in
  let auth := [("Authorization", "Bearer " ++ LAUNCHTUBE_API_KEY cfg)] in
  let run := generateTokens w resolve (mkService (Some cfg)) request in
  trace run = [Fetch url "GET" auth None] /\
  (forall r t tokens,
      fetch w url "GET" auth None = Ok r -> ok r = true -> text r = Ok t ->
      jsonParse w t = Ok tokens ->
      outcome run =
      if nullish tokens then Throw (typeErrorMessage w tokens "length")
      else Ok tokens) /\
  (forall r,
      fetch w url "GET" auth None = Ok r -> ok r = false ->
      outcome run = Throw ("Failed to generate tokens: " ++ Str.of_Z (httpStatus r))).
Proof.
  intros Ho _ url auth run. subst run.
  rewrite generateTokens_initialized. unfold genUrl. rewrite Ho.
  assert (Hu : resolved ++ "?" ++ serialize [("ttl", Str.of_Z (Gen.ttl request));
                                           ("credits", Str.of_Z (Gen.credits request));
                                           ("count", Str.of_Z (Gen.count request))]
               = url).
  { unfold url, serialize. cbn [map fst snd Str.join].
    rewrite !encode_of_Z. cbn [encode encode_char String.append].
    change (form_safe "t") with true. change (form_safe "l") with true.
    change (form_safe "c") with true. change (form_safe "r") with true.
    change (form_safe "e") with true. change (form_safe "d") with true.
    change (form_safe "i") with true. change (form_safe "s") with true.
    change (form_safe "o") with true. change (form_safe "u") with true.
    change (form_safe "n") with true. cbv iota. cbn [String.append].
    rewrite !append_assoc. reflexivity. }
  rewrite Hu. cbn [trace outcome fst snd]. split; [reflexivity|]. split.
  - intros r t tokens Hr Hok Ht Hj. fold auth. now rewrite Hr, Hok, Ht, Hj.
  - intros r Hr Hok. fold auth. now rewrite Hr, Hok.
Qed.

Lemma generateTokens_witness :
  trace (generateTokens (Demo.world (Demo.respond 403 [] "forbidden"))
           (fun p b => Ok (b ++ p)) Demo.service (Gen.mk 3600 1000000 5)) =
  [Fetch "https://testnet.launchtube.xyz/gen?ttl=3600&credits=1000000&count=5"
     "GET" [("Authorization", "Bearer test-api-key")] None].
Proof.
  exact (proj1
    (generateTokens_outcome (Demo.world (Demo.respond 403 [] "forbidden"))
       (fun p b => Ok (b ++ p)) Demo.config (Gen.mk 3600 1000000 5)
       "https://testnet.launchtube.xyz/gen" eq_refl eq_refl)).
Defined.

(** ** Every request carries the key *)

Lemma submitTransaction_run (w : World) (cfg : LaunchtubeConfig)
  (request : Req.LaunchtubeSubmissionRequest) :
  submitTransaction w (mkService (Some cfg)) request =
  ([submitCall cfg request], Ok (submissionOf w (relayAnswer w cfg request))).
Proof. apply submitTransaction_initialized. Qed.

(** X7. Every request the client sends carries the configured key as a
    bearer token, the privileged token generation included; and the
    requests of [submitTransaction], [checkCredits], [activateToken] and
    [claimToken] go to the configured base URL followed by their
    endpoint. *)
Theorem every_request_bears_the_key (w : World)
  (resolve : string -> string -> Res string) (cfg : LaunchtubeConfig)
  (request : Req.LaunchtubeSubmissionRequest) (token code : string)
  (gen : Gen.LaunchtubeGenerateTokensRequest) :
  let this := mkService (Some cfg) in
  Forall (fun e => bearerOf e = Some ("Bearer " ++ LAUNCHTUBE_API_KEY cfg))
    (trace (submitTransaction w this request) ++ trace (checkCredits w this)
     ++ trace (activateToken w this token) ++ trace (claimToken w this code)
     ++ trace (generateTokens w resolve this gen)) /\
  map urlOf
    (trace (submitTransaction w this request) ++ trace (checkCredits w this)
     ++ trace (activateToken w this token) ++ trace (claimToken w this code)) =
  [Some (LAUNCHTUBE_BASE_URL cfg ++ "/"); Some (LAUNCHTUBE_BASE_URL cfg ++ "/info");
   Some (LAUNCHTUBE_BASE_URL cfg ++ "/activate");
   Some (LAUNCHTUBE_BASE_URL cfg ++ "/claim")].
Proof.
  cbv zeta.
  rewrite submitTransaction_run, checkCredits_initialized,
    activateToken_initialized, claimToken_initialized, generateTokens_initialized.
  cbn [trace fst app]. split; [|reflexivity].
  repeat (constructor; [reflexivity|]).
  destruct (genUrl resolve (LAUNCHTUBE_BASE_URL cfg) gen) as [url|m];
    cbn [fst]; repeat constructor.
Qed.

(** ** The configuration *)

Lemma validateLaunchtubeConfig_eq (w : World) (rt : Runtime) :
  let key := orElse (getSetting rt "LAUNCHTUBE_API_KEY") (env w "LAUNCHTUBE_API_KEY") in
  let url := orElse (orElse (getSetting rt "LAUNCHTUBE_BASE_URL")
                            (env w "LAUNCHTUBE_BASE_URL"))
                    (Some "https://testnet.launchtube.xyz") in
  let net := orElse (orElse (getSetting rt "STELLAR_NETWORK")
                            (env w "STELLAR_NETWORK"))
                    (Some "testnet") in
  validateLaunchtubeConfig w rt =
  ([], if present key && isUrl w (show url)
          && ((show net =? "testnet") || (show net =? "mainnet"))
       then Ok (mkConfig (show key) (show url) (show net))
       else Throw ("Launchtube plugin configuration validation failed:" ++ newline
                   ++ Str.join newline (schemaIssues w key url net))).
Proof.
  cbv zeta. unfold validateLaunchtubeConfig. cbv zeta.
  set (key := orElse (getSetting rt "LAUNCHTUBE_API_KEY") _).
  set (url := orElse (orElse (getSetting rt "LAUNCHTUBE_BASE_URL") _) _).
  set (net := orElse (orElse (getSetting rt "STELLAR_NETWORK") _) _).
  unfold schemaIssues.
  destruct key as [| |[|c k]]; cbn [present String.eqb negb String.length Nat.leb andb];
    destruct (isUrl w (show url)); cbn [andb app];
      destruct ((show net =? "testnet") || (show net =? "mainnet"));
      reflexivity.
Qed.

Lemma orElse_present (a b : optional string) :
  present a = true -> orElse a b = a.
Proof. unfold orElse. now intros ->. Qed.

Lemma orElse_absent (a b : optional string) :
  present a = false -> orElse a b = b.
Proof. unfold orElse. now intros ->. Qed.

(** X8. A configuration that validates has a non-empty key, a base URL
    that is a URL and a network that is [testnet] or [mainnet]. Each of
    its fields is the runtime's setting when that is present; the
    environment is asked only when it is not; and with neither, the base
    URL and the network are those of the test network. Validation
    succeeds exactly when the three conditions hold of the values so
    chosen. *)
Theorem validated_config (w : World) (rt : Runtime) :
  let key := orElse (getSetting rt "LAUNCHTUBE_API_KEY") (env w "LAUNCHTUBE_API_KEY") in
  let url := orElse (orElse (getSetting rt "LAUNCHTUBE_BASE_URL")
                            (env w "LAUNCHTUBE_BASE_URL"))
                    (Some "https://testnet.launchtube.xyz") in
  let net := orElse (orElse (getSetting rt "STELLAR_NETWORK")
                            (env w "STELLAR_NETWORK"))
                    (Some "testnet") in
  ((exists cfg, outcome (validateLaunchtubeConfig w rt) = Ok cfg) <->
   present key = true /\ isUrl w (show url) = true /\
   (show net = "testnet" \/ show net = "mainnet")) /\
  (forall cfg,
      outcome (validateLaunchtubeConfig w rt) = Ok cfg ->
      LAUNCHTUBE_API_KEY cfg <> "" /\
      isUrl w (LAUNCHTUBE_BASE_URL cfg) = true /\
      (STELLAR_NETWORK cfg = "testnet" \/ STELLAR_NETWORK cfg = "mainnet") /\
      (present (getSetting rt "LAUNCHTUBE_API_KEY") = true ->
       Some (LAUNCHTUBE_API_KEY cfg) = getSetting rt "LAUNCHTUBE_API_KEY") /\
      (present (getSetting rt "LAUNCHTUBE_BASE_URL") = true ->
       Some (LAUNCHTUBE_BASE_URL cfg) = getSetting rt "LAUNCHTUBE_BASE_URL") /\
      (present (getSetting rt "STELLAR_NETWORK") = true ->
       Some (STELLAR_NETWORK cfg) = getSetting rt "STELLAR_NETWORK") /\
      (present (getSetting rt "LAUNCHTUBE_BASE_URL") = false ->
       present (env w "LAUNCHTUBE_BASE_URL") = false ->
       LAUNCHTUBE_BASE_URL cfg = "https://testnet.launchtube.xyz") /\
      (present (getSetting rt "STELLAR_NETWORK") = false ->
       present (env w "STELLAR_NETWORK") = false ->
       STELLAR_NETWORK cfg = "testnet")).
Proof.
  cbv zeta. rewrite validateLaunchtubeConfig_eq. cbv zeta. cbn [outcome snd].
  set (key := orElse (getSetting rt "LAUNCHTUBE_API_KEY") _).
  set (url := orElse (orElse (getSetting rt "LAUNCHTUBE_BASE_URL") _) _).
  set (net := orElse (orElse (getSetting rt "STELLAR_NETWORK") _) _).
  assert (Hcond : present key && isUrl w (show url)
                  && ((show net =? "testnet") || (show net =? "mainnet")) = true <->
                  present key = true /\ isUrl w (show url) = true /\
                  (show net = "testnet" \/ show net = "mainnet")).
  { rewrite !andb_true_iff, orb_true_iff, !String.eqb_eq. tauto. }
  split.
  - rewrite <- Hcond.
    destruct (present key && isUrl w (show url) && _).
    + split; [reflexivity | intros _; eexists; reflexivity].
    + split; [intros [cfg H]; discriminate | discriminate].
  - intros cfg.
    destruct (present key && isUrl w (show url) && _); [|discriminate].
    destruct (proj1 Hcond eq_refl) as [Hk [Hu Hn]].
    intros H. injection H as <-. cbn [LAUNCHTUBE_API_KEY LAUNCHTUBE_BASE_URL STELLAR_NETWORK].
    split.
    { destruct key as [| |k]; [discriminate|discriminate|]. simpl in Hk. simpl.
      apply negb_true_iff in Hk. now apply String.eqb_neq in Hk. }
    split; [exact Hu|]. split; [exact Hn|].
    split.
    { intros Hp. subst key. rewrite (orElse_present _ _ Hp).
      destruct (getSetting rt "LAUNCHTUBE_API_KEY"); [reflexivity|discriminate]. }
    split.
    { intros Hp. subst url.
      rewrite (orElse_present _ (env w "LAUNCHTUBE_BASE_URL") Hp),
        (orElse_present _ (Some "https://testnet.launchtube.xyz") Hp).
      destruct (getSetting rt "LAUNCHTUBE_BASE_URL"); [reflexivity|discriminate]. }
    split.
    { intros Hp. subst net.
      rewrite (orElse_present _ (env w "STELLAR_NETWORK") Hp),
        (orElse_present _ (Some "testnet") Hp).
      destruct (getSetting rt "STELLAR_NETWORK"); [reflexivity|discriminate]. }
    split.
    { intros H1 H2. subst url. rewrite (orElse_absent _ _ H1).
      now rewrite (orElse_absent _ _ H2). }
    { intros H1 H2. subst net. rewrite (orElse_absent _ _ H1).
      now rewrite (orElse_absent _ _ H2). }
Qed.

(** ** The handlers, step by step *)

Lemma initialize_run (w : World) (rt : Runtime) :
  initialize w (Some rt) newService =
  ([], match outcome (validateLaunchtubeConfig w rt) with
       | Ok cfg => Ok (mkService (Some cfg))
       | Throw m => Throw m
       end).
Proof.
  unfold initialize.
  rewrite (M_eta (validateLaunchtubeConfig w rt)), validateLaunchtubeConfig_silent.
  now destruct (outcome (validateLaunchtubeConfig w rt)).
Qed.

(** The step of the handler that yields the wire transaction. *)
Lemma submitHandler_run (w : World) (rt : Runtime) (d : StellarTransactionDetails) :
  let wire :=
    if strictEq (type d) "xdr" && present (xdr d) then ret (show (xdr d))
    else buildTransactionXDR w rt d in
  submitHandler w rt d =
  if absentOrValid (sourceAccount d) && absentOrValid (destinationAccount d) then
    match outcome (validateLaunchtubeConfig w rt) with
    | Throw m => ([], Ok (false, Failed (Some m)))
    | Ok cfg =>
        match outcome wire with
        | Throw m => (trace wire, Ok (false, Failed (Some m)))
        | Ok x =>
            ((trace wire ++ [submitCall cfg (wireRequest x)])%list,
             Ok (handlerAnswer d
                   (submissionOf w (relayAnswer w cfg (wireRequest x)))))
        end
    end
  else
    ([], Ok (false,
             Failed (Some (if absentOrValid (sourceAccount d)
                           then destinationFormatError d
                           else sourceFormatError d)))).
Proof.
  cbv zeta.
  destruct (absentOrValid (sourceAccount d) && absentOrValid (destinationAccount d))
    eqn:Ea; [|now apply submitHandler_rejects_addresses].
  apply andb_true_iff in Ea. destruct Ea as [Es Ed].
  unfold submitHandler. rewrite validateAddresses_eq, Es, Ed, bind_Ok.
  cbn [trace outcome fst snd app]. rewrite initialize_run.
  destruct (outcome (validateLaunchtubeConfig w rt)) as [cfg|m]; [|reflexivity].
  rewrite bind_Ok. cbn [trace outcome fst snd app].
  set (wire := if strictEq (type d) "xdr" && present (xdr d) then _ else _).
  destruct wire as [t [x|m]]; [|cbn; now rewrite app_nil_r].
  rewrite bind_Ok. cbn [trace outcome fst snd app].
  change (Req.mk (Some x) None None (Some true)) with (wireRequest x).
  rewrite submitTransaction_run, bind_Ok. cbn [trace outcome fst snd app].
  unfold handlerAnswer.
  destruct (status (submissionOf w (relayAnswer w cfg (wireRequest x))) =? "success");
    cbn [trace outcome fst snd ret]; rewrite ?app_nil_r; reflexivity.
Qed.

Lemma selectOperation_local (w : World) (d : StellarTransactionDetails)
  (b : TransactionBuilder) : only local_call (selectOperation w d b).
Proof.
  unfold selectOperation.
  repeat first
    [ apply resolveAsset_calls; reflexivity
    | apply only_mapM; intros ?; apply resolvePathAsset_calls; reflexivity
    | only_step ].
Qed.

Lemma attachMemo_local (w : World) (d : StellarTransactionDetails)
  (b : TransactionBuilder) : only local_call (attachMemo w d b).
Proof. unfold attachMemo. repeat only_step. Qed.

(** The compiler loads the account once, first, and then calls only the
    SDK. *)
Lemma buildTransactionXDR_shape (w : World) (rt : Runtime)
  (d : StellarTransactionDetails) :
  trace (buildTransactionXDR w rt d) = [] \/
  exists rest,
    trace (buildTransactionXDR w rt d) =
    LoadAccount (serverUrlOf rt) (show (sourceAccount d)) :: rest /\
    Forall (fun e => local_call e = true) rest.
Proof.
  unfold buildTransactionXDR. cbv zeta.
  destruct (negb (present (sourceAccount d))); [now left|]. right.
  rewrite trace_bind, loadAccount_eq. cbn [trace outcome fst snd app].
  eexists. split; [reflexivity|].
  destruct (horizonLoadAccount w _ _) as [acc|m]; [|constructor].
  apply (only_bind local_call); [apply selectOperation_local|].
  intros b. apply only_bind; [apply attachMemo_local|].
  intros b'. rewrite buildXDR_eq. apply only_single. reflexivity.
Qed.

Lemma local_not_fetch (t : list event) :
  Forall (fun e => local_call e = true) t -> filter is_fetch t = [] /\ filter is_load t = [].
Proof.
  induction 1 as [|e t He _ [IH1 IH2]]; [now split|].
  destruct e; try discriminate; simpl; now split.
Qed.

Lemma wire_shape (w : World) (rt : Runtime) (d : StellarTransactionDetails) :
  let wire :=
    if strictEq (type d) "xdr" && present (xdr d) then ret (show (xdr d))
    else buildTransactionXDR w rt d in
  trace wire = [] \/
  exists rest,
    trace wire = LoadAccount (serverUrlOf rt) (show (sourceAccount d)) :: rest /\
    Forall (fun e => local_call e = true) rest.
Proof.
  cbv zeta. destruct (strictEq (type d) "xdr" && present (xdr d)); [now left|].
  apply buildTransactionXDR_shape.
Qed.

Lemma wire_counts (w : World) (rt : Runtime) (d : StellarTransactionDetails) :
  let wire :=
    if strictEq (type d) "xdr" && present (xdr d) then ret (show (xdr d))
    else buildTransactionXDR w rt d in
  count_fetch (trace wire) = 0 /\ count_load (trace wire) <= 1.
Proof.
  intros wire. pose proof (wire_shape w rt d) as Hw. cbv zeta in Hw. fold wire in Hw.
  unfold count_fetch, count_load.
  destruct Hw as [-> | [rest [-> Hrest]]]; [simpl; lia|].
  destruct (local_not_fetch rest Hrest) as [Hf Hl]. simpl. rewrite Hf, Hl.
  simpl. lia.
Qed.

(** X9. One handler call makes at most one account load and at most one
    relay submission: its calls are those of the compilation, which are
    either none or the account load followed by SDK calls only, followed
    by nothing or by the single POST to the relay. A transaction is never
    submitted twice, and nothing is compiled after the submission. *)
Theorem handler_single_attempt (w : World) (rt : Runtime)
  (d : StellarTransactionDetails) :
  exists compiled submitted,
    trace (submitHandler w rt d) = (compiled ++ submitted)%list /\
    (compiled = [] \/
     exists rest,
       compiled = LoadAccount (serverUrlOf rt) (show (sourceAccount d)) :: rest /\
       Forall (fun e => local_call e = true) rest) /\
    (submitted = [] \/
     exists cfg x, submitted = [submitCall cfg (wireRequest x)]) /\
    count_fetch (trace (submitHandler w rt d)) <= 1 /\
    count_load (trace (submitHandler w rt d)) <= 1.
Proof.
  rewrite submitHandler_run. cbv zeta.
  set (wire := if strictEq (type d) "xdr" && present (xdr d) then _ else _).
  pose proof (wire_shape w rt d) as Hw. cbv zeta in Hw. fold wire in Hw.
  destruct (wire_counts w rt d) as [Hcf Hcl]. fold wire in Hcf, Hcl.
  destruct (absentOrValid (sourceAccount d) && absentOrValid (destinationAccount d));
    [|exists [], []; cbn; repeat split; auto].
  destruct (outcome (validateLaunchtubeConfig w rt)) as [cfg|m];
    [|exists [], []; cbn; repeat split; auto].
  destruct (outcome wire) as [x|m].
  - exists (trace wire), [submitCall cfg (wireRequest x)]. cbn [trace fst].
    split; [reflexivity|]. split; [exact Hw|]. split; [right; now exists cfg, x|].
    unfold count_fetch, count_load in *. rewrite !filter_app, !length_app.
    simpl. lia.
  - exists (trace wire), []. cbn [trace fst]. rewrite app_nil_r.
    split; [reflexivity|]. split; [exact Hw|]. split; [now left|]. lia.
Qed.

Lemma submissionOf_success (w : World) (answer : Res Response) :
  status (submissionOf w answer) = "success" ->
  exists r t result,
    answer = Ok r /\ ok r = true /\ text r = Ok t /\
    jsonParse w t = Ok result /\ nullish result = false.
Proof.
  unfold submissionOf. destruct answer as [r|m]; [|discriminate].
  destruct (ok r) eqn:Eok; [|destruct (text r); discriminate].
  destruct (text r) as [t|m] eqn:Et; [|discriminate].
  destruct (jsonParse w t) as [result|m] eqn:Ej; [|discriminate].
  destruct (nullish result) eqn:En; [discriminate|].
  intros _. exists r, t, result. repeat split; assumption || reflexivity.
Qed.

Ltac answer_false :=
  exists false; eexists; split; [reflexivity|];
  split; [split; [discriminate | intros [? [? [? [? ?]]]]; discriminate]
         | discriminate].

(** X10. The handler never throws. It returns [true] exactly when its
    callback content reports a submission, and then the compilation (or
    the raw wire payload) went through, exactly one request was sent and
    the relay answered it with a 2xx status and a JSON body other than
    [null]. *)
Theorem handler_answer (w : World) (rt : Runtime) (d : StellarTransactionDetails) :
  exists b c,
    outcome (submitHandler w rt d) = Ok (b, c) /\
    (b = true <-> exists h cr det ty, c = Submitted h cr det ty) /\
    (b = true ->
     count_fetch (trace (submitHandler w rt d)) = 1 /\
     exists cfg x r t result,
       outcome (validateLaunchtubeConfig w rt) = Ok cfg /\
       relayAnswer w cfg (wireRequest x) = Ok r /\
       ok r = true /\ text r = Ok t /\ jsonParse w t = Ok result /\
       nullish result = false /\
       c = Submitted (Js.or (prop result "tx") (prop result "hash"))
             (headers_get (headers r) "X-Credits-Remaining")
             (Some (VObj (assign "creditsRemaining"
                            (headers_get (headers r) "X-Credits-Remaining")
                            (spread result))))
             (type d)).
Proof.
  destruct (wire_counts w rt d) as [Hcf _].
  rewrite submitHandler_run. cbv zeta.
  set (wire := if strictEq (type d) "xdr" && present (xdr d) then _ else _) in *.
  destruct (absentOrValid (sourceAccount d) && absentOrValid (destinationAccount d));
    [|answer_false].
  destruct (outcome (validateLaunchtubeConfig w rt)) as [cfg|m] eqn:Ec; [|answer_false].
  destruct (outcome wire) as [x|m] eqn:Ew; [|answer_false].
  unfold handlerAnswer.
  destruct (status (submissionOf w (relayAnswer w cfg (wireRequest x))) =? "success")
    eqn:Es; [|answer_false].
  apply String.eqb_eq in Es.
  destruct (submissionOf_success w _ Es) as [r [t [result [Hr [Hok [Ht [Hj Hn]]]]]]].
  eexists. eexists. split; [reflexivity|].
  split; [split; [intros _; do 4 eexists; reflexivity | intros _; reflexivity]|].
  intros _. split.
  - cbn [trace fst]. unfold count_fetch in *.
    rewrite filter_app, length_app, Hcf. reflexivity.
  - exists cfg, x, r, t, result. repeat (split; [assumption || reflexivity|]).
    unfold submissionOf. rewrite Hr, Hok, Ht, Hj, Hn.
    cbn [tx details creditsOf]. f_equal.
    clear. induction (spread result) as [|[k v] l IH]; cbn [assign lookup].
    + reflexivity.
    + destruct (k =? "creditsRemaining") eqn:E; cbn [lookup].
      * reflexivity.
      * rewrite E. exact IH.
Qed.

(** X11. A raw wire transaction bypasses the compiler: for an intent of
    type [xdr] that carries its payload, with addresses that pass and a
    configuration that validates, the only call of the handler is the POST
    of that payload, form-encoded, with [sim=true]; no account is loaded
    and the SDK is not used. Without a payload the intent falls to the
    compiler, which rejects it, and nothing is sent. *)
Theorem raw_wire_bypasses_compiler (w : World) (rt : Runtime)
  (d : StellarTransactionDetails) (cfg : LaunchtubeConfig) :
  strictEq (type d) "xdr" = true ->
  absentOrValid (sourceAccount d) && absentOrValid (destinationAccount d) = true ->
  outcome (validateLaunchtubeConfig w rt) = Ok cfg ->
  (present (xdr d) = true ->
   trace (submitHandler w rt d) =
   [Fetch (LAUNCHTUBE_BASE_URL cfg ++ "/") "POST" (submitHeaders cfg)
      (Some ("xdr=" ++ encode (show (xdr d)) ++ "&sim=true"))]) /\
  (present (xdr d) = false ->
   count_fetch (trace (submitHandler w rt d)) = 0 /\
   exists m, outcome (submitHandler w rt d) = Ok (false, Failed (Some m))).
Proof.
  intros Hk Ha Hc. rewrite submitHandler_run. cbv zeta. rewrite Ha, Hc, Hk.
  split; intros Hx; rewrite Hx; cbn [andb].
  - cbn [outcome trace ret fst snd app].
    unfold submitCall, wireRequest, suppliedFields, supplied.
    cbn [Req.xdr Req.func Req.auth Req.sim].
    destruct (xdr d) as [| |x]; [discriminate|discriminate|]. cbn [show].
    cbn [present] in Hx. apply negb_true_iff in Hx. rewrite Hx. reflexivity.
  - assert (Hrec : recognized (type d) = false).
    { apply strictEq_eq in Hk. now rewrite Hk. }
    pose proof (build_when_switch_throws w rt d _
                  (fun b => selectOperation_unrecognized w d b Hrec)) as Hb.
    rewrite Hb.
    destruct (negb (present (sourceAccount d))).
    + split; [reflexivity | eexists; reflexivity].
    + cbn [outcome snd trace fst].
      destruct (horizonLoadAccount w _ _); (split; [reflexivity | eexists; reflexivity]).
Qed.

Lemma raw_wire_witness :
  trace (submitHandler (Demo.world (Demo.accepted (VObj [("tx", VStr "abc123")])))
           Demo.runtime
           (mkDetails (Some "xdr") None None None None None None (Some "AAAA+/8=")
              None None None None None None None None)) =
  [Fetch "https://testnet.launchtube.xyz/" "POST"
     [("Authorization", "Bearer test-api-key");
      ("Content-Type", "application/x-www-form-urlencoded")]
     (Some "xdr=AAAA%2B%2F8%3D&sim=true")].
Proof.
  exact (proj1
    (raw_wire_bypasses_compiler
       (Demo.world (Demo.accepted (VObj [("tx", VStr "abc123")]))) Demo.runtime
       (mkDetails (Some "xdr") None None None None None None (Some "AAAA+/8=")
          None None None None None None None None)
       Demo.config eq_refl eq_refl eq_refl) eq_refl).
Defined.

(** X12. The [validate] of the two actions never throws and answers
    whether the configuration validates. When it answers [false], a
    handler that is run all the same makes no call and returns [false]. *)
Theorem validate_guards_handlers (w : World) (rt : Runtime) :
  exists b,
    validate w rt = ([], Ok b) /\
    (b = true <-> exists cfg, outcome (validateLaunchtubeConfig w rt) = Ok cfg) /\
    (b = false ->
     (forall d, exists c, submitHandler w rt d = ([], Ok (false, c))) /\
     exists m, creditsHandler w rt = ([], Ok (false, CreditsFailed m))).
Proof.
  unfold validate.
  rewrite (M_eta (validateLaunchtubeConfig w rt)), validateLaunchtubeConfig_silent.
  destruct (outcome (validateLaunchtubeConfig w rt)) as [cfg|m] eqn:Ec.
  - exists true. split; [reflexivity|]. split; [|discriminate].
    split; [intros _; now exists cfg | reflexivity].
  - exists false. split; [reflexivity|]. split.
    + split; [discriminate | intros [cfg H]; discriminate].
    + intros _. split.
      * intros d. rewrite submitHandler_run. cbv zeta. rewrite Ec.
        destruct (absentOrValid (sourceAccount d) && absentOrValid (destinationAccount d));
          eexists; reflexivity.
      * unfold creditsHandler. rewrite initialize_run, Ec. eexists. reflexivity.
Qed.

(** ** What the compiler builds *)



(** X14. The compiler takes the network from the runtime setting alone.
    It builds for the public network, and loads the account from the
    public Horizon server, exactly when the setting is [mainnet]. When
    the setting is absent and the environment variable says [mainnet],
    the validated configuration of the relay client is [mainnet] while
    the compiler still builds for the test network. *)
Theorem compiler_network_is_the_runtime_setting (w : World) (rt : Runtime) :
  (passphraseOf rt = PUBLIC <-> getSetting rt "STELLAR_NETWORK" = Some "mainnet") /\
  (serverUrlOf rt = "https://horizon.stellar.org" <->
   getSetting rt "STELLAR_NETWORK" = Some "mainnet") /\
  (present (getSetting rt "STELLAR_NETWORK") = false ->
   env w "STELLAR_NETWORK" = Some "mainnet" ->
   forall cfg,
     outcome (validateLaunchtubeConfig w rt) = Ok cfg ->
     STELLAR_NETWORK cfg = "mainnet" /\
     passphraseOf rt = TESTNET /\
     serverUrlOf rt = "https://horizon-testnet.stellar.org").
Proof.
  unfold passphraseOf, serverUrlOf.
  destruct (strictEq (getSetting rt "STELLAR_NETWORK") "mainnet") eqn:E.
  - pose proof (proj1 (strictEq_setting _ _) E) as H.
    split; [tauto|]. split; [tauto|].
    intros Hp. rewrite H in Hp. discriminate.
  - assert (H : getSetting rt "STELLAR_NETWORK" <> Some "mainnet").
    { intros H. apply strictEq_setting in H. congruence. }
    split; [split; [discriminate | contradiction]|].
    split; [split; [discriminate | contradiction]|].
    intros Hp He cfg Hc. rewrite validateLaunchtubeConfig_eq in Hc. cbv zeta in Hc.
    cbn [outcome snd] in Hc.
    rewrite (orElse_absent (getSetting rt "STELLAR_NETWORK") _ Hp), He in Hc.
    cbn [orElse present String.eqb Ascii.eqb Bool.eqb negb show] in Hc.
    destruct (present _ && isUrl w _ && _); [|discriminate].
    injection Hc as <-. now repeat split.
Qed.

(** X15. An entry of a payment path is resolved like the other assets of
    an intent only when it has a code: an entry without a code (or with
    an empty one) is not the native asset, it is handed to the SDK's
    constructor with that code, whereas an asset without a code elsewhere
    in the intent is native and makes no call. *)
Theorem path_entry_without_code_is_not_native (w : World) (p : AssetRef) :
  (present (code p) = true -> resolvePathAsset w p = resolveAsset w (Some p)) /\
  (present (code p) = false ->
   resolveAsset w (Some p) = ret Native /\
   resolvePathAsset w p =
   ([SdkAsset (code p) (issuer p)],
    checked (sdkAsset w (code p) (issuer p)) (Issued (code p) (issuer p)))).
Proof.
  unfold resolvePathAsset, resolveAsset. cbn [codeOf issuerOf]. split; intros H.
  - rewrite H. cbn [negb]. rewrite orb_false_r.
    now destruct (strictEq (code p) "XLM").
  - rewrite H. cbn [negb]. rewrite orb_true_r. split; [reflexivity|].
    assert (E : strictEq (code p) "XLM" = false).
    { destruct (code p) as [| |c]; [reflexivity|reflexivity|]. simpl in H. simpl.
      apply negb_false_iff, String.eqb_eq in H. now subst. }
    rewrite E. apply newAsset_eq.
Qed.

(** X16. The summary shown for a payment names the asset the compiler
    uses: it says [XLM] exactly when the compiled asset is the native
    one, and otherwise shows the code that goes to the SDK; amount and
    destination are shown as the intent has them. *)
Theorem payment_summary_names_the_compiled_asset (w : World)
  (d : StellarTransactionDetails) :
  strictEq (type d) "payment" = true ->
  let label := show (orElse (codeOf (asset d)) (Some "XLM")) in
  formatTransactionSummary d =
  "Amount: " ++ show (amount d) ++ " " ++ label ++ newline
  ++ "To: " ++ show (destinationAccount d) /\
  (label = "XLM" <-> resolveAsset w (asset d) = ret Native) /\
  (label <> "XLM" ->
   Val label = codeOf (asset d) /\
   trace (resolveAsset w (asset d)) = [SdkAsset (Val label) (issuerOf (asset d))]).
Proof.
  intros Hk label. subst label. unfold formatTransactionSummary. rewrite Hk.
  split; [reflexivity|]. unfold resolveAsset, orElse.
  destruct (codeOf (asset d)) as [| |c]; cbn [present strictEq show negb ofOption];
    [cbn; split; [tauto|]; intros H; now elim H ..|].
  - destruct (c =? "") eqn:E0; cbn [negb show].
    + apply String.eqb_eq in E0. subst c. cbn. split; [tauto|]. intros H. now elim H.
    + rewrite orb_false_r. destruct (c =? "XLM") eqn:E1.
      * apply String.eqb_eq in E1. split; [tauto|]. intros H. now elim H.
      * apply String.eqb_neq in E1. split.
        { split; [contradiction|]. rewrite newAsset_eq. discriminate. }
        { intros _. split; [reflexivity|]. now rewrite newAsset_eq. }
Qed.

Lemma payment_summary_witness :
  formatTransactionSummary
    (Demo.payment "50" (Some (mkAssetRef (Some "USDC") (Some Demo.bob)))) =
  "Amount: 50 USDC" ++ newline ++ "To: " ++ Demo.bob.
Proof.
  exact (proj1
    (payment_summary_names_the_compiled_asset (Demo.world (Demo.accepted (VObj [])))
       (Demo.payment "50" (Some (mkAssetRef (Some "USDC") (Some Demo.bob))))
       eq_refl)).
Defined.

Lemma compiler_network_witness :
  let w := mkWorld (fun k => if k =? "STELLAR_NETWORK" then Some "mainnet" else None)
             (fun _ => true) (fun _ => "invalid") Demo.parse (fun _ _ => "TypeError")
             (fun _ _ _ _ => Throw "offline") (fun _ a => Ok (mkAccount a "1"))
             (fun _ _ => None) (fun _ => None) (fun _ => None) (fun _ => Ok "AAAA") in
  let rt := mkRuntime (fun k => if k =? "LAUNCHTUBE_API_KEY" then Some "key" else None) in
  STELLAR_NETWORK (mkConfig "key" "https://testnet.launchtube.xyz" "mainnet") = "mainnet" /\
  passphraseOf rt = TESTNET /\
  serverUrlOf rt = "https://horizon-testnet.stellar.org".
Proof.
  exact (proj2 (proj2
    (compiler_network_is_the_runtime_setting
       (mkWorld (fun k => if k =? "STELLAR_NETWORK" then Some "mainnet" else None)
          (fun _ => true) (fun _ => "invalid") Demo.parse (fun _ _ => "TypeError")
          (fun _ _ _ _ => Throw "offline") (fun _ a => Ok (mkAccount a "1"))
          (fun _ _ => None) (fun _ => None) (fun _ => None) (fun _ => Ok "AAAA"))
       (mkRuntime (fun k => if k =? "LAUNCHTUBE_API_KEY" then Some "key" else None))))
    eq_refl eq_refl
    (mkConfig "key" "https://testnet.launchtube.xyz" "mainnet") eq_refl).
Defined.

(** ** Credits *)

Lemma checkCredits_object (w : World) (cfg : LaunchtubeConfig) (r : Response)
  (t : string) (props : list (string * value)) :
  infoAnswer w cfg = Ok r -> ok r = true -> text r = Ok t ->
  jsonParse w (Str.trim t) = Ok (VObj props) ->
  checkCredits w (mkService (Some cfg)) =
  ([infoCall cfg],
   Ok (mkCredits
         (show (orElse
                  (if nullish (lookup "credits" props) then None
                   else Some (toString (lookup "credits" props)))
                  (Some "0"))))).
Proof.
  intros Hr Hok Ht Hj. rewrite checkCredits_initialized, Hr, Hok, Ht, Hj. reflexivity.
Qed.

Lemma of_Z_nonempty (z : Z) (rest : string) : present (Some (Str.of_Z z ++ rest)) = true.
Proof.
  destruct z as [|p|p]; [reflexivity| |reflexivity].
  unfold Str.of_Z. destruct (of_N_head (Npos p)) as [c [r [E _]]]. now rewrite E.
Qed.

(** X17. A balance that is an integer is reported exactly. For a 2xx
    [/info] answer whose body parses to an object and an integer [n] that
    a JavaScript number holds exactly: when [credits] is the JSON number
    [n], or a string that consists of the decimal numeral of
    [n] followed by anything that does not start with a digit, the
    handler reports the amount [n] with no parsing error, and [n] over
    ten million as the amount in XLM. Text after the numeral is
    ignored. *)
Theorem integer_credits_are_reported_exactly (w : World) (rt : Runtime)
  (cfg : LaunchtubeConfig) (r : Response) (t : string)
  (props : list (string * value)) (n : Z) (rest : string) :
  outcome (validateLaunchtubeConfig w rt) = Ok cfg ->
  infoAnswer w cfg = Ok r ->
  ok r = true ->
  text r = Ok t ->
  jsonParse w (Str.trim t) = Ok (VObj props) ->
  safeInteger n = true ->
  Str.leading_digits rest = [] ->
  (lookup "credits" props = VNum n ->
   creditsHandler w rt =
   ([infoCall cfg],
    Ok (true, CreditsReport true (Some n) (n, 10000000%Z) (Str.of_Z n) false))) /\
  (lookup "credits" props = VStr (Str.of_Z n ++ rest) ->
   creditsHandler w rt =
   ([infoCall cfg],
    Ok (true, CreditsReport true (Some n) (n, 10000000%Z) (Str.of_Z n ++ rest)
                false))).
Proof.
  intros Hc Hr Hok Ht Hj Hsafe Hrest.
  pose proof (checkCredits_object w cfg r t props Hr Hok Ht Hj) as Hcc.
  split; intros Hl; rewrite Hl in Hcc; cbn [nullish toString] in Hcc.
  - pose proof (of_Z_nonempty n "") as Hp. rewrite append_nil_r in Hp.
    rewrite (orElse_present _ _ Hp) in Hcc. cbn [show ofOption] in Hcc.
    rewrite (creditsHandler_reports w rt cfg _ Hc Hcc).
    pose proof (parseInt10_of_Z n "" eq_refl) as Hparse.
    rewrite append_nil_r in Hparse. now rewrite (parseInt_safe _ n Hparse Hsafe).
  - rewrite (orElse_present _ _ (of_Z_nonempty n rest)) in Hcc. cbn [show ofOption] in Hcc.
    rewrite (creditsHandler_reports w rt cfg _ Hc Hcc).
    now rewrite (parseInt_safe _ n (parseInt10_of_Z n rest Hrest) Hsafe).
Qed.

Lemma integer_credits_witness :
  creditsHandler
    (Demo.world (Demo.accepted
       (VObj [("credits", VStr "899800"); ("activated", VBool true)])))
    Demo.runtime =
  ([infoCall Demo.config],
   Ok (true, CreditsReport true (Some 899800%Z) (899800%Z, 10000000%Z) "899800" false)).
Proof.
  exact (proj2
    (integer_credits_are_reported_exactly
       (Demo.world (Demo.accepted
          (VObj [("credits", VStr "899800"); ("activated", VBool true)])))
       Demo.runtime Demo.config
       (mkResponse 200 [("content-type", "application/json");
                        ("x-credits-remaining", "899800")]
          (Ok (Demo.stringify
                 (VObj [("credits", VStr "899800"); ("activated", VBool true)]))))
       (Demo.stringify (VObj [("credits", VStr "899800"); ("activated", VBool true)]))
       [("credits", VStr "899800"); ("activated", VBool true)]
       899800%Z "" eq_refl eq_refl eq_refl eq_refl eq_refl eq_refl eq_refl)
    eq_refl).
Defined.

(** X18. The credits handler never throws and asks the relay at most
    once. It returns [false] exactly when it reports a failure; every
    report it makes otherwise is consistent: the string it shows is never
    empty, [parsingError] is set exactly when that string has no leading
    integer, which is when the amount is [NaN], [success] is set exactly
    when [parsingError] is not, and the amount is the integer at the head
    of the string whenever that is an integer a JavaScript number holds
    exactly. *)
Theorem credits_handler_report (w : World) (rt : Runtime) :
  exists b c,
    outcome (creditsHandler w rt) = Ok (b, c) /\
    count_fetch (trace (creditsHandler w rt)) <= 1 /\
    (b = false <-> exists m, c = CreditsFailed m) /\
    (forall success amount xlm shown parsingError,
        c = CreditsReport success amount xlm shown parsingError ->
        shown <> "" /\
        parsingError = isNaN (parseInt10 shown) /\
        parsingError = isNaN amount /\
        success = negb parsingError /\
        (forall n, parseInt10 shown = Some n -> safeInteger n = true ->
                   amount = Some n)).
Proof.
  unfold creditsHandler. rewrite initialize_run.
  destruct (outcome (validateLaunchtubeConfig w rt)) as [cfg|m].
  - rewrite bind_Ok, checkCredits_initialized. cbn [trace outcome fst snd app].
    set (res := match infoAnswer w cfg with Ok _ => _ | Throw _ => _ end).
    destruct res as [[s]|m] eqn:Eres.
    + exists true. eexists. split; [reflexivity|]. split; [cbn; lia|].
      split; [split; [discriminate | intros [m H]; discriminate]|].
      intros success amount xlm shown pe H. injection H as <- <- _ <- <-.
      split; [|rewrite parseInt_NaN; repeat split; intros n Hn Hs;
               exact (parseInt_safe s n Hn Hs)].
      subst res. destruct (infoAnswer w cfg) as [r|]; [|discriminate].
      destruct (ok r); [|destruct (text r); discriminate].
      destruct (text r) as [t|]; [|discriminate].
      destruct (jsonParse w (Str.trim t)) as [parsed|]; [|discriminate].
      destruct (nullish parsed); [discriminate|].
      injection Eres as <-. unfold orElse.
      destruct (present _) eqn:Ep.
      * destruct (nullish (prop parsed "credits")); [discriminate|].
        cbn [show]. simpl in Ep. apply negb_true_iff, String.eqb_neq in Ep. exact Ep.
      * discriminate.
    + exists false. eexists. split; [reflexivity|]. split; [cbn; lia|].
      split; [split; [intros _; eexists; reflexivity | reflexivity]|].
      intros success amount xlm shown pe H. discriminate.
  - exists false. eexists. split; [reflexivity|]. split; [cbn; lia|].
    split; [split; [intros _; eexists; reflexivity | reflexivity]|].
    intros success amount xlm shown pe H. discriminate.
Qed.

(** ** The details of a successful submission *)

(** X19. In the details of a successful submission the entry
    [creditsRemaining] is always what the response header says, and
    [null] when the relay sent no such header, even when the body has a
    field of that name; every other field of the body is kept as it
    is. *)
Theorem success_details (w : World) (cfg : LaunchtubeConfig)
  (request : Req.LaunchtubeSubmissionRequest) (res : LaunchtubeSubmissionResponse) :
  outcome (submitTransaction w (mkService (Some cfg)) request) = Ok res ->
  status res = "success" ->
  exists r t result props,
    relayAnswer w cfg request = Ok r /\
    text r = Ok t /\
    jsonParse w t = Ok result /\
    details res = Some (VObj props) /\
    lookup "creditsRemaining" props = headers_get (headers r) "X-Credits-Remaining" /\
    (Forall (fun kv => Str.lower (fst kv) <> "x-credits-remaining") (headers r) ->
     lookup "creditsRemaining" props = VNull) /\
    (forall k, k <> "creditsRemaining" -> lookup k props = lookup k (spread result)).
Proof.
  rewrite submitTransaction_run. cbn [outcome snd]. intros H Hs. injection H as <-.
  destruct (submissionOf_success w _ Hs) as [r [t [result [Hr [Hok [Ht [Hj Hn]]]]]]].
  assert (Hd : details (submissionOf w (relayAnswer w cfg request)) =
               Some (VObj (assign "creditsRemaining"
                             (headers_get (headers r) "X-Credits-Remaining")
                             (spread result)))).
  { unfold submissionOf. now rewrite Hr, Hok, Ht, Hj, Hn. }
  exists r, t, result. eexists.
  split; [exact Hr|]. split; [exact Ht|]. split; [exact Hj|]. split; [exact Hd|].
  split; [apply lookup_assign_same|]. split.
  - rewrite lookup_assign_same. unfold headers_get.
    change (Str.lower "X-Credits-Remaining") with "x-credits-remaining".
    generalize (headers r). intros h Hno.
    assert (E : filter (fun kv => Str.lower (fst kv) =? "x-credits-remaining") h = []).
    { induction Hno as [|kv l Hkv _ IH]; [reflexivity|]. cbn [filter].
      apply String.eqb_neq in Hkv. rewrite Hkv. exact IH. }
    now rewrite E.
  - intros k Hk. now apply lookup_assign_other.
Qed.

Lemma success_details_witness :
  exists r t result props,
    relayAnswer (Demo.world (Demo.respond 200 [] (Demo.stringify (VObj []))))
      Demo.config (wireRequest "AAAA") = Ok r /\
    text r = Ok t /\
    Demo.parse t = Ok result /\
    Some (VObj [("creditsRemaining", VNull)]) = Some (VObj props) /\
    lookup "creditsRemaining" props = headers_get (headers r) "X-Credits-Remaining" /\
    (Forall (fun kv => Str.lower (fst kv) <> "x-credits-remaining") (headers r) ->
     lookup "creditsRemaining" props = VNull) /\
    (forall k, k <> "creditsRemaining" -> lookup k props = lookup k (spread result)).
Proof.
  exact (success_details
           (Demo.world (Demo.respond 200 [] (Demo.stringify (VObj []))))
           Demo.config (wireRequest "AAAA")
           (mkSubmission "success" VUndefined None
              (Some (VObj [("creditsRemaining", VNull)])))
           eq_refl eq_refl).
Defined.

(** ** The form body *)

Lemma occurrences_app (c : ascii) (a b : string) :
  occurrences c (a ++ b) = occurrences c a + occurrences c b.
Proof.
  induction a as [|x r IH]; [reflexivity|].
  cbn [String.append occurrences]. rewrite IH. lia.
Qed.

Lemma encode_char_no_separator (c : ascii) :
  occurrences "&" (encode_char c) = 0 /\ occurrences "=" (encode_char c) = 0.
Proof.
  destruct c as [b0 b1 b2 b3 b4 b5 b6 b7].
  destruct b0, b1, b2, b3, b4, b5, b6, b7; vm_compute; split; reflexivity.
Qed.

Lemma encode_no_separator (s : string) :
  occurrences "&" (encode s) = 0 /\ occurrences "=" (encode s) = 0.
Proof.
  induction s as [|c r [IH1 IH2]]; [now split|].
  cbn [encode]. rewrite !occurrences_app, IH1, IH2.
  destruct (encode_char_no_separator c) as [-> ->]. now split.
Qed.

Lemma pair_separators (kv : string * string) :
  occurrences "&" (encode (fst kv) ++ "=" ++ encode (snd kv)) = 0 /\
  occurrences "=" (encode (fst kv) ++ "=" ++ encode (snd kv)) = 1.
Proof.
  rewrite !occurrences_app.
  destruct (encode_no_separator (fst kv)) as [-> ->].
  destruct (encode_no_separator (snd kv)) as [-> ->]. now split.
Qed.

Lemma join_counts (l : list string) :
  Forall (fun s => occurrences "&" s = 0 /\ occurrences "=" s = 1) l ->
  occurrences "&" (Str.join "&" l) = List.length l - 1 /\
  occurrences "=" (Str.join "&" l) = List.length l.
Proof.
  induction 1 as [|x l [Hx1 Hx2] Hl [IH1 IH2]]; [now split|].
  destruct l as [|y r].
  - cbn [Str.join List.length]. now rewrite Hx1, Hx2.
  - assert (E : Str.join "&" (x :: y :: r) = x ++ "&" ++ Str.join "&" (y :: r))
      by reflexivity.
    rewrite E, !occurrences_app, IH1, IH2, Hx1, Hx2.
    cbn [occurrences Ascii.eqb Bool.eqb List.length]. lia.
Qed.

(** X20. A form body keeps its fields apart: in the body serialized from
    any list of fields, the ampersands are exactly the separators between
    the fields and the equals signs exactly one per field, whatever
    characters the names and values contain. In particular no payload of
    a submission can add a field or override [sim]. *)
Theorem form_body_keeps_fields_apart (p : URLSearchParams) :
  occurrences "&" (serialize p) = List.length p - 1 /\
  occurrences "=" (serialize p) = List.length p.
Proof.
  unfold serialize.
  rewrite <- (length_map (fun kv => encode (fst kv) ++ "=" ++ encode (snd kv)) p).
  apply join_counts. apply Forall_map, Forall_forall. intros kv _.
  apply pair_separators.
Qed.

(** ** Required fields *)

Lemma selectOperation_required (w : World) (d : StellarTransactionDetails)
  (b : TransactionBuilder) :
  requiredPresent d = false ->
  exists m, selectOperation w d b = throw m.
Proof.
  unfold requiredPresent, selectOperation.
  repeat match goal with
         | |- context [if strictEq ?k ?l then _ else _] => destruct (strictEq k l)
         end;
    intros H; try (eexists; reflexivity);
    rewrite <- ?negb_andb, H; eexists; reflexivity.
Qed.

(** X21. No transaction is built from an incomplete intent. Whenever
    [buildTransactionXDR] returns, the source account and every field its
    kind requires are present and not empty, so the operation never
    carries a placeholder for a missing value; and when a required field
    is missing the compiler throws after the account load without asking
    the SDK for anything. *)
Theorem incomplete_intent_is_never_built (w : World) (rt : Runtime)
  (d : StellarTransactionDetails) :
  (forall xdr,
      outcome (buildTransactionXDR w rt d) = Ok xdr ->
      present (sourceAccount d) = true /\ requiredPresent d = true) /\
  (requiredPresent d = false ->
   (exists m, outcome (buildTransactionXDR w rt d) = Throw m) /\
   only is_load (buildTransactionXDR w rt d)).
Proof.
  assert (Hmiss : requiredPresent d = false ->
                  (exists m, outcome (buildTransactionXDR w rt d) = Throw m) /\
                  only is_load (buildTransactionXDR w rt d)).
  { intros Hr. unfold buildTransactionXDR. cbv zeta.
    destruct (negb (present (sourceAccount d)));
      [split; [eexists; reflexivity | apply only_throw]|].
    rewrite loadAccount_eq.
    destruct (horizonLoadAccount w _ _) as [acc|m].
    - rewrite bind_Ok.
      destruct (selectOperation_required w d
                  (mkBuilder acc (passphraseOf rt) [] [] None) Hr) as [m ->].
      split; [eexists; reflexivity | apply only_single; reflexivity].
    - split; [eexists; reflexivity | apply only_single; reflexivity]. }
  split; [|exact Hmiss].
  intros xdr Hx. split.
  - unfold buildTransactionXDR in Hx. cbv zeta in Hx.
    destruct (present (sourceAccount d)); [reflexivity | discriminate].
  - destruct (requiredPresent d); [reflexivity|].
    destruct (Hmiss eq_refl) as [[m Hm] _]. congruence.
Qed.
